(** * Tracked-transaction store of the BTC staker (package [stakerdb])

    Shallow embedding of the key-value backed store of staking
    transactions: the three buckets ([transactions], [transactionIdx],
    [inputs]), insertion, the read-modify-write state transitions, the
    paginated query with the withdrawable filter, the full scan and the
    outpoint lookup.

    Integers of Go's fixed-width types are [Z] with the wrap-around written
    out; byte slices are lists of [Z] (each element a byte); a bucket is the
    list of its key/value pairs in the byte-wise key order in which a cursor
    walks it. *)

From Stdlib Require Import ZArith List Lia Bool String Ascii Sorted.
Import ListNotations.
Open Scope Z_scope.

Definition bytes := list Z.

(** ** Errors

    The package-level sentinel errors, [fmt.Errorf] without ([Errorf]) and
    with ([Wrapf]) a wrapped error ([%w]), and a run-time panic (index out
    of range), which unwinds through the enclosing database transaction like
    an error does. *)
Inductive error : Type :=
| ErrCorruptedTransactionsDB
| ErrTransactionNotFound
| ErrDuplicateTransaction
| ErrUnbondingDataNotFound
| ErrInvalidUnbondingDataUpdate
| Errorf (msg : string)
| Wrapf (msg : string) (wrapped : error)
| Panic (msg : string).

Inductive result (A : Type) : Type :=
| Ok (a : A)
| Err (e : error).
Arguments Ok {A} a.
Arguments Err {A} e.

Definition bind {A B : Type} (r : result A) (k : A -> result B) : result B :=
  match r with
  | Ok a => k a
  | Err e => Err e
  end.

Declare Scope result_scope.
Delimit Scope result_scope with result.
Notation "x <- r ;; k" := (bind r (fun x => k))
  (at level 61, r at next level, right associativity) : result_scope.
Notation "' pat <- r ;; k" := (bind r (fun x => match x with pat => k end))
  (at level 61, pat pattern, r at next level, right associativity) : result_scope.
Open Scope result_scope.

Definition error_eqb_sentinel (e t : error) : bool :=
  match e, t with
  | ErrCorruptedTransactionsDB, ErrCorruptedTransactionsDB => true
  | ErrTransactionNotFound, ErrTransactionNotFound => true
  | ErrDuplicateTransaction, ErrDuplicateTransaction => true
  | ErrUnbondingDataNotFound, ErrUnbondingDataNotFound => true
  | ErrInvalidUnbondingDataUpdate, ErrInvalidUnbondingDataUpdate => true
  | _, _ => false
  end.

(** [errors.Is]: the error is the sentinel, or wraps an error that is. *)
Fixpoint errors_Is (e target : error) : bool :=
  error_eqb_sentinel e target ||
  match e with
  | Wrapf _ w => errors_Is w target
  | _ => false
  end.

(** ** Byte strings and their order ([bytes.Compare]) *)
Fixpoint bytes_compare (a b : bytes) : comparison :=
  match a, b with
  | [], [] => Eq
  | [], _ :: _ => Lt
  | _ :: _, [] => Gt
  | x :: a', y :: b' =>
      match x ?= y with
      | Eq => bytes_compare a' b'
      | c => c
      end
  end.

Definition bytes_eqb (a b : bytes) : bool :=
  match bytes_compare a b with Eq => true | _ => false end.

(** ** [encoding/binary]: big-endian fixed-width integers *)
Module binary.

Definition byte_of (v : Z) : Z := Z.land v 255.

(** [BigEndian.PutUint64] into a fresh 8-byte slice. *)
Definition PutUint64 (v : Z) : bytes :=
  [ byte_of (Z.shiftr v 56); byte_of (Z.shiftr v 48);
    byte_of (Z.shiftr v 40); byte_of (Z.shiftr v 32);
    byte_of (Z.shiftr v 24); byte_of (Z.shiftr v 16);
    byte_of (Z.shiftr v 8);  byte_of v ].

(** [BigEndian.Uint64]: reads the first 8 bytes and panics on a shorter
    slice. *)
Definition Uint64 (b : bytes) : result Z :=
  match b with
  | b0 :: b1 :: b2 :: b3 :: b4 :: b5 :: b6 :: b7 :: _ =>
      Ok (Z.lor (Z.shiftl b0 56) (Z.lor (Z.shiftl b1 48)
         (Z.lor (Z.shiftl b2 40) (Z.lor (Z.shiftl b3 32)
         (Z.lor (Z.shiftl b4 24) (Z.lor (Z.shiftl b5 16)
         (Z.lor (Z.shiftl b6 8) b7)))))))
  | _ => Err (Panic "index out of range")
  end.

(** [binary.Write(buf, BigEndian, uint32)]. *)
Definition PutUint32 (v : Z) : bytes :=
  [ byte_of (Z.shiftr v 24); byte_of (Z.shiftr v 16);
    byte_of (Z.shiftr v 8);  byte_of v ].

End binary.

Definition MaxUint16 : Z := 65535.
Definition MaxUint64 : Z := 2 ^ 64 - 1.
Definition wrap64 (v : Z) : Z := v mod 2 ^ 64.

(** Signed 64-bit wrap-around of an exact integer. *)
Definition int64 (v : Z) : Z := (v + 2 ^ 63) mod 2 ^ 64 - 2 ^ 63.

Definition is_uint16 (v : Z) : bool := (0 <=? v) && (v <=? MaxUint16).
Definition is_uint32 (v : Z) : bool := (0 <=? v) && (v <? 2 ^ 32).
Definition is_uint64 (v : Z) : bool := (0 <=? v) && (v <=? MaxUint64).

(** ** The key-value backend

    A bucket holds its pairs in ascending byte-wise key order, the order of
    cursors and of [ForEach]. *)
Module kvdb.

Definition Bucket := list (bytes * bytes).

Fixpoint Get (k : bytes) (b : Bucket) : option bytes :=
  match b with
  | [] => None
  | (k', v) :: r =>
      match bytes_compare k k' with
      | Eq => Some v
      | _ => Get k r
      end
  end.

Fixpoint Put (k v : bytes) (b : Bucket) : Bucket :=
  match b with
  | [] => [(k, v)]
  | (k', v') :: r =>
      match bytes_compare k k' with
      | Eq => (k, v) :: r
      | Lt => (k, v) :: (k', v') :: r
      | Gt => (k', v') :: Put k v r
      end
  end.

Definition keys (b : Bucket) : list bytes := map fst b.

(** Strictly ascending keys: what every bucket of the backend satisfies. *)
Fixpoint sorted (b : Bucket) : bool :=
  match b with
  | [] => true
  | (k, _) :: r =>
      match r with
      | [] => true
      | (k', _) :: _ =>
          match bytes_compare k k' with Lt => sorted r | _ => false end
      end
  end.

End kvdb.

(** ** Bitcoin wire types (package [wire]) and hashes (package [chainhash]) *)
Module chainhash.

Definition HashSize : nat := 32.

(** A [chainhash.Hash] is a 32-byte array. *)
Definition Hash := bytes.

Definition valid (h : Hash) : bool := Nat.eqb (List.length h) HashSize.

Definition NewHash (b : bytes) : result Hash :=
  if Nat.eqb (List.length b) HashSize then Ok b
  else Err (Errorf "invalid hash length").

Definition CloneBytes (h : Hash) : bytes := h.

End chainhash.

Module wire.

Record OutPoint : Type := mkOutPoint {
  Hash : chainhash.Hash;
  Index : Z
}.

Record TxIn : Type := mkTxIn {
  PreviousOutPoint : OutPoint;
  SignatureScript : bytes;
  Witness : list bytes;
  Sequence : Z
}.

Record TxOut : Type := mkTxOut {
  Value : Z;
  PkScript : bytes
}.

Record MsgTx : Type := mkMsgTx {
  Version : Z;
  TxIn_ : list TxIn;
  TxOut_ : list TxOut;
  LockTime : Z
}.

Definition valid_outpoint (op : OutPoint) : bool :=
  chainhash.valid (Hash op) && is_uint32 (Index op).

End wire.

(** ** The persisted messages (package [proto]) *)
Module proto.

Record BTCConfirmationInfo : Type := mkBTCConfirmationInfo {
  BlockHeight : Z;
  BlockHash : bytes
}.

Record CovenantSig : Type := mkCovenantSig {
  CovenantSig_ : bytes;
  CovenantSigBtcPk : bytes
}.

Record UnbondingTxData : Type := mkUnbondingTxData {
  UnbondingTransaction : bytes;
  UnbondingTime : Z;
  CovenantSignatures : list CovenantSig;
  UnbondingTxBtcConfirmationInfo : option BTCConfirmationInfo
}.

Record TrackedTransaction : Type := mkTrackedTransaction {
  TrackedTransactionIdx : Z;
  StakingTransaction : bytes;
  StakingOutputIdx : Z;
  StakingTxBtcConfirmationInfo : option BTCConfirmationInfo;
  StakingTime : Z;
  StakerAddress : string;
  UnbondingTxData_ : option UnbondingTxData;
  BabylonBTCDelegationTxHash : string
}.

Definition set_TrackedTransactionIdx (t : TrackedTransaction) (i : Z) :=
  mkTrackedTransaction i (StakingTransaction t) (StakingOutputIdx t)
    (StakingTxBtcConfirmationInfo t) (StakingTime t) (StakerAddress t)
    (UnbondingTxData_ t) (BabylonBTCDelegationTxHash t).

Definition set_StakingTxBtcConfirmationInfo (t : TrackedTransaction)
    (ci : option BTCConfirmationInfo) :=
  mkTrackedTransaction (TrackedTransactionIdx t) (StakingTransaction t)
    (StakingOutputIdx t) ci (StakingTime t) (StakerAddress t)
    (UnbondingTxData_ t) (BabylonBTCDelegationTxHash t).

Definition set_UnbondingTxData (t : TrackedTransaction)
    (u : option UnbondingTxData) :=
  mkTrackedTransaction (TrackedTransactionIdx t) (StakingTransaction t)
    (StakingOutputIdx t) (StakingTxBtcConfirmationInfo t) (StakingTime t)
    (StakerAddress t) u (BabylonBTCDelegationTxHash t).

Definition set_CovenantSignatures (u : UnbondingTxData)
    (s : list CovenantSig) :=
  mkUnbondingTxData (UnbondingTransaction u) (UnbondingTime u) s
    (UnbondingTxBtcConfirmationInfo u).

Definition set_UnbondingTxBtcConfirmationInfo (u : UnbondingTxData)
    (ci : option BTCConfirmationInfo) :=
  mkUnbondingTxData (UnbondingTransaction u) (UnbondingTime u)
    (CovenantSignatures u) ci.

End proto.

(** ** Keys, signatures and addresses (packages [btcec], [schnorr], [btcutil]) *)
Module btcec.

(** A public key: a point of the curve. *)
Record PublicKey : Type := mkPublicKey {
  X : Z;
  Y : Z
}.

End btcec.

Module schnorr.

Record Signature : Type := mkSignature {
  R : Z;
  S : Z
}.

End schnorr.

Module btcutil.

(** An address, through the one method the store calls on it. *)
Record Address : Type := mkAddress {
  EncodeAddress : string
}.

End btcutil.

(** ** What the store takes from other packages

    The Bitcoin wire codec and transaction hash, the Schnorr signature and
    x-only public key codecs and the protobuf codec of
    [proto.TrackedTransaction]. *)
Class Externals : Type := {
  SerializeBtcTransaction : wire.MsgTx -> result bytes;
  Deserialize : bytes -> result wire.MsgTx;
  TxHash : wire.MsgTx -> chainhash.Hash;
  SerializeSignature : schnorr.Signature -> bytes;
  ParseSignature : bytes -> result schnorr.Signature;
  SerializePubKey : btcec.PublicKey -> bytes;
  ParsePubKey : bytes -> result btcec.PublicKey;
  Marshal : proto.TrackedTransaction -> result bytes;
  Unmarshal : bytes -> result proto.TrackedTransaction
}.

Definition uint16 (v : Z) : Z := v mod 2 ^ 16.
Definition uint32 (v : Z) : Z := v mod 2 ^ 32.

(** The database: its three top-level buckets, each absent until created. *)
Record DB : Type := mkDB {
  transactionBucket : option kvdb.Bucket;   (* "transactions": index -> record *)
  transactionIndex : option kvdb.Bucket;    (* "transactionIdx": hash -> index *)
  inputsDataBucket : option kvdb.Bucket     (* "inputs": outpoint -> hash *)
}.

Definition emptyDB : DB := mkDB None None None.

(** [kvdb.Batch]: the closure's writes are committed when it returns no
    error and discarded otherwise. *)
Definition Batch (db : DB) (f : DB -> result DB) : DB * option error :=
  match f db with
  | Ok db' => (db', None)
  | Err e => (db, Some e)
  end.

Definition CreateTopLevelBucket (b : option kvdb.Bucket) : option kvdb.Bucket :=
  match b with
  | None => Some []
  | Some b => Some b
  end.

(** key for next transaction: the bytes of "ntk" *)
Definition numTxKey : bytes := [110; 116; 107].

Record BtcConfirmationInfo : Type := mkBtcConfirmationInfo {
  Height : Z;
  BlockHash : chainhash.Hash
}.

Record WithdrawableTransactionsFilter : Type := mkWithdrawableTransactionsFilter {
  currentBestBlockHeight : Z
}.

Record StoredTransactionQuery : Type := mkStoredTransactionQuery {
  IndexOffset : Z;
  NumMaxTransactions : Z;
  Reversed : bool;
  withdrawableTransactionsFilter : option WithdrawableTransactionsFilter
}.

Definition DefaultStoredTransactionQuery : StoredTransactionQuery :=
  mkStoredTransactionQuery 0 50 false None.

Definition WithdrawableTransactionsFilter_ (q : StoredTransactionQuery)
    (currentBestBlock : Z) : StoredTransactionQuery :=
  mkStoredTransactionQuery (IndexOffset q) (NumMaxTransactions q) (Reversed q)
    (Some (mkWithdrawableTransactionsFilter currentBestBlock)).

Record inputData : Type := mkInputData {
  inputs : list bytes;
  txHash : bytes
}.

Definition uint64KeyToBytes (key : Z) : bytes := binary.PutUint64 key.

Definition nextTxKey (txIdxBucket : kvdb.Bucket) : result Z :=
  match kvdb.Get numTxKey txIdxBucket with
  | None => Ok 1
  | Some numTxBytes => binary.Uint64 numTxBytes
  end.

Definition getNumTx (txIdxBucket : kvdb.Bucket) : result Z :=
  k <- nextTxKey txIdxBucket ;; Ok (wrap64 (k - 1)).

(** getTxByHash returns transaction and transaction key if transaction with
    given hash exists *)
Definition getTxByHash (txHashBytes : bytes)
    (txIndexBucket txBucket : kvdb.Bucket) : result (bytes * bytes) :=
  match kvdb.Get txHashBytes txIndexBucket with
  | None => Err ErrTransactionNotFound
  | Some txKey =>
      match kvdb.Get txKey txBucket with
      | None => Err ErrCorruptedTransactionsDB
      | Some maybeTx => Ok (maybeTx, txKey)
      end
  end.

Definition outpointBytes (op : wire.OutPoint) : result bytes :=
  Ok (chainhash.CloneBytes (wire.Hash op) ++ binary.PutUint32 (wire.Index op)).

Definition isTimeLockExpired
    (confirmationBlockHeight lockTime currentBestBlockHeight : Z) : bool :=
  let nexBlockHeight := int64 (currentBestBlockHeight + 1) in
  let pastLock :=
    int64 (int64 (nexBlockHeight - confirmationBlockHeight) - lockTime) in
  pastLock >=? 0.

Definition protoBtcConfirmationInfoToBtcConfirmationInfo
    (ci : option proto.BTCConfirmationInfo)
    : result (option BtcConfirmationInfo) :=
  match ci with
  | None => Ok None
  | Some ci =>
      hash <- chainhash.NewHash (proto.BlockHash ci) ;;
      Ok (Some (mkBtcConfirmationInfo (proto.BlockHeight ci) hash))
  end.

(** The in-place reversal of the result slice:
    [for i := 0; i < numTx/2; i++ { swap(i, numTx-i-1) }]. *)
Fixpoint list_set {A : Type} (i : nat) (x : A) (l : list A) : list A :=
  match l, i with
  | [], _ => []
  | _ :: r, O => x :: r
  | y :: r, S i' => y :: list_set i' x r
  end.

Definition swap {A : Type} (i j : nat) (l : list A) : list A :=
  match nth_error l i, nth_error l j with
  | Some a, Some b => list_set j a (list_set i b l)
  | _, _ => l
  end.

Definition reverseInPlace {A : Type} (l : list A) : list A :=
  let numTx := List.length l in
  fold_left (fun l i => swap i (numTx - i - 1)%nat l)
            (seq 0 (Nat.div numTx 2)) l.

(** Modelled from the spec: the paginator ([newPaginator] and its [query]),
    whose source file is not among the sources.  Forward it begins at the
    (O+1)-th smallest key, reversed at the O-th-from-largest key; it then
    walks key by key in its direction, handing each pair to the callback;
    a pair the callback does not accept consumes none of the budget, and
    the walk ends when L pairs were accepted or the keys are exhausted, or
    with the first error of the callback. *)
Record paginator : Type := mkPaginator {
  cursor : kvdb.Bucket;
  reversed : bool;
  indexOffset : Z;
  totalItems : Z
}.

Definition newPaginator (c : kvdb.Bucket) (reversed : bool)
    (indexOffset totalItems : Z) : paginator :=
  mkPaginator c reversed indexOffset totalItems.

Definition paginator_walk (p : paginator) : list (bytes * bytes) :=
  skipn (Z.to_nat (indexOffset p))
        (if reversed p then rev (cursor p) else cursor p).

Fixpoint paginator_loop {S : Type}
    (fetchAndAppend : S -> bytes -> bytes -> S * result bool)
    (total : Z) (items : list (bytes * bytes)) (accepted : Z) (s : S)
    : S * option error :=
  match items with
  | [] => (s, None)
  | (k, v) :: r =>
      if accepted =? total then (s, None)
      else
        match fetchAndAppend s k v with
        | (s', Err e) => (s', Some e)
        | (s', Ok added) =>
            paginator_loop fetchAndAppend total r
              (if added then accepted + 1 else accepted) s'
        end
  end.

Definition paginator_query {S : Type} (p : paginator)
    (fetchAndAppend : S -> bytes -> bytes -> S * result bool) (s : S)
    : S * option error :=
  paginator_loop fetchAndAppend (totalItems p) (paginator_walk p) 0 s.

(** [Bucket.ForEach]: every pair in key order, until the first error. *)
Fixpoint ForEach {S : Type} (f : S -> bytes -> bytes -> S * option error)
    (b : kvdb.Bucket) (s : S) : S * option error :=
  match b with
  | [] => (s, None)
  | (k, v) :: r =>
      match f s k v with
      | (s', Some e) => (s', Some e)
      | (s', None) => ForEach f r s'
      end
  end.

Section Store.

Context `{E : Externals}.

Record PubKeySigPair : Type := mkPubKeySigPair {
  Signature_ : schnorr.Signature;
  PubKey : btcec.PublicKey
}.

Definition NewCovenantMemberSignature (sig : schnorr.Signature)
    (pubKey : btcec.PublicKey)
    : PubKeySigPair :=
  mkPubKeySigPair sig pubKey.

Definition covenantSigToProto (c : PubKeySigPair) : proto.CovenantSig :=
  proto.mkCovenantSig (SerializeSignature (Signature_ c))
                      (SerializePubKey (PubKey c)).

Definition covenantSigsToProto (c : list PubKeySigPair)
    : list proto.CovenantSig :=
  map covenantSigToProto c.

Definition covenantSigFromProto (c : proto.CovenantSig)
    : result PubKeySigPair :=
  sig <- ParseSignature (proto.CovenantSig_ c) ;;
  pubKey <- ParsePubKey (proto.CovenantSigBtcPk c) ;;
  Ok (mkPubKeySigPair sig pubKey).

Record UnbondingStoreData : Type := mkUnbondingStoreData {
  UnbondingTx : wire.MsgTx;
  UnbondingTime : Z;
  CovenantSignatures : list PubKeySigPair;
  UnbondingTxConfirmationInfo : option BtcConfirmationInfo
}.

Record StoredTransaction : Type := mkStoredTransaction {
  StoredTransactionIdx : Z;
  StakingTx : wire.MsgTx;
  StakingOutputIndex : Z;
  StakingTxConfirmationInfo : option BtcConfirmationInfo;
  StakingTime : Z;
  StakerAddress : string;
  UnbondingTxData : option UnbondingStoreData;
  BabylonBTCDelegationTxHash : string
}.

Record StoredTransactionQueryResult : Type := mkStoredTransactionQueryResult {
  Transactions : list StoredTransaction;
  Total : Z
}.

(** StakingTxConfirmedOnBtc returns true only if staking transaction was
    sent and confirmed on bitcoin *)
Definition StakingTxConfirmedOnBtc (t : StoredTransaction) : bool :=
  match StakingTxConfirmationInfo t with
  | Some _ => true
  | None => false
  end.

(** UnbondingTxConfirmedOnBtc returns true only if unbonding transaction
    was sent and confirmed on bitcoin *)
Definition UnbondingTxConfirmedOnBtc (t : StoredTransaction) : bool :=
  match UnbondingTxData t with
  | None => false
  | Some u =>
      match UnbondingTxConfirmationInfo u with
      | Some _ => true
      | None => false
      end
  end.

Definition newInitialUnbondingTxData (unbondingTx : option wire.MsgTx)
    (unbondingTime : Z) : result proto.UnbondingTxData :=
  match unbondingTx with
  | None =>
      Err (Errorf "cannot create unbonding tx data without unbonding tx")
  | Some unbondingTx =>
      match SerializeBtcTransaction unbondingTx with
      | Err e => Err (Wrapf "cannot create unbonding tx data" e)
      | Ok serializedTx =>
          Ok (proto.mkUnbondingTxData serializedTx (uint32 unbondingTime)
                [] None)
      end
  end.

(** The loop over [ud.CovenantSignatures], appending to [sigs]. *)
Fixpoint covenantSigsFromProto (l : list proto.CovenantSig)
    (sigs : list PubKeySigPair) : result (list PubKeySigPair) :=
  match l with
  | [] => Ok sigs
  | sig :: r =>
      covenantSig <- covenantSigFromProto sig ;;
      covenantSigsFromProto r (sigs ++ [covenantSig])
  end.

Definition protoUnbondingDataToUnbondingStoreData
    (ud : proto.UnbondingTxData) : result UnbondingStoreData :=
  unbondingTx <- Deserialize (proto.UnbondingTransaction ud) ;;
  if proto.UnbondingTime ud >? MaxUint16 then
    Err (Errorf "unbonding time is too large. Max value is 65535")
  else
    sigs <- covenantSigsFromProto (proto.CovenantSignatures ud) [] ;;
    unbondingTxConfirmationInfo <-
      protoBtcConfirmationInfoToBtcConfirmationInfo
        (proto.UnbondingTxBtcConfirmationInfo ud) ;;
    Ok (mkUnbondingStoreData unbondingTx (uint16 (proto.UnbondingTime ud))
          sigs unbondingTxConfirmationInfo).

Definition protoTxToStoredTransaction (ttx : proto.TrackedTransaction)
    : result StoredTransaction :=
  stakingTx <- Deserialize (proto.StakingTransaction ttx) ;;
  utd <- match proto.UnbondingTxData_ ttx with
         | Some ud =>
             unbondingData <- protoUnbondingDataToUnbondingStoreData ud ;;
             Ok (Some unbondingData)
         | None => Ok None
         end ;;
  stakingTxConfgInfo <-
    protoBtcConfirmationInfoToBtcConfirmationInfo
      (proto.StakingTxBtcConfirmationInfo ttx) ;;
  if proto.StakingTime ttx >? MaxUint16 then
    Err (Errorf "staking time is too large. Max value is 65535")
  else
    Ok (mkStoredTransaction
          (proto.TrackedTransactionIdx ttx)
          stakingTx
          (proto.StakingOutputIdx ttx)
          stakingTxConfgInfo
          (uint16 (proto.StakingTime ttx))
          (proto.StakerAddress ttx)
          utd
          (proto.BabylonBTCDelegationTxHash ttx)).

Definition initBuckets (db : DB) : DB * option error :=
  Batch db (fun tx =>
    Ok (mkDB (CreateTopLevelBucket (transactionBucket tx))
             (CreateTopLevelBucket (transactionIndex tx))
             (CreateTopLevelBucket (inputsDataBucket tx)))).

(** NewTrackedTransactionStore returns a new store backed by db *)
Definition NewTrackedTransactionStore (db : DB) : result DB :=
  match initBuckets db with
  | (_, Some e) => Err e
  | (store, None) => Ok store
  end.

Definition saveTrackedTransaction (rwTx : DB)
    (txIdxBucket txBucket : kvdb.Bucket) (txHashBytes : bytes)
    (tx : option proto.TrackedTransaction) (id : option inputData)
    : result DB :=
  match tx with
  | None => Err (Errorf "cannot save nil tracked transactions")
  | Some tx =>
      nextTxKey_ <- nextTxKey txIdxBucket ;;
      let tx := proto.set_TrackedTransactionIdx tx nextTxKey_ in
      marshalled <- Marshal tx ;;
      let nextTxKeyBytes := uint64KeyToBytes nextTxKey_ in
      let txBucket := kvdb.Put nextTxKeyBytes marshalled txBucket in
      let txIdxBucket := kvdb.Put txHashBytes nextTxKeyBytes txIdxBucket in
      inputDataBucket <-
        match id with
        | None => Ok (inputsDataBucket rwTx)
        | Some id =>
            match inputsDataBucket rwTx with
            | None => Err ErrCorruptedTransactionsDB
            | Some inputDataBucket =>
                (* save all the inputs to the transaction *)
                Ok (Some (fold_left
                            (fun b input => kvdb.Put input txHashBytes b)
                            (inputs id) inputDataBucket))
            end
        end ;;
      (* increment counter for the next transaction *)
      let txIdxBucket :=
        kvdb.Put numTxKey (uint64KeyToBytes (wrap64 (nextTxKey_ + 1)))
                 txIdxBucket in
      Ok (mkDB (Some txBucket) (Some txIdxBucket) inputDataBucket)
  end.

Definition addTransactionInternal (db : DB) (txHashBytes : bytes)
    (tt : option proto.TrackedTransaction) (id : option inputData)
    : DB * option error :=
  Batch db (fun tx =>
    match transactionIndex tx with
    | None => Err ErrCorruptedTransactionsDB
    | Some transactionsBucketIdxBucket =>
        (* check index first to avoid duplicates *)
        match kvdb.Get txHashBytes transactionsBucketIdxBucket with
        | Some _ => Err ErrDuplicateTransaction
        | None =>
            match transactionBucket tx with
            | None => Err ErrCorruptedTransactionsDB
            | Some transactionsBucket =>
                saveTrackedTransaction tx transactionsBucketIdxBucket
                  transactionsBucket txHashBytes tt id
            end
        end
    end).

Definition CreateTrackedTransaction (btcTx : wire.MsgTx)
    (stakingOutputIndex stakingTime : Z) (stakerAddress : btcutil.Address)
    : result StoredTransaction :=
  serializedTx <- SerializeBtcTransaction btcTx ;;
  let msg :=
    proto.mkTrackedTransaction 0 serializedTx stakingOutputIndex None
      (uint32 stakingTime) (btcutil.EncodeAddress stakerAddress) None
      EmptyString in
  protoTxToStoredTransaction msg.

Fixpoint getInputData_loop (ins : list wire.TxIn) (inputs : list bytes)
    : result (list bytes) :=
  match ins with
  | [] => Ok inputs
  | i :: r =>
      opBytes <- outpointBytes (wire.PreviousOutPoint i) ;;
      getInputData_loop r (inputs ++ [opBytes])
  end.

Definition getInputData (tx : wire.MsgTx) : result inputData :=
  inputs <- getInputData_loop (wire.TxIn_ tx) [] ;;
  Ok (mkInputData inputs (chainhash.CloneBytes (TxHash tx))).

(** AddTransactionSentToBabylon adds a transaction sent to Babylon *)
Definition AddTransactionSentToBabylon (db : DB) (btcTx : wire.MsgTx)
    (stakingOutputIndex stakingTime : Z) (stakerAddress : btcutil.Address)
    (unbondingTx : option wire.MsgTx) (unbondingTime : Z)
    (btcDelTxHash : string) : DB * option error :=
  let txHashBytes := TxHash btcTx in
  match SerializeBtcTransaction btcTx with
  | Err e => (db, Some (Wrapf "failed to serialize Bitcoin transaction" e))
  | Ok serializedTx =>
      match newInitialUnbondingTxData unbondingTx unbondingTime with
      | Err e =>
          (db, Some (Wrapf "failed to create unbonding transaction data" e))
      | Ok update =>
          let msg :=
            proto.mkTrackedTransaction 0 serializedTx stakingOutputIndex
              None (uint32 stakingTime) (btcutil.EncodeAddress stakerAddress)
              (Some update) btcDelTxHash in
          match getInputData btcTx with
          | Err e => (db, Some (Wrapf "failed to get input data" e))
          | Ok inputData =>
              addTransactionInternal db txHashBytes (Some msg)
                (Some inputData)
          end
      end
  end.

(** setTxState sets the state of a transaction *)
Definition setTxState (db : DB) (txHash : chainhash.Hash)
    (stateTransitionFn :
       proto.TrackedTransaction -> result proto.TrackedTransaction)
    : DB * option error :=
  let txHashBytes := chainhash.CloneBytes txHash in
  Batch db (fun tx =>
    match transactionIndex tx with
    | None => Err ErrCorruptedTransactionsDB
    | Some transactionIdxBucket =>
        match transactionBucket tx with
        | None => Err ErrCorruptedTransactionsDB
        | Some transactionsBucket =>
            '(maybeTx, txKey) <-
              getTxByHash txHashBytes transactionIdxBucket
                transactionsBucket ;;
            match Unmarshal maybeTx with
            | Err _ => Err ErrCorruptedTransactionsDB
            | Ok storedTx =>
                storedTx <- stateTransitionFn storedTx ;;
                marshalled <- Marshal storedTx ;;
                Ok (mkDB (Some (kvdb.Put txKey marshalled transactionsBucket))
                         (Some transactionIdxBucket)
                         (inputsDataBucket tx))
            end
        end
    end).

Definition setTxConfirmed (blockHash : chainhash.Hash) (blockHeight : Z)
    (tx : proto.TrackedTransaction) : result proto.TrackedTransaction :=
  Ok (proto.set_StakingTxBtcConfirmationInfo tx
        (Some (proto.mkBTCConfirmationInfo blockHeight
                 (chainhash.CloneBytes blockHash)))).

(** SetTxConfirmed sets the state of a transaction *)
Definition SetTxConfirmed (db : DB) (txHash blockHash : chainhash.Hash)
    (blockHeight : Z) : DB * option error :=
  setTxState db txHash (setTxConfirmed blockHash blockHeight).

Definition setDelegationActiveOnBabylon (blockHash : chainhash.Hash)
    (blockHeight : Z) (tx : proto.TrackedTransaction)
    : result proto.TrackedTransaction :=
  Ok (proto.set_StakingTxBtcConfirmationInfo tx
        (Some (proto.mkBTCConfirmationInfo blockHeight
                 (chainhash.CloneBytes blockHash)))).

Definition SetDelegationActiveOnBabylonAndConfirmedOnBtc (db : DB)
    (txHash blockHash : chainhash.Hash) (blockHeight : Z)
    : DB * option error :=
  setTxState db txHash (setDelegationActiveOnBabylon blockHash blockHeight).

Definition setUnbondingSignaturesReceived
    (covenantSignatures : list PubKeySigPair)
    (tx : proto.TrackedTransaction) : result proto.TrackedTransaction :=
  match proto.UnbondingTxData_ tx with
  | None =>
      Err (Wrapf
        "cannot set unbonding signatures received, because unbonding tx data does not exist"
        ErrUnbondingDataNotFound)
  | Some u =>
      if Nat.ltb 0 (List.length (proto.CovenantSignatures u)) then
        Err (Wrapf
          "cannot set unbonding signatures received, because unbonding signatures already exist"
          ErrInvalidUnbondingDataUpdate)
      else
        Ok (proto.set_UnbondingTxData tx
              (Some (proto.set_CovenantSignatures u
                       (covenantSigsToProto covenantSignatures))))
  end.

Definition SetTxUnbondingSignaturesReceived (db : DB)
    (txHash : chainhash.Hash) (covenantSignatures : list PubKeySigPair)
    : DB * option error :=
  setTxState db txHash (setUnbondingSignaturesReceived covenantSignatures).

Definition setUnbondingConfirmedOnBtc (blockHash : chainhash.Hash)
    (blockHeight : Z) (tx : proto.TrackedTransaction)
    : result proto.TrackedTransaction :=
  match proto.UnbondingTxData_ tx with
  | None =>
      Err (Wrapf
        "cannot set unbonding confirmed on btc, because unbonding tx data does not exist"
        ErrUnbondingDataNotFound)
  | Some u =>
      Ok (proto.set_UnbondingTxData tx
            (Some (proto.set_UnbondingTxBtcConfirmationInfo u
                     (Some (proto.mkBTCConfirmationInfo blockHeight
                              (chainhash.CloneBytes blockHash))))))
  end.

Definition SetTxUnbondingConfirmedOnBtc (db : DB)
    (txHash blockHash : chainhash.Hash) (blockHeight : Z)
    : DB * option error :=
  setTxState db txHash (setUnbondingConfirmedOnBtc blockHash blockHeight).

Definition GetTransaction (db : DB) (txHash : chainhash.Hash)
    : result StoredTransaction :=
  let txHashBytes := chainhash.CloneBytes txHash in
  match transactionIndex db with
  | None => Err ErrCorruptedTransactionsDB
  | Some transactionIdxBucket =>
      match transactionBucket db with
      | None => Err ErrCorruptedTransactionsDB
      | Some transactionsBucket =>
          '(maybeTx, _) <-
            getTxByHash txHashBytes transactionIdxBucket transactionsBucket ;;
          match Unmarshal maybeTx with
          | Err _ => Err ErrCorruptedTransactionsDB
          | Ok storedTxProto => protoTxToStoredTransaction storedTxProto
          end
      end
  end.

(** The withdrawable filter of the query: the reference pair
    (confirmation height, script time lock) of a record, if it has one. *)
Definition withdrawableReference (txFromDB : StoredTransaction)
    : option (Z * Z) :=
  if StakingTxConfirmedOnBtc txFromDB
     && negb (UnbondingTxConfirmedOnBtc txFromDB) then
    match StakingTxConfirmationInfo txFromDB with
    | Some ci => Some (Height ci, StakingTime txFromDB)
    | None => None
    end
  else if StakingTxConfirmedOnBtc txFromDB
          && UnbondingTxConfirmedOnBtc txFromDB then
    match UnbondingTxData txFromDB with
    | Some u =>
        match UnbondingTxConfirmationInfo u with
        | Some ci => Some (Height ci, UnbondingTime u)
        | None => None
        end
    | None => None
    end
  else None.

Definition withdrawable (f : WithdrawableTransactionsFilter)
    (txFromDB : StoredTransaction) : bool :=
  match withdrawableReference txFromDB with
  | Some (confirmationHeight, scriptTimeLock) =>
      isTimeLockExpired confirmationHeight scriptTimeLock
        (currentBestBlockHeight f)
  | None => false
  end.

(** The callback handed to the paginator; [resp] is the slice
    [resp.Transactions] it appends to. *)
Definition accumulateTransactions (q : StoredTransactionQuery)
    (resp : list StoredTransaction) (_ transaction : bytes)
    : list StoredTransaction * result bool :=
  match Unmarshal transaction with
  | Err e => (resp, Err e)
  | Ok protoTx =>
      match protoTxToStoredTransaction protoTx with
      | Err e => (resp, Err e)
      | Ok txFromDB =>
          match withdrawableTransactionsFilter q with
          | Some f =>
              if withdrawable f txFromDB
              then (resp ++ [txFromDB], Ok true)
              else (resp, Ok false)
          | None => (resp ++ [txFromDB], Ok true)
          end
      end
  end.

Definition emptyResult : StoredTransactionQueryResult :=
  mkStoredTransactionQueryResult [] 0.

Definition QueryStoredTransactions (db : DB) (q : StoredTransactionQuery)
    : StoredTransactionQueryResult * option error :=
  match transactionBucket db with
  | None => (emptyResult, Some ErrCorruptedTransactionsDB)
  | Some transactionsBucket =>
      match transactionIndex db with
      | None => (emptyResult, Some ErrCorruptedTransactionsDB)
      | Some transactionIdxBucket =>
          match getNumTx transactionIdxBucket with
          | Err e => (emptyResult, Some e)
          | Ok numTransactions =>
              if numTransactions =? 0 then (emptyResult, None)
              else
                let paginator :=
                  newPaginator transactionsBucket (Reversed q)
                    (IndexOffset q) (NumMaxTransactions q) in
                match paginator_query paginator
                        (accumulateTransactions q) [] with
                | (txs, Some e) =>
                    (mkStoredTransactionQueryResult txs numTransactions,
                     Some e)
                | (txs, None) =>
                    (mkStoredTransactionQueryResult
                       (if Reversed q then reverseInPlace txs else txs)
                       numTransactions,
                     None)
                end
          end
      end
  end.

Definition GetAllStoredTransactions (db : DB)
    : result (list StoredTransaction) :=
  let q := DefaultStoredTransactionQuery in
  (* MaxUint64 indicates we will scan over all transactions *)
  let q := mkStoredTransactionQuery (IndexOffset q) MaxUint64 (Reversed q)
             (withdrawableTransactionsFilter q) in
  match QueryStoredTransactions db q with
  | (_, Some e) => Err e
  | (resp, None) => Ok (Transactions resp)
  end.

Definition ScanTrackedTransactions {S : Type} (db : DB)
    (scanFunc : S -> StoredTransaction -> S * option error) (s : S)
    : S * option error :=
  match transactionBucket db with
  | None => (s, Some ErrCorruptedTransactionsDB)
  | Some transactionsBucket =>
      ForEach (fun s _ v =>
                 match Unmarshal v with
                 | Err _ => (s, Some ErrCorruptedTransactionsDB)
                 | Ok storedTxProto =>
                     match protoTxToStoredTransaction storedTxProto with
                     | Err e => (s, Some e)
                     | Ok txFromDB => scanFunc s txFromDB
                     end
                 end)
              transactionsBucket s
  end.

Definition OutpointUsed (db : DB) (op : wire.OutPoint)
    : bool * option error :=
  match inputsDataBucket db with
  | None => (false, Some ErrCorruptedTransactionsDB)
  | Some inputsBucket =>
      match outpointBytes op with
      | Err e => (false, Some (Wrapf "invalid outpoint provided" e))
      | Ok opBytes =>
          match kvdb.Get opBytes inputsBucket with
          | Some _ => (true, None)
          | None => (false, None)
          end
      end
  end.

End Store.


(** ** The page parameters of the RPC service (package [stakerservice])

    [offsetPtr] and [limitPtr] are [*int]: absent ([nil]) or a signed 64-bit
    integer; [uint64(x)] of an [int] is its value modulo 2^64. *)
Module stakerservice.

Definition defaultOffset : Z := 0.
Definition defaultLimit : Z := 50.
Definition maxLimit : Z := 100.

Record PageParams : Type := mkPageParams {
  Offset : Z;
  Limit : Z
}.

Definition getPageParams (offsetPtr limitPtr : option Z)
    : result PageParams :=
  limit <- match limitPtr with
           | None => Ok defaultLimit
           | Some l =>
               if l <? 0 then Err (Errorf "limit cannot be negative")
               else Ok (wrap64 l)
           end ;;
  let limit := if limit >? maxLimit then maxLimit else limit in
  offset <- match offsetPtr with
            | None => Ok defaultOffset
            | Some o =>
                if o >=? 0 then Ok (wrap64 o)
                else Err (Errorf "offset cannot be negative")
            end ;;
  Ok (mkPageParams offset limit).

End stakerservice.
(** * Vocabulary of the properties *)

(** The big-endian value of a byte string. *)
Fixpoint be_val (l : bytes) : Z :=
  match l with
  | [] => 0
  | x :: r => x * 256 ^ Z.of_nat (List.length r) + be_val r
  end.

Definition is_byte (x : Z) : Prop := 0 <= x < 256.

(** The 36-byte key of an outpoint in the outpoint index. *)
Definition outpointKey (op : wire.OutPoint) : bytes :=
  chainhash.CloneBytes (wire.Hash op) ++ binary.PutUint32 (wire.Index op).

Section Vocabulary.

Context `{E : Externals}.

(** What a transition on hash [h] may change: nothing but the value stored
    in the primary bucket under the key the hash index gives for [h]. *)
Definition primaryKeyOf (db : DB) (h : chainhash.Hash) : option bytes :=
  match transactionIndex db with
  | Some ib => kvdb.Get (chainhash.CloneBytes h) ib
  | None => None
  end.

Definition primaryGet (db : DB) (k : bytes) : option bytes :=
  match transactionBucket db with
  | Some tb => kvdb.Get k tb
  | None => None
  end.

Definition frame (h : chainhash.Hash) (db db' : DB) : Prop :=
  transactionIndex db' = transactionIndex db
  /\ inputsDataBucket db' = inputsDataBucket db
  /\ (forall k, primaryKeyOf db h <> Some k ->
                primaryGet db' k = primaryGet db k)
  /\ (transactionBucket db = None <-> transactionBucket db' = None).

(** The fields of a record lie in the ranges of their Go types. *)
Definition conf_in_range (c : option BtcConfirmationInfo) : bool :=
  match c with
  | Some ci => is_uint32 (Height ci)
  | None => true
  end.

Definition in_range (t : StoredTransaction) : bool :=
  is_uint16 (StakingTime t)
  && conf_in_range (StakingTxConfirmationInfo t)
  && match UnbondingTxData t with
     | Some u =>
         is_uint16 (UnbondingTime u)
         && conf_in_range (UnbondingTxConfirmationInfo u)
     | None => true
     end.

(** The encoding direction.  The source has no single function for it: it
    builds the persisted message field by field where it inserts
    ([AddTransactionSentToBabylon], [newInitialUnbondingTxData]) and where
    it records a confirmation or the signatures (the transition
    closures, [covenantSigsToProto]).  The functions below put those same
    constructions together for a whole record. *)
Definition btcConfirmationInfoToProto (ci : BtcConfirmationInfo)
    : proto.BTCConfirmationInfo :=
  proto.mkBTCConfirmationInfo (Height ci) (chainhash.CloneBytes (BlockHash ci)).

Definition unbondingStoreDataToProto (u : UnbondingStoreData)
    : result proto.UnbondingTxData :=
  serializedTx <- SerializeBtcTransaction (UnbondingTx u) ;;
  Ok (proto.mkUnbondingTxData serializedTx (uint32 (UnbondingTime u))
        (covenantSigsToProto (CovenantSignatures u))
        (option_map btcConfirmationInfoToProto
           (UnbondingTxConfirmationInfo u))).

Definition storedTransactionToProto (x : StoredTransaction)
    : result proto.TrackedTransaction :=
  serializedTx <- SerializeBtcTransaction (StakingTx x) ;;
  ud <- match UnbondingTxData x with
        | Some u => p <- unbondingStoreDataToProto u ;; Ok (Some p)
        | None => Ok None
        end ;;
  Ok (proto.mkTrackedTransaction
        (StoredTransactionIdx x) serializedTx (StakingOutputIndex x)
        (option_map btcConfirmationInfoToProto (StakingTxConfirmationInfo x))
        (uint32 (StakingTime x)) (StakerAddress x) ud
        (BabylonBTCDelegationTxHash x)).

Definition encodeRecord (x : StoredTransaction) : result bytes :=
  p <- storedTransactionToProto x ;; Marshal p.

(** Decoding a stored value, as [GetTransaction], the query and the scan
    do it. *)
Definition decodeRecord (b : bytes) : result StoredTransaction :=
  p <- Unmarshal b ;; protoTxToStoredTransaction p.

(** A valid record: its times fit 16 bits, its block hashes are 32 bytes
    long, and the external codecs reproduce its transactions, signatures,
    keys and its persisted message. *)
Definition tx_roundtrips (tx : wire.MsgTx) : Prop :=
  exists s, SerializeBtcTransaction tx = Ok s /\ Deserialize s = Ok tx.

Definition sig_roundtrips (c : PubKeySigPair) : Prop :=
  ParseSignature (SerializeSignature (Signature_ c)) = Ok (Signature_ c)
  /\ ParsePubKey (SerializePubKey (PubKey c)) = Ok (PubKey c).

Definition conf_valid (c : option BtcConfirmationInfo) : Prop :=
  match c with
  | Some ci => chainhash.valid (BlockHash ci) = true
  | None => True
  end.

Definition unbonding_valid (u : UnbondingStoreData) : Prop :=
  tx_roundtrips (UnbondingTx u)
  /\ is_uint16 (UnbondingTime u) = true
  /\ Forall sig_roundtrips (CovenantSignatures u)
  /\ conf_valid (UnbondingTxConfirmationInfo u).

Definition message_roundtrips (p : proto.TrackedTransaction) : Prop :=
  exists b, Marshal p = Ok b /\ Unmarshal b = Ok p.

Definition valid_record (x : StoredTransaction) : Prop :=
  tx_roundtrips (StakingTx x)
  /\ is_uint16 (StakingTime x) = true
  /\ conf_valid (StakingTxConfirmationInfo x)
  /\ match UnbondingTxData x with
     | Some u => unbonding_valid u
     | None => True
     end
  /\ (forall p, storedTransactionToProto x = Ok p -> message_roundtrips p).

(** The arguments of one insertion, and the insertion of them. *)
Record InsertArgs : Type := mkInsertArgs {
  a_btcTx : wire.MsgTx;
  a_stakingOutputIndex : Z;
  a_stakingTime : Z;
  a_stakerAddress : btcutil.Address;
  a_unbondingTx : option wire.MsgTx;
  a_unbondingTime : Z;
  a_btcDelTxHash : string
}.

Definition Insert (db : DB) (a : InsertArgs) : DB * option error :=
  AddTransactionSentToBabylon db (a_btcTx a) (a_stakingOutputIndex a)
    (a_stakingTime a) (a_stakerAddress a) (a_unbondingTx a)
    (a_unbondingTime a) (a_btcDelTxHash a).

(** The message an insertion persists under index [idx], given the
    serialized staking and unbonding transactions. *)
Definition insertedMessage (a : InsertArgs) (idx : Z) (s su : bytes)
    : proto.TrackedTransaction :=
  proto.mkTrackedTransaction idx s (a_stakingOutputIndex a) None
    (uint32 (a_stakingTime a)) (btcutil.EncodeAddress (a_stakerAddress a))
    (Some (proto.mkUnbondingTxData su (uint32 (a_unbondingTime a)) [] None))
    (a_btcDelTxHash a).

Definition outpointsOf (tx : wire.MsgTx) : list wire.OutPoint :=
  map wire.PreviousOutPoint (wire.TxIn_ tx).

(** The database an insertion commits. *)
Definition insertedDB (a : InsertArgs) (idx : Z) (m : bytes)
    (tb ib inb : kvdb.Bucket) : DB :=
  let h := TxHash (a_btcTx a) in
  mkDB (Some (kvdb.Put (uint64KeyToBytes idx) m tb))
       (Some (kvdb.Put numTxKey (uint64KeyToBytes (wrap64 (idx + 1)))
                (kvdb.Put h (uint64KeyToBytes idx) ib)))
       (Some (fold_left (fun b input => kvdb.Put input h b)
                (map outpointKey (outpointsOf (a_btcTx a))) inb)).

(** The store as [NewTrackedTransactionStore] opens it on an empty
    database, the mutating operations, and the database after a history
    of them. *)
Definition newStore : DB := fst (initBuckets emptyDB).

Inductive Op : Type :=
| OpInsert (a : InsertArgs)
| OpSetTxConfirmed (txHash blockHash : chainhash.Hash) (blockHeight : Z)
| OpSetDelegationActive (txHash blockHash : chainhash.Hash) (blockHeight : Z)
| OpSetUnbondingSignatures (txHash : chainhash.Hash)
    (covenantSignatures : list PubKeySigPair)
| OpSetUnbondingConfirmed (txHash blockHash : chainhash.Hash)
    (blockHeight : Z).

Definition step (db : DB) (o : Op) : DB * option error :=
  match o with
  | OpInsert a => Insert db a
  | OpSetTxConfirmed h bh ht => SetTxConfirmed db h bh ht
  | OpSetDelegationActive h bh ht =>
      SetDelegationActiveOnBabylonAndConfirmedOnBtc db h bh ht
  | OpSetUnbondingSignatures h sigs =>
      SetTxUnbondingSignaturesReceived db h sigs
  | OpSetUnbondingConfirmed h bh ht =>
      SetTxUnbondingConfirmedOnBtc db h bh ht
  end.

Definition run (db : DB) (ops : list Op) : DB :=
  fold_left (fun db o => fst (step db o)) ops db.

(** The outpoints of the inserted transactions are well-formed: a 32-byte
    hash and a 32-bit index. *)
Definition op_outpoints_valid (o : Op) : bool :=
  match o with
  | OpInsert a => forallb wire.valid_outpoint (outpointsOf (a_btcTx a))
  | _ => true
  end.

(** Some insertion of the history succeeded and its staking transaction
    has an input spending [op]. *)
Definition consumed_by_insert (ops : list Op) (op : wire.OutPoint) : Prop :=
  exists before a after,
    ops = before ++ OpInsert a :: after
    /\ snd (Insert (run newStore before) a) = None
    /\ In op (outpointsOf (a_btcTx a)).

(** A run of insertions, each of which has to succeed. *)
Fixpoint insertAll (db : DB) (l : list InsertArgs) : option DB :=
  match l with
  | [] => Some db
  | a :: r =>
      match Insert db a with
      | (db', None) => insertAll db' r
      | (_, Some _) => None
      end
  end.

(** The elements of a list with the numbers [i], [i+1], ... *)
Fixpoint numbered {A : Type} (i : Z) (l : list A) : list (A * Z) :=
  match l with
  | [] => []
  | a :: r => (a, i) :: numbered (i + 1) r
  end.

(** The record that the insertion of [a] under index [idx] stands for. *)
Definition insertedRecord (a : InsertArgs) (idx : Z)
    : option StoredTransaction :=
  match a_unbondingTx a with
  | Some u =>
      Some (mkStoredTransaction idx (a_btcTx a) (a_stakingOutputIndex a)
              None (a_stakingTime a) (btcutil.EncodeAddress (a_stakerAddress a))
              (Some (mkUnbondingStoreData u (a_unbondingTime a) [] None))
              (a_btcDelTxHash a))
  | None => None
  end.

(** The primary-bucket pair of the insertion of [a] under index [i]: the
    big-endian index as key, and as value the marshalled message that
    carries the index. *)
Definition stored_as (ai : InsertArgs * Z) (kv : bytes * bytes) : Prop :=
  fst kv = uint64KeyToBytes (snd ai)
  /\ exists u s su,
       a_unbondingTx (fst ai) = Some u
       /\ SerializeBtcTransaction (a_btcTx (fst ai)) = Ok s
       /\ SerializeBtcTransaction u = Ok su
       /\ Marshal (insertedMessage (fst ai) (snd ai) s su) = Ok (snd kv).

(** The inserted records are valid ones (see [valid_record]). *)
Definition records_valid (l : list InsertArgs) : Prop :=
  Forall (fun ai => forall x, insertedRecord (fst ai) (snd ai) = Some x ->
                              valid_record x)
         (numbered 1 l).

(** A visitor run over a list of records until its first error. *)
Fixpoint visitAll {S : Type}
    (f : S -> StoredTransaction -> S * option error)
    (l : list StoredTransaction) (s : S) : S * option error :=
  match l with
  | [] => (s, None)
  | t :: r =>
      match f s t with
      | (s', Some e) => (s', Some e)
      | (s', None) => visitAll f r s'
      end
  end.

(** The indices of the records of a page, in page order. *)
Definition pageIndices (r : StoredTransactionQueryResult) : list Z :=
  map StoredTransactionIdx (Transactions r).

(** The primary bucket is consistent: its keys ascend strictly, and every
    value that unmarshals carries the 64-bit index whose big-endian bytes
    are its key.  Insertion writes this, and the transitions keep it. *)
Definition entry_consistent (kv : bytes * bytes) : bool :=
  match Unmarshal (snd kv) with
  | Ok p =>
      bytes_eqb (fst kv) (uint64KeyToBytes (proto.TrackedTransactionIdx p))
      && is_uint64 (proto.TrackedTransactionIdx p)
  | Err _ => true
  end.

Definition consistent (db : DB) : bool :=
  match transactionBucket db with
  | Some tb => kvdb.sorted tb && forallb entry_consistent tb
  | None => true
  end.

(** What the consistency of reachable stores asks of the protobuf codec:
    a marshalled message with a 64-bit index, if it unmarshals, unmarshals
    to a message with that index. *)
Definition marshal_keeps_index : Prop :=
  forall p b p',
    is_uint64 (proto.TrackedTransactionIdx p) = true ->
    Marshal p = Ok b -> Unmarshal b = Ok p' ->
    proto.TrackedTransactionIdx p' = proto.TrackedTransactionIdx p.

(** The stored counter is readable and fits 64 bits. *)
Definition counter_ok (db : DB) : Prop :=
  exists ib n,
    transactionIndex db = Some ib /\ nextTxKey ib = Ok n /\ 0 <= n < 2 ^ 64.

(** ** Vocabulary of the further properties *)

(** A key is present in a bucket of the database. *)
Definition present (b : option kvdb.Bucket) (k : bytes) : Prop :=
  exists b', b = Some b' /\ kvdb.Get k b' <> None.

(** A record with its staking confirmation, or its unbonding data,
    replaced. *)
Definition withStakingConfirmation (x : StoredTransaction)
    (ci : option BtcConfirmationInfo) : StoredTransaction :=
  mkStoredTransaction (StoredTransactionIdx x) (StakingTx x)
    (StakingOutputIndex x) ci (StakingTime x) (StakerAddress x)
    (UnbondingTxData x) (BabylonBTCDelegationTxHash x).

Definition withUnbondingData (x : StoredTransaction)
    (u : option UnbondingStoreData) : StoredTransaction :=
  mkStoredTransaction (StoredTransactionIdx x) (StakingTx x)
    (StakingOutputIndex x) (StakingTxConfirmationInfo x) (StakingTime x)
    (StakerAddress x) u (BabylonBTCDelegationTxHash x).

Definition withUnbondingConfirmation (u : UnbondingStoreData)
    (ci : option BtcConfirmationInfo) : UnbondingStoreData :=
  mkUnbondingStoreData (UnbondingTx u) (UnbondingTime u)
    (CovenantSignatures u) ci.

Definition withCovenantSignatures (u : UnbondingStoreData)
    (sigs : list PubKeySigPair) : UnbondingStoreData :=
  mkUnbondingStoreData (UnbondingTx u) (UnbondingTime u) sigs
    (UnbondingTxConfirmationInfo u).

(** The three buckets are in place, as [initBuckets] leaves them. *)
Definition buckets_open (db : DB) : Prop :=
  transactionBucket db <> None
  /\ transactionIndex db <> None
  /\ inputsDataBucket db <> None.

(** The 64-bit signed integers ([int]). *)
Definition is_int64 (v : Z) : bool := (- 2 ^ 63 <=? v) && (v <? 2 ^ 63).

Definition opt_int64 (v : option Z) : bool :=
  match v with
  | Some x => is_int64 x
  | None => true
  end.

(** The message stored for hash [h]: what a transition reads. *)
Definition stored_message (db : DB) (h : chainhash.Hash)
    (p : proto.TrackedTransaction) : Prop :=
  exists ib tb k v,
    transactionIndex db = Some ib
    /\ transactionBucket db = Some tb
    /\ kvdb.Get h ib = Some k
    /\ kvdb.Get k tb = Some v
    /\ Unmarshal v = Ok p.

Definition confirmationOf (blockHash : chainhash.Hash) (blockHeight : Z)
    : proto.BTCConfirmationInfo :=
  proto.mkBTCConfirmationInfo blockHeight (chainhash.CloneBytes blockHash).

(** The number of insertions of a history that succeed. *)
Fixpoint insertions (db : DB) (ops : list Op) : nat :=
  match ops with
  | [] => 0
  | o :: r =>
      (match o with
       | OpInsert a =>
           match snd (Insert db a) with
           | None => 1
           | Some _ => 0
           end
       | _ => 0
       end + insertions (fst (step db o)) r)%nat
  end.

(** The primary bucket holds exactly the indices 1..n, in order, and the
    counter reads n + 1. *)
Definition holds_indices (db : DB) (n : nat) : Prop :=
  exists tb ib,
    transactionBucket db = Some tb
    /\ transactionIndex db = Some ib
    /\ inputsDataBucket db <> None
    /\ kvdb.keys tb = map uint64KeyToBytes (map Z.of_nat (seq 1 n))
    /\ kvdb.sorted tb = true
    /\ nextTxKey ib = Ok (Z.of_nat n + 1).

End Vocabulary.

(** ** A small instance of the external codecs

    Length-prefixed encodings with 8-byte big-endian integers: enough to run
    the store on concrete transactions. *)
Module Sample.

Definition parser (A : Type) : Type := bytes -> result (A * bytes).

Definition truncated {A : Type} : result A := Err (Errorf "unexpected EOF").

Definition put_u64 (v : Z) : bytes := binary.PutUint64 v.

Definition get_u64 : parser Z := fun b =>
  match binary.Uint64 b with
  | Ok v => Ok (v, skipn 8 b)
  | Err _ => truncated
  end.

Definition put_bytes (b : bytes) : bytes :=
  put_u64 (Z.of_nat (List.length b)) ++ b.

Definition get_bytes : parser bytes := fun b =>
  '(n, r) <- get_u64 b ;;
  if (Z.to_nat n <=? List.length r)%nat
  then Ok (firstn (Z.to_nat n) r, skipn (Z.to_nat n) r)
  else truncated.

Definition put_string (s : string) : bytes :=
  put_bytes (map (fun c => Z.of_nat (nat_of_ascii c)) (list_ascii_of_string s)).

Definition get_string : parser string := fun b =>
  '(l, r) <- get_bytes b ;;
  Ok (string_of_list_ascii (map (fun z => ascii_of_nat (Z.to_nat z)) l), r).

Definition put_list {A : Type} (put : A -> bytes) (l : list A) : bytes :=
  put_u64 (Z.of_nat (List.length l)) ++ flat_map put l.

Fixpoint get_n {A : Type} (get : parser A) (n : nat) : parser (list A) :=
  fun b =>
    match n with
    | O => Ok ([], b)
    | S n' =>
        '(x, r) <- get b ;;
        '(l, r') <- get_n get n' r ;;
        Ok (x :: l, r')
    end.

Definition get_list {A : Type} (get : parser A) : parser (list A) := fun b =>
  '(n, r) <- get_u64 b ;;
  if (Z.to_nat n <=? List.length r)%nat then get_n get (Z.to_nat n) r
  else truncated.

Definition put_option {A : Type} (put : A -> bytes) (o : option A) : bytes :=
  match o with
  | None => [0]
  | Some x => 1 :: put x
  end.

Definition get_option {A : Type} (get : parser A) : parser (option A) :=
  fun b =>
    match b with
    | 0 :: r => Ok (None, r)
    | 1 :: r => '(x, r') <- get r ;; Ok (Some x, r')
    | _ => truncated
    end.

Definition whole {A : Type} (p : parser A) (b : bytes) : result A :=
  '(x, r) <- p b ;;
  match r with
  | [] => Ok x
  | _ :: _ => Err (Errorf "trailing bytes")
  end.

(** The transaction codec. *)
Definition put_outpoint (o : wire.OutPoint) : bytes :=
  put_bytes (wire.Hash o) ++ put_u64 (wire.Index o).

Definition get_outpoint : parser wire.OutPoint := fun b =>
  '(h, r) <- get_bytes b ;;
  '(i, r) <- get_u64 r ;;
  Ok (wire.mkOutPoint h i, r).

Definition put_txin (i : wire.TxIn) : bytes :=
  put_outpoint (wire.PreviousOutPoint i) ++ put_bytes (wire.SignatureScript i)
  ++ put_list put_bytes (wire.Witness i) ++ put_u64 (wire.Sequence i).

Definition get_txin : parser wire.TxIn := fun b =>
  '(o, r) <- get_outpoint b ;;
  '(s, r) <- get_bytes r ;;
  '(w, r) <- get_list get_bytes r ;;
  '(q, r) <- get_u64 r ;;
  Ok (wire.mkTxIn o s w q, r).

Definition put_txout (o : wire.TxOut) : bytes :=
  put_u64 (wire.Value o) ++ put_bytes (wire.PkScript o).

Definition get_txout : parser wire.TxOut := fun b =>
  '(v, r) <- get_u64 b ;;
  '(s, r) <- get_bytes r ;;
  Ok (wire.mkTxOut v s, r).

Definition put_tx (t : wire.MsgTx) : bytes :=
  put_u64 (wire.Version t) ++ put_list put_txin (wire.TxIn_ t)
  ++ put_list put_txout (wire.TxOut_ t) ++ put_u64 (wire.LockTime t).

Definition get_tx : parser wire.MsgTx := fun b =>
  '(v, r) <- get_u64 b ;;
  '(i, r) <- get_list get_txin r ;;
  '(o, r) <- get_list get_txout r ;;
  '(l, r) <- get_u64 r ;;
  Ok (wire.mkMsgTx v i o l, r).

(** A 32-byte digest of the serialized transaction. *)
Definition digest (b : bytes) : bytes := firstn 32 (rev b ++ repeat 0 32).

(** The record codec. *)
Definition put_ci (c : proto.BTCConfirmationInfo) : bytes :=
  put_u64 (proto.BlockHeight c) ++ put_bytes (proto.BlockHash c).

Definition get_ci : parser proto.BTCConfirmationInfo := fun b =>
  '(h, r) <- get_u64 b ;;
  '(k, r) <- get_bytes r ;;
  Ok (proto.mkBTCConfirmationInfo h k, r).

Definition put_sig (c : proto.CovenantSig) : bytes :=
  put_bytes (proto.CovenantSig_ c) ++ put_bytes (proto.CovenantSigBtcPk c).

Definition get_sig : parser proto.CovenantSig := fun b =>
  '(s, r) <- get_bytes b ;;
  '(k, r) <- get_bytes r ;;
  Ok (proto.mkCovenantSig s k, r).

Definition put_unbonding (u : proto.UnbondingTxData) : bytes :=
  put_bytes (proto.UnbondingTransaction u) ++ put_u64 (proto.UnbondingTime u)
  ++ put_list put_sig (proto.CovenantSignatures u)
  ++ put_option put_ci (proto.UnbondingTxBtcConfirmationInfo u).

Definition get_unbonding : parser proto.UnbondingTxData := fun b =>
  '(t, r) <- get_bytes b ;;
  '(n, r) <- get_u64 r ;;
  '(s, r) <- get_list get_sig r ;;
  '(c, r) <- get_option get_ci r ;;
  Ok (proto.mkUnbondingTxData t n s c, r).

Definition put_tracked (t : proto.TrackedTransaction) : bytes :=
  put_u64 (proto.TrackedTransactionIdx t)
  ++ put_bytes (proto.StakingTransaction t)
  ++ put_u64 (proto.StakingOutputIdx t)
  ++ put_option put_ci (proto.StakingTxBtcConfirmationInfo t)
  ++ put_u64 (proto.StakingTime t)
  ++ put_string (proto.StakerAddress t)
  ++ put_option put_unbonding (proto.UnbondingTxData_ t)
  ++ put_string (proto.BabylonBTCDelegationTxHash t).

Definition get_tracked : parser proto.TrackedTransaction := fun b =>
  '(i, r) <- get_u64 b ;;
  '(t, r) <- get_bytes r ;;
  '(o, r) <- get_u64 r ;;
  '(c, r) <- get_option get_ci r ;;
  '(s, r) <- get_u64 r ;;
  '(a, r) <- get_string r ;;
  '(u, r) <- get_option get_unbonding r ;;
  '(d, r) <- get_string r ;;
  Ok (proto.mkTrackedTransaction i t o c s a u d, r).

(** The fixed-width codecs: 32 bytes for each of the two scalars of a
    signature, 32 bytes for the x coordinate of a key (the y coordinate is
    not encoded; parsing gives the point with y = 0). *)
Definition put_u256 (v : Z) : bytes :=
  put_u64 (Z.shiftr v 192) ++ put_u64 (Z.shiftr v 128)
  ++ put_u64 (Z.shiftr v 64) ++ put_u64 v.

Definition get_u256 : parser Z := fun b =>
  '(a, r) <- get_u64 b ;;
  '(b, r) <- get_u64 r ;;
  '(c, r) <- get_u64 r ;;
  '(d, r) <- get_u64 r ;;
  Ok (Z.lor (Z.shiftl a 192)
        (Z.lor (Z.shiftl b 128) (Z.lor (Z.shiftl c 64) d)), r).

Definition put_signature (s : schnorr.Signature) : bytes :=
  put_u256 (schnorr.R s) ++ put_u256 (schnorr.S s).

Definition get_signature (b : bytes) : result schnorr.Signature :=
  whole (fun b => '(r, t) <- get_u256 b ;;
                  '(s, t) <- get_u256 t ;;
                  Ok (schnorr.mkSignature r s, t)) b.

Definition put_pubkey (k : btcec.PublicKey) : bytes := put_u256 (btcec.X k).

Definition get_pubkey (b : bytes) : result btcec.PublicKey :=
  whole (fun b => '(x, t) <- get_u256 b ;; Ok (btcec.mkPublicKey x 0, t)) b.

#[export] Instance externals : Externals := {|
  SerializeBtcTransaction := fun t => Ok (put_tx t);
  Deserialize := whole get_tx;
  TxHash := fun t => digest (put_tx t);
  SerializeSignature := put_signature;
  ParseSignature := get_signature;
  SerializePubKey := put_pubkey;
  ParsePubKey := get_pubkey;
  Marshal := fun t => Ok (put_tracked t);
  Unmarshal := whole get_tracked
|}.

(** Concrete transactions. *)
Definition hashOf (v : Z) : chainhash.Hash := repeat v 32.

Definition stakingTxOf (v : Z) : wire.MsgTx :=
  wire.mkMsgTx 2
    [wire.mkTxIn (wire.mkOutPoint (hashOf v) 0) [] [] 4294967295]
    [wire.mkTxOut 100000 [81; 32]] v.

Definition unbondingTxOf (v : Z) : wire.MsgTx :=
  wire.mkMsgTx 2
    [wire.mkTxIn (wire.mkOutPoint (digest (put_tx (stakingTxOf v))) 0)
       [] [] 4294967295]
    [wire.mkTxOut 99000 [81; 32]] 0.

(** The arguments of the insertion of transaction [v], with and without
    the unbonding transaction. *)
Definition argsOf (v : Z) : InsertArgs :=
  mkInsertArgs (stakingTxOf v) 0 1000 (btcutil.mkAddress "bcrt1staker")
    (Some (unbondingTxOf v)) 100 "delegation"%string.

Definition argsWithoutUnbonding (v : Z) : InsertArgs :=
  mkInsertArgs (stakingTxOf v) 0 1000 (btcutil.mkAddress "bcrt1staker")
    None 0 "delegation"%string.

Definition store1 : DB := fst (Insert newStore (argsOf 1)).
Definition store2 : DB := fst (Insert store1 (argsOf 2)).
Definition store3 : DB := fst (Insert store2 (argsOf 3)).
Definition store4 : DB := fst (Insert store3 (argsOf 4)).

Definition indexOf (db : DB) : kvdb.Bucket :=
  match transactionIndex db with Some b => b | None => [] end.

Definition primaryOf (db : DB) : kvdb.Bucket :=
  match transactionBucket db with Some b => b | None => [] end.

(** The message and the stored bytes of the first insertion. *)
Definition message1 : proto.TrackedTransaction :=
  insertedMessage (argsOf 1) 1 (put_tx (stakingTxOf 1))
    (put_tx (unbondingTxOf 1)).

Definition unbonding1 : proto.UnbondingTxData :=
  proto.mkUnbondingTxData (put_tx (unbondingTxOf 1)) 100 [] None.

(** The record of the first insertion, as it is read back. *)
Definition unbondingRecord1 : UnbondingStoreData :=
  mkUnbondingStoreData (unbondingTxOf 1) 100 [] None.

Definition record1 : StoredTransaction :=
  mkStoredTransaction 1 (stakingTxOf 1) 0 None 1000 "bcrt1staker"%string
    (Some unbondingRecord1) "delegation"%string.

Definition pairOf (v : Z) : PubKeySigPair :=
  mkPubKeySigPair (schnorr.mkSignature (v + 1000) (v + 2000))
                  (btcec.mkPublicKey (v + 3000) 0).

(** A record with every optional part present, confirmed at height 100
    with a staking time of 10 blocks. *)
Definition fullRecord : StoredTransaction :=
  mkStoredTransaction 7 (stakingTxOf 7) 0
    (Some (mkBtcConfirmationInfo 100 (hashOf 9))) 10 "bcrt1staker"%string
    (Some (mkUnbondingStoreData (unbondingTxOf 7) 5 [pairOf 1; pairOf 2]
             (Some (mkBtcConfirmationInfo 120 (hashOf 8)))))
    "delegation"%string.

Definition confirmedRecord : StoredTransaction :=
  mkStoredTransaction 7 (stakingTxOf 7) 0
    (Some (mkBtcConfirmationInfo 100 (hashOf 9))) 10 "bcrt1staker"%string
    (Some (mkUnbondingStoreData (unbondingTxOf 7) 5 [] None))
    "delegation"%string.

End Sample.

(** * Properties *)

(** ** The byte order *)

Lemma bytes_compare_eq_iff (a b : bytes) : bytes_compare a b = Eq <-> a = b.
Proof.
  revert b; induction a as [|x a IH]; intros [|y b]; simpl;
    try (split; [discriminate | discriminate]); try tauto.
  destruct (Z.compare_spec x y) as [->|Hlt|Hgt].
  - rewrite IH. split; [intros ->; reflexivity | intros [=]; assumption].
  - split; [discriminate | intros [= -> _]; lia].
  - split; [discriminate | intros [= -> _]; lia].
Qed.

Lemma bytes_compare_refl (a : bytes) : bytes_compare a a = Eq.
Proof. apply bytes_compare_eq_iff; reflexivity. Qed.

Lemma bytes_compare_antisym (a b : bytes) :
  bytes_compare b a = CompOpp (bytes_compare a b).
Proof.
  revert b; induction a as [|x a IH]; intros [|y b]; simpl; try reflexivity.
  rewrite (Z.compare_antisym x y).
  destruct (x ?= y); simpl; auto.
Qed.

Lemma bytes_compare_lt_trans (a b c : bytes) :
  bytes_compare a b = Lt -> bytes_compare b c = Lt -> bytes_compare a c = Lt.
Proof.
  revert b c; induction a as [|x a IH]; intros [|y b] [|z c]; simpl;
    try discriminate; try reflexivity.
  destruct (Z.compare_spec x y) as [->|Hxy|Hxy]; try discriminate.
  - destruct (Z.compare_spec y z) as [->|Hyz|Hyz]; try discriminate.
    + apply IH.
    + reflexivity.
  - intros _.
    destruct (Z.compare_spec y z) as [->|Hyz|Hyz]; try discriminate.
    + intros _. destruct (Z.compare_spec x z); try lia; reflexivity.
    + intros _. destruct (Z.compare_spec x z); try lia; reflexivity.
Qed.

Lemma bytes_compare_neq (a b : bytes) : a <> b -> bytes_compare a b <> Eq.
Proof. intros Hne Heq. apply Hne, bytes_compare_eq_iff, Heq. Qed.

(** ** The bucket as a map *)

Lemma Get_Put_same (k v : bytes) (b : kvdb.Bucket) :
  kvdb.Get k (kvdb.Put k v b) = Some v.
Proof.
  induction b as [|[k' v'] r IH]; simpl.
  - rewrite bytes_compare_refl; reflexivity.
  - destruct (bytes_compare k k') eqn:Hc; simpl.
    + rewrite bytes_compare_refl; reflexivity.
    + rewrite bytes_compare_refl; reflexivity.
    + rewrite Hc; exact IH.
Qed.

Lemma Get_Put_other (k k' v : bytes) (b : kvdb.Bucket) :
  k' <> k -> kvdb.Get k' (kvdb.Put k v b) = kvdb.Get k' b.
Proof.
  intros Hne. pose proof (bytes_compare_neq _ _ Hne) as Hn.
  induction b as [|[k0 v0] r IH]; simpl.
  - destruct (bytes_compare k' k); [contradiction | reflexivity | reflexivity].
  - destruct (bytes_compare k k0) eqn:Hc; simpl.
    + apply bytes_compare_eq_iff in Hc; subst k0.
      destruct (bytes_compare k' k); [contradiction | reflexivity | reflexivity].
    + destruct (bytes_compare k' k); [contradiction | reflexivity | reflexivity].
    + rewrite IH; reflexivity.
Qed.

Lemma Get_Some_In (k v : bytes) (b : kvdb.Bucket) :
  kvdb.Get k b = Some v -> In (k, v) b.
Proof.
  induction b as [|[k' v'] r IH]; simpl; [discriminate|].
  destruct (bytes_compare k k') eqn:Hc.
  - apply bytes_compare_eq_iff in Hc; subst. intros [= ->]. left; reflexivity.
  - intros H; right; auto.
  - intros H; right; auto.
Qed.

Lemma Get_None_keys (k : bytes) (b : kvdb.Bucket) :
  kvdb.Get k b = None <-> ~ In k (kvdb.keys b).
Proof.
  induction b as [|[k' v'] r IH]; simpl; [tauto|].
  destruct (bytes_compare k k') eqn:Hc.
  - apply bytes_compare_eq_iff in Hc; subst.
    split; [discriminate | intros H; exfalso; apply H; left; reflexivity].
  - rewrite IH. split; [intros H [->|Hin]; [|tauto] | tauto].
    rewrite bytes_compare_refl in Hc; discriminate.
  - rewrite IH. split; [intros H [->|Hin]; [|tauto] | tauto].
    rewrite bytes_compare_refl in Hc; discriminate.
Qed.

(** ** Big-endian keys *)

Lemma byte_of_mod (v : Z) : binary.byte_of v = v mod 256.
Proof. unfold binary.byte_of. change 255 with (Z.ones 8). apply Z.land_ones; lia. Qed.

Lemma lor_shiftl_add (hi lo k : Z) :
  0 <= k -> 0 <= lo < 2 ^ k -> Z.lor (Z.shiftl hi k) lo = hi * 2 ^ k + lo.
Proof.
  intros Hk Hlo.
  assert (Hland : Z.land (Z.shiftl hi k) lo = 0).
  { apply Z.bits_inj'; intros n Hn.
    rewrite Z.land_spec, Z.bits_0.
    destruct (Z.ltb_spec n k) as [Hlt|Hge].
    - rewrite Z.shiftl_spec_low by assumption. reflexivity.
    - destruct (Z.eq_dec lo 0) as [->|Hnz].
      + rewrite Z.bits_0, andb_false_r; reflexivity.
      + rewrite (Z.bits_above_log2 lo n), andb_false_r; [reflexivity|lia|].
        apply Z.log2_lt_pow2; [lia|].
        apply Z.lt_le_trans with (2 ^ k); [lia|].
        apply Z.pow_le_mono_r; lia. }
  rewrite <- Z.lxor_lor by assumption.
  rewrite <- Z.add_nocarry_lxor by assumption.
  rewrite Z.shiftl_mul_pow2 by assumption. reflexivity.
Qed.

Lemma be_val_bound (l : bytes) :
  Forall is_byte l -> 0 <= be_val l < 256 ^ Z.of_nat (List.length l).
Proof.
  induction 1 as [|x r Hx Hr IH]; simpl be_val; simpl List.length.
  - simpl; lia.
  - rewrite Nat2Z.inj_succ, Z.pow_succ_r by lia.
    unfold is_byte in Hx.
    assert (0 < 256 ^ Z.of_nat (List.length r)) by (apply Z.pow_pos_nonneg; lia).
    nia.
Qed.

Lemma bytes_compare_be_val (a b : bytes) :
  List.length a = List.length b -> Forall is_byte a -> Forall is_byte b ->
  bytes_compare a b = (be_val a ?= be_val b).
Proof.
  revert b; induction a as [|x a IH]; intros [|y b] Hlen Ha Hb;
    simpl in Hlen; try discriminate.
  - reflexivity.
  - injection Hlen as Hlen. inversion Ha as [|? ? Hx Ha']; subst.
    inversion Hb as [|? ? Hy Hb']; subst.
    simpl bytes_compare. simpl be_val. rewrite <- Hlen.
    pose proof (be_val_bound a Ha') as Ba.
    pose proof (be_val_bound b Hb') as Bb. rewrite <- Hlen in Bb.
    set (P := 256 ^ Z.of_nat (List.length a)) in *.
    destruct (Z.compare_spec x y) as [->|Hlt|Hgt].
    + rewrite (IH b Hlen Ha' Hb').
      destruct (Z.compare_spec (be_val a) (be_val b));
        symmetry; [apply Z.compare_eq_iff | apply Z.compare_lt_iff
                  | apply Z.compare_gt_iff]; lia.
    + symmetry; apply Z.compare_lt_iff. nia.
    + symmetry; apply Z.compare_gt_iff. nia.
Qed.

Lemma PutUint64_bytes (v : Z) : Forall is_byte (binary.PutUint64 v).
Proof.
  unfold binary.PutUint64.
  repeat constructor; rewrite byte_of_mod; apply Z.mod_pos_bound; lia.
Qed.

Lemma PutUint64_length (v : Z) : List.length (binary.PutUint64 v) = 8%nat.
Proof. reflexivity. Qed.

Lemma be_val_PutUint64 (v : Z) :
  0 <= v < 2 ^ 64 -> be_val (binary.PutUint64 v) = v.
Proof.
  intros Hv. unfold binary.PutUint64. cbn [be_val List.length].
  rewrite !byte_of_mod, !Z.shiftr_div_pow2 by lia.
  change (Z.of_nat 7) with 7; change (Z.of_nat 6) with 6;
  change (Z.of_nat 5) with 5; change (Z.of_nat 4) with 4;
  change (Z.of_nat 3) with 3; change (Z.of_nat 2) with 2;
  change (Z.of_nat 1) with 1; change (Z.of_nat 0) with 0.
  change (2 ^ 64) with 18446744073709551616 in Hv.
  change (2 ^ 56) with 72057594037927936; change (2 ^ 48) with 281474976710656;
  change (2 ^ 40) with 1099511627776; change (2 ^ 32) with 4294967296;
  change (2 ^ 24) with 16777216; change (2 ^ 16) with 65536;
  change (2 ^ 8) with 256.
  change (256 ^ 7) with 72057594037927936; change (256 ^ 6) with 281474976710656;
  change (256 ^ 5) with 1099511627776; change (256 ^ 4) with 4294967296;
  change (256 ^ 3) with 16777216; change (256 ^ 2) with 65536;
  change (256 ^ 1) with 256; change (256 ^ 0) with 1.
  Z.div_mod_to_equations. lia.
Qed.

Lemma Uint64_be_val (b0 b1 b2 b3 b4 b5 b6 b7 : Z) :
  Forall is_byte [b0; b1; b2; b3; b4; b5; b6; b7] ->
  binary.Uint64 [b0; b1; b2; b3; b4; b5; b6; b7]
  = Ok (be_val [b0; b1; b2; b3; b4; b5; b6; b7]).
Proof.
  intros H.
  repeat match goal with
         | H : Forall _ (_ :: _) |- _ => inversion H; subst; clear H
         end.
  unfold is_byte in *. unfold binary.Uint64. f_equal.
  cbn [be_val List.length].
  change (Z.of_nat 7) with 7; change (Z.of_nat 6) with 6;
  change (Z.of_nat 5) with 5; change (Z.of_nat 4) with 4;
  change (Z.of_nat 3) with 3; change (Z.of_nat 2) with 2;
  change (Z.of_nat 1) with 1; change (Z.of_nat 0) with 0.
  change (256 ^ 7) with (2 ^ 56); change (256 ^ 6) with (2 ^ 48);
  change (256 ^ 5) with (2 ^ 40); change (256 ^ 4) with (2 ^ 32);
  change (256 ^ 3) with (2 ^ 24); change (256 ^ 2) with (2 ^ 16);
  change (256 ^ 1) with (2 ^ 8); change (256 ^ 0) with 1.
  rewrite (lor_shiftl_add b6 b7 8) by lia.
  rewrite (lor_shiftl_add b5 _ 16) by lia.
  rewrite (lor_shiftl_add b4 _ 24) by lia.
  rewrite (lor_shiftl_add b3 _ 32) by lia.
  rewrite (lor_shiftl_add b2 _ 40) by lia.
  rewrite (lor_shiftl_add b1 _ 48) by lia.
  rewrite (lor_shiftl_add b0 _ 56) by lia.
  lia.
Qed.

Lemma Uint64_PutUint64 (v : Z) :
  0 <= v < 2 ^ 64 -> binary.Uint64 (binary.PutUint64 v) = Ok v.
Proof.
  intros Hv. rewrite <- (be_val_PutUint64 v Hv) at 2.
  apply Uint64_be_val, PutUint64_bytes.
Qed.

Lemma PutUint64_compare (a b : Z) :
  0 <= a < 2 ^ 64 -> 0 <= b < 2 ^ 64 ->
  bytes_compare (binary.PutUint64 a) (binary.PutUint64 b) = (a ?= b).
Proof.
  intros Ha Hb.
  rewrite bytes_compare_be_val
    by (try reflexivity; apply PutUint64_bytes).
  rewrite !be_val_PutUint64 by assumption. reflexivity.
Qed.

Lemma PutUint64_inj (a b : Z) :
  0 <= a < 2 ^ 64 -> 0 <= b < 2 ^ 64 ->
  binary.PutUint64 a = binary.PutUint64 b -> a = b.
Proof.
  intros Ha Hb Heq.
  rewrite <- (be_val_PutUint64 a Ha), <- (be_val_PutUint64 b Hb), Heq.
  reflexivity.
Qed.

Lemma be_val_PutUint32 (v : Z) :
  0 <= v < 2 ^ 32 -> be_val (binary.PutUint32 v) = v.
Proof.
  intros Hv. unfold binary.PutUint32. cbn [be_val List.length].
  rewrite !byte_of_mod, !Z.shiftr_div_pow2 by lia.
  change (Z.of_nat 3) with 3; change (Z.of_nat 2) with 2;
  change (Z.of_nat 1) with 1; change (Z.of_nat 0) with 0.
  change (2 ^ 32) with 4294967296 in Hv.
  change (2 ^ 24) with 16777216; change (2 ^ 16) with 65536;
  change (2 ^ 8) with 256.
  change (256 ^ 3) with 16777216; change (256 ^ 2) with 65536;
  change (256 ^ 1) with 256; change (256 ^ 0) with 1.
  Z.div_mod_to_equations. lia.
Qed.

Lemma is_uint32_range (v : Z) : is_uint32 v = true -> 0 <= v < 2 ^ 32.
Proof. unfold is_uint32; intros H; apply andb_prop in H; lia. Qed.

Lemma is_uint16_range (v : Z) : is_uint16 v = true -> 0 <= v <= 65535.
Proof. unfold is_uint16, MaxUint16; intros H; apply andb_prop in H; lia. Qed.

Lemma is_uint64_range (v : Z) : is_uint64 v = true -> 0 <= v < 2 ^ 64.
Proof. unfold is_uint64, MaxUint64; intros H; apply andb_prop in H; lia. Qed.

Lemma app_eq_length_inv {A : Type} (a b c d : list A) :
  List.length a = List.length b -> a ++ c = b ++ d -> a = b /\ c = d.
Proof.
  revert b; induction a as [|x a IH]; intros [|y b] Hlen Heq;
    simpl in *; try discriminate.
  - split; [reflexivity | assumption].
  - injection Hlen as Hlen. injection Heq as -> Heq.
    destruct (IH b Hlen Heq) as [-> ->]. split; reflexivity.
Qed.

(** The 36-byte key of an outpoint determines the outpoint. *)
Lemma outpointBytes_inj (a b : wire.OutPoint) :
  wire.valid_outpoint a = true -> wire.valid_outpoint b = true ->
  outpointBytes a = outpointBytes b -> a = b.
Proof.
  unfold wire.valid_outpoint, chainhash.valid, outpointBytes,
    chainhash.CloneBytes.
  destruct a as [ha ia], b as [hb ib]; simpl.
  intros Ha Hb Heq.
  apply andb_prop in Ha as [Hla Hia]. apply andb_prop in Hb as [Hlb Hib].
  apply Nat.eqb_eq in Hla, Hlb.
  apply is_uint32_range in Hia, Hib.
  injection Heq as Heq.
  apply app_eq_length_inv in Heq as [-> Heq]; [|congruence].
  f_equal.
  rewrite <- (be_val_PutUint32 ia Hia), <- (be_val_PutUint32 ib Hib), Heq.
  reflexivity.
Qed.

Section StoreProperties.

Context `{E : Externals}.

(** ** Insertion of an already indexed hash *)

Lemma newInitialUnbondingTxData_Some (u : wire.MsgTx) (t : Z) (s : bytes) :
  SerializeBtcTransaction u = Ok s ->
  newInitialUnbondingTxData (Some u) t
  = Ok (proto.mkUnbondingTxData s (uint32 t) [] None).
Proof. intros H; unfold newInitialUnbondingTxData; rewrite H; reflexivity. Qed.

Lemma getInputData_loop_total (ins : list wire.TxIn) (acc : list bytes) :
  getInputData_loop ins acc
  = Ok (acc ++ map (fun i => chainhash.CloneBytes
                               (wire.Hash (wire.PreviousOutPoint i))
                             ++ binary.PutUint32
                                  (wire.Index (wire.PreviousOutPoint i)))
                   ins).
Proof.
  revert acc; induction ins as [|i r IH]; intros acc; simpl.
  - rewrite app_nil_r; reflexivity.
  - rewrite IH, <- app_assoc; reflexivity.
Qed.

Lemma getInputData_eq (tx : wire.MsgTx) :
  getInputData tx
  = Ok (mkInputData
          (map (fun i => outpointKey (wire.PreviousOutPoint i)) (wire.TxIn_ tx))
          (chainhash.CloneBytes (TxHash tx))).
Proof.
  unfold getInputData. rewrite getInputData_loop_total. reflexivity.
Qed.

(** C1. Inserting a transaction whose hash the hash index already holds
    fails with [ErrDuplicateTransaction], and the database after the call
    is the database before it: the counter, every primary record, the hash
    index and the outpoint index.  This holds for the internal insertion
    whatever record and inputs it is given, and for the public insertion
    of a staking transaction together with its unbonding transaction. *)
Theorem insert_duplicate_rejected (db : DB) (ib : kvdb.Bucket)
    (btcTx : wire.MsgTx) :
  transactionIndex db = Some ib ->
  kvdb.Get (TxHash btcTx) ib <> None ->
  (forall tt id,
      addTransactionInternal db (TxHash btcTx) tt id
      = (db, Some ErrDuplicateTransaction))
  /\ (forall outIdx stakingTime addr unbondingTx unbondingTime ref s su,
         SerializeBtcTransaction btcTx = Ok s ->
         SerializeBtcTransaction unbondingTx = Ok su ->
         AddTransactionSentToBabylon db btcTx outIdx stakingTime addr
           (Some unbondingTx) unbondingTime ref
         = (db, Some ErrDuplicateTransaction)).
Proof.
  intros Hib Hget.
  assert (Hint : forall tt id,
             addTransactionInternal db (TxHash btcTx) tt id
             = (db, Some ErrDuplicateTransaction)).
  { intros tt id. unfold addTransactionInternal, Batch. rewrite Hib.
    destruct (kvdb.Get (TxHash btcTx) ib); [reflexivity | congruence]. }
  split; [exact Hint|].
  intros outIdx stakingTime addr unbondingTx unbondingTime ref s su Hs Hsu.
  unfold AddTransactionSentToBabylon.
  rewrite Hs, (newInitialUnbondingTxData_Some _ _ _ Hsu), getInputData_eq.
  apply Hint.
Qed.

(** ** Lookup by hash *)

(** C8. With both buckets in place, [GetTransaction] fails with
    [ErrTransactionNotFound] when the hash index has no entry for the
    hash, fails with [ErrCorruptedTransactionsDB] when the entry names a
    key under which the primary bucket holds nothing, and returns the
    decoded record when the entry names a stored value that decodes. *)
Theorem get_transaction_outcomes (db : DB) (ib tb : kvdb.Bucket)
    (h : chainhash.Hash) :
  transactionIndex db = Some ib ->
  transactionBucket db = Some tb ->
  (kvdb.Get h ib = None -> GetTransaction db h = Err ErrTransactionNotFound)
  /\ (forall k, kvdb.Get h ib = Some k -> kvdb.Get k tb = None ->
                GetTransaction db h = Err ErrCorruptedTransactionsDB)
  /\ (forall k v p t,
         kvdb.Get h ib = Some k -> kvdb.Get k tb = Some v ->
         Unmarshal v = Ok p -> protoTxToStoredTransaction p = Ok t ->
         GetTransaction db h = Ok t).
Proof.
  intros Hib Htb. unfold GetTransaction, getTxByHash, chainhash.CloneBytes.
  rewrite Hib, Htb. repeat split.
  - intros ->. reflexivity.
  - intros k -> ->. reflexivity.
  - intros k v p t -> -> Hu Hd. simpl. rewrite Hu. exact Hd.
Qed.

(** ** The frame of a state transition *)

Lemma frame_refl (h : chainhash.Hash) (db : DB) : frame h db db.
Proof. unfold frame; repeat split; auto. Qed.

Lemma setTxState_frame (db : DB) (h : chainhash.Hash)
    (f : proto.TrackedTransaction -> result proto.TrackedTransaction) :
  frame h db (fst (setTxState db h f))
  /\ (snd (setTxState db h f) <> None -> fst (setTxState db h f) = db).
Proof.
  unfold setTxState, Batch.
  destruct (transactionIndex db) as [ib|] eqn:Hib;
    [|simpl; split; [apply frame_refl | reflexivity]].
  destruct (transactionBucket db) as [tb|] eqn:Htb;
    [|simpl; split; [apply frame_refl | reflexivity]].
  unfold getTxByHash.
  destruct (kvdb.Get (chainhash.CloneBytes h) ib) as [txKey|] eqn:Hk;
    [|simpl; split; [apply frame_refl | reflexivity]].
  destruct (kvdb.Get txKey tb) as [maybeTx|] eqn:Hv;
    [|simpl; split; [apply frame_refl | reflexivity]].
  simpl.
  destruct (Unmarshal maybeTx) as [storedTx|e];
    [|simpl; split; [apply frame_refl | reflexivity]].
  destruct (f storedTx) as [storedTx'|e];
    [|simpl; split; [apply frame_refl | reflexivity]].
  simpl.
  destruct (Marshal storedTx') as [marshalled|e];
    [|simpl; split; [apply frame_refl | reflexivity]].
  simpl. split; [|congruence].
  unfold frame, primaryKeyOf, primaryGet; simpl.
  rewrite Hib, Htb, Hk. repeat split; auto; try discriminate.
  intros k Hne. apply Get_Put_other. congruence.
Qed.

(** C10. Each of the four state transitions on hash [h], whether it
    succeeds or fails, leaves the hash index (with the counter) and the
    outpoint index as they were and leaves every primary record other than
    the one under [h]'s index key as it was; a failing one leaves the
    whole database as it was. *)
Theorem transitions_frame (db : DB) (h blockHash : chainhash.Hash)
    (blockHeight : Z) (sigs : list PubKeySigPair) :
  let changes_only_h (r : DB * option error) :=
    frame h db (fst r) /\ (snd r <> None -> fst r = db) in
  changes_only_h (SetTxConfirmed db h blockHash blockHeight)
  /\ changes_only_h
       (SetDelegationActiveOnBabylonAndConfirmedOnBtc db h blockHash
          blockHeight)
  /\ changes_only_h (SetTxUnbondingSignaturesReceived db h sigs)
  /\ changes_only_h (SetTxUnbondingConfirmedOnBtc db h blockHash blockHeight).
Proof.
  cbv zeta.
  unfold SetTxConfirmed, SetDelegationActiveOnBabylonAndConfirmedOnBtc,
    SetTxUnbondingSignaturesReceived, SetTxUnbondingConfirmedOnBtc.
  repeat split; try apply setTxState_frame.
Qed.

(** ** The withdrawable filter *)

Lemma int64_small (v : Z) : - 2 ^ 63 <= v < 2 ^ 63 -> int64 v = v.
Proof.
  intros Hv. unfold int64.
  rewrite Z.mod_small; lia.
Qed.

Lemma isTimeLockExpired_exact (conf lock best : Z) :
  is_uint32 conf = true -> is_uint16 lock = true -> is_uint32 best = true ->
  isTimeLockExpired conf lock best = (best + 1 - conf - lock >=? 0).
Proof.
  intros Hc Hl Hb.
  apply is_uint32_range in Hc, Hb. apply is_uint16_range in Hl.
  change (2 ^ 32) with 4294967296 in *.
  unfold isTimeLockExpired.
  rewrite (int64_small (best + 1))
    by (change (2 ^ 63) with 9223372036854775808; lia).
  rewrite (int64_small (best + 1 - conf))
    by (change (2 ^ 63) with 9223372036854775808; lia).
  rewrite (int64_small (best + 1 - conf - lock))
    by (change (2 ^ 63) with 9223372036854775808; lia).
  reflexivity.
Qed.

(** C5. The withdrawable filter is a function of the record and the best
    height alone.  A record without staking confirmation is ineligible.
    With a staking confirmation and no confirmed unbonding transaction
    (unbonding data absent, or present without confirmation) the record is
    eligible exactly when
    [bestHeight + 1 - stakingConfirmationHeight - stakingTime >= 0]; with
    a confirmed unbonding transaction, exactly when
    [bestHeight + 1 - unbondingConfirmationHeight - unbondingTime >= 0];
    both computed without wrap-around.  Confirmed at height 100 with lock
    10, a record is ineligible at best height 108 and eligible at 109. *)
Theorem withdrawable_filter_exact (t : StoredTransaction) (best : Z) :
  in_range t = true -> is_uint32 best = true ->
  let f := mkWithdrawableTransactionsFilter best in
  (StakingTxConfirmationInfo t = None -> withdrawable f t = false)
  /\ (forall ci,
         StakingTxConfirmationInfo t = Some ci ->
         UnbondingTxConfirmedOnBtc t = false ->
         withdrawable f t
         = (best + 1 - Height ci - StakingTime t >=? 0))
  /\ (forall ci u uci,
         StakingTxConfirmationInfo t = Some ci ->
         UnbondingTxData t = Some u ->
         UnbondingTxConfirmationInfo u = Some uci ->
         withdrawable f t
         = (best + 1 - Height uci - UnbondingTime u >=? 0))
  /\ isTimeLockExpired 100 10 108 = false
  /\ isTimeLockExpired 100 10 109 = true.
Proof.
  intros Hr Hb f. unfold in_range in Hr.
  apply andb_prop in Hr as [Hr Hu]. apply andb_prop in Hr as [Hst Hsc].
  unfold withdrawable, withdrawableReference, StakingTxConfirmedOnBtc,
    UnbondingTxConfirmedOnBtc.
  repeat split.
  - intros ->. reflexivity.
  - intros ci Hci Hnu. rewrite Hci in *. simpl in Hsc.
    unfold UnbondingTxConfirmedOnBtc in Hnu. rewrite Hnu. simpl.
    apply isTimeLockExpired_exact; assumption.
  - intros ci u uci Hci Hud Huci. rewrite Hci, Hud in *. rewrite Huci in *.
    simpl. apply andb_prop in Hu as [Hut Huc]. simpl in Huc.
    apply isTimeLockExpired_exact; assumption.
Qed.

(** ** The record codec *)

Lemma uint16_uint32 (v : Z) : is_uint16 v = true -> uint16 (uint32 v) = v.
Proof.
  intros H. apply is_uint16_range in H. unfold uint16, uint32.
  rewrite (Z.mod_small v (2 ^ 32))
    by (change (2 ^ 32) with 4294967296; lia).
  apply Z.mod_small. change (2 ^ 16) with 65536; lia.
Qed.

Lemma uint32_small_le (v : Z) :
  is_uint16 v = true -> (uint32 v >? MaxUint16) = false.
Proof.
  intros H. apply is_uint16_range in H. unfold uint32, MaxUint16.
  rewrite Z.mod_small by (change (2 ^ 32) with 4294967296; lia).
  rewrite Z.gtb_ltb. apply Z.ltb_ge. lia.
Qed.

Lemma conf_roundtrip (c : option BtcConfirmationInfo) :
  conf_valid c ->
  protoBtcConfirmationInfoToBtcConfirmationInfo
    (option_map btcConfirmationInfoToProto c) = Ok c.
Proof.
  destruct c as [[h bh]|]; simpl; [|reflexivity].
  unfold chainhash.NewHash, chainhash.valid, chainhash.CloneBytes.
  intros ->. reflexivity.
Qed.

Lemma covenantSigsFromProto_roundtrip (l acc : list PubKeySigPair) :
  Forall sig_roundtrips l ->
  covenantSigsFromProto (covenantSigsToProto l) acc = Ok (acc ++ l).
Proof.
  intros H; revert acc; induction H as [|c l [Hs Hk] Hl IH]; intros acc.
  - simpl. rewrite app_nil_r. reflexivity.
  - simpl. unfold covenantSigFromProto, covenantSigToProto at 1. simpl.
    rewrite Hs, Hk. simpl. rewrite IH, <- app_assoc.
    destruct c; reflexivity.
Qed.

Lemma unbonding_roundtrip (u : UnbondingStoreData) :
  unbonding_valid u ->
  exists p, unbondingStoreDataToProto u = Ok p
            /\ protoUnbondingDataToUnbondingStoreData p = Ok u.
Proof.
  intros ([s [Hs Hd]] & Ht & Hsigs & Hc).
  unfold unbondingStoreDataToProto. rewrite Hs. simpl.
  eexists; split; [reflexivity|].
  unfold protoUnbondingDataToUnbondingStoreData. simpl.
  rewrite Hd. simpl. rewrite (uint32_small_le _ Ht).
  rewrite (covenantSigsFromProto_roundtrip _ [] Hsigs). simpl.
  rewrite (conf_roundtrip _ Hc). simpl.
  rewrite (uint16_uint32 _ Ht). destruct u; reflexivity.
Qed.

Lemma record_roundtrip (x : StoredTransaction) :
  valid_record x ->
  (exists p, storedTransactionToProto x = Ok p
             /\ protoTxToStoredTransaction p = Ok x)
  /\ (exists b, encodeRecord x = Ok b /\ decodeRecord b = Ok x).
Proof.
  intros ([s [Hs Hd]] & Ht & Hc & Hu & Hm).
  assert (Hp : exists p, storedTransactionToProto x = Ok p
                         /\ protoTxToStoredTransaction p = Ok x).
  { unfold storedTransactionToProto. rewrite Hs. simpl.
    destruct (UnbondingTxData x) as [u|] eqn:Hud.
    - destruct (unbonding_roundtrip u Hu) as (pu & Hpu & Hdu).
      rewrite Hpu. simpl. eexists; split; [reflexivity|].
      unfold protoTxToStoredTransaction. simpl.
      rewrite Hd. simpl. rewrite Hdu. simpl.
      rewrite (conf_roundtrip _ Hc). simpl.
      rewrite (uint32_small_le _ Ht), (uint16_uint32 _ Ht).
      destruct x; simpl in *; subst; reflexivity.
    - simpl. eexists; split; [reflexivity|].
      unfold protoTxToStoredTransaction. simpl.
      rewrite Hd. simpl.
      rewrite (conf_roundtrip _ Hc). simpl.
      rewrite (uint32_small_le _ Ht), (uint16_uint32 _ Ht).
      destruct x; simpl in *; subst; reflexivity. }
  split; [exact Hp|].
  destruct Hp as (p & Hp & Hdp).
  destruct (Hm p Hp) as (b & Hb & Hub).
  exists b. unfold encodeRecord, decodeRecord.
  rewrite Hp. simpl. rewrite Hb, Hub. simpl. split; [reflexivity|exact Hdp].
Qed.

(** C3. For every valid record, whichever of its staking confirmation,
    unbonding data, covenant signatures and unbonding confirmation are
    present, the record encodes, and decoding the encoded form gives the
    record back, field for field, absent parts absent: on the persisted
    message and on its bytes. *)
Theorem decode_encode_roundtrip (x : StoredTransaction) :
  valid_record x ->
  (exists p, storedTransactionToProto x = Ok p
             /\ protoTxToStoredTransaction p = Ok x)
  /\ (exists b, encodeRecord x = Ok b /\ decodeRecord b = Ok x).
Proof. exact (record_roundtrip x). Qed.

(** ** What an insertion does *)

Lemma Insert_success (db : DB) (a : InsertArgs) (tb ib inb : kvdb.Bucket)
    (u : wire.MsgTx) (n : Z) (s su m : bytes) :
  transactionBucket db = Some tb ->
  transactionIndex db = Some ib ->
  inputsDataBucket db = Some inb ->
  a_unbondingTx a = Some u ->
  SerializeBtcTransaction (a_btcTx a) = Ok s ->
  SerializeBtcTransaction u = Ok su ->
  kvdb.Get (TxHash (a_btcTx a)) ib = None ->
  nextTxKey ib = Ok n ->
  Marshal (insertedMessage a n s su) = Ok m ->
  Insert db a = (insertedDB a n m tb ib inb, None).
Proof.
  intros Htb Hib Hinb Hu Hs Hsu Hget Hn Hm.
  unfold Insert, AddTransactionSentToBabylon.
  rewrite Hs, Hu, (newInitialUnbondingTxData_Some _ _ _ Hsu), getInputData_eq.
  unfold addTransactionInternal, Batch. rewrite Hib, Hget, Htb.
  unfold saveTrackedTransaction. rewrite Hn. simpl bind.
  unfold insertedMessage in Hm. unfold proto.set_TrackedTransactionIdx.
  simpl. rewrite Hm. simpl. rewrite Hinb. simpl.
  unfold insertedDB, outpointsOf, chainhash.CloneBytes.
  rewrite map_map. reflexivity.
Qed.

(** A failing insertion commits nothing; a succeeding one committed
    exactly [insertedDB]. *)
Lemma Insert_inv (db : DB) (a : InsertArgs) :
  (fst (Insert db a) = db /\ snd (Insert db a) <> None)
  \/ (exists tb ib inb u n s su m,
         transactionBucket db = Some tb
         /\ transactionIndex db = Some ib
         /\ inputsDataBucket db = Some inb
         /\ a_unbondingTx a = Some u
         /\ SerializeBtcTransaction (a_btcTx a) = Ok s
         /\ SerializeBtcTransaction u = Ok su
         /\ kvdb.Get (TxHash (a_btcTx a)) ib = None
         /\ nextTxKey ib = Ok n
         /\ Marshal (insertedMessage a n s su) = Ok m
         /\ Insert db a = (insertedDB a n m tb ib inb, None)).
Proof.
  destruct (SerializeBtcTransaction (a_btcTx a)) as [s|e] eqn:Hs.
  2:{ left. unfold Insert, AddTransactionSentToBabylon. rewrite Hs.
      simpl; split; [reflexivity | discriminate]. }
  destruct (a_unbondingTx a) as [u|] eqn:Hu.
  2:{ left. unfold Insert, AddTransactionSentToBabylon. rewrite Hs, Hu.
      simpl; split; [reflexivity | discriminate]. }
  destruct (SerializeBtcTransaction u) as [su|e] eqn:Hsu.
  2:{ left. unfold Insert, AddTransactionSentToBabylon.
      rewrite Hs, Hu. unfold newInitialUnbondingTxData. rewrite Hsu.
      simpl; split; [reflexivity | discriminate]. }
  assert (Hfail : forall e,
             Insert db a = (db, Some e) ->
             fst (Insert db a) = db /\ snd (Insert db a) <> None).
  { intros e ->. simpl; split; [reflexivity | discriminate]. }
  assert (Hstep : Insert db a
            = addTransactionInternal db (TxHash (a_btcTx a))
                (Some (insertedMessage a 0 s su))
                (Some (mkInputData
                         (map (fun i => outpointKey (wire.PreviousOutPoint i))
                              (wire.TxIn_ (a_btcTx a)))
                         (chainhash.CloneBytes (TxHash (a_btcTx a)))))).
  { unfold Insert, AddTransactionSentToBabylon.
    rewrite Hs, Hu, (newInitialUnbondingTxData_Some _ _ _ Hsu),
      getInputData_eq. reflexivity. }
  destruct (transactionIndex db) as [ib|] eqn:Hib.
  2:{ left. eapply Hfail. rewrite Hstep.
      unfold addTransactionInternal, Batch. rewrite Hib. reflexivity. }
  destruct (kvdb.Get (TxHash (a_btcTx a)) ib) as [k|] eqn:Hget.
  1:{ left. eapply Hfail. rewrite Hstep.
      unfold addTransactionInternal, Batch. rewrite Hib, Hget. reflexivity. }
  destruct (transactionBucket db) as [tb|] eqn:Htb.
  2:{ left. eapply Hfail. rewrite Hstep.
      unfold addTransactionInternal, Batch. rewrite Hib, Hget, Htb.
      reflexivity. }
  destruct (nextTxKey ib) as [n|e] eqn:Hn.
  2:{ left. eapply Hfail. rewrite Hstep.
      unfold addTransactionInternal, Batch. rewrite Hib, Hget, Htb.
      unfold saveTrackedTransaction. rewrite Hn. reflexivity. }
  destruct (Marshal (insertedMessage a n s su)) as [m|e] eqn:Hm.
  2:{ left. eapply Hfail. rewrite Hstep.
      unfold addTransactionInternal, Batch. rewrite Hib, Hget, Htb.
      unfold saveTrackedTransaction. rewrite Hn. simpl bind.
      unfold insertedMessage in Hm. unfold insertedMessage.
      unfold proto.set_TrackedTransactionIdx. simpl. rewrite Hm.
      reflexivity. }
  destruct (inputsDataBucket db) as [inb|] eqn:Hinb.
  2:{ left. eapply Hfail. rewrite Hstep.
      unfold addTransactionInternal, Batch. rewrite Hib, Hget, Htb.
      unfold saveTrackedTransaction. rewrite Hn. simpl bind.
      unfold insertedMessage in Hm. unfold insertedMessage.
      unfold proto.set_TrackedTransactionIdx. simpl. rewrite Hm.
      simpl. rewrite Hinb. reflexivity. }
  right. exists tb, ib, inb, u, n, s, su, m.
  repeat (split; [assumption || reflexivity|]).
  eapply Insert_success; eassumption.
Qed.

Lemma wrap64_range (v : Z) : 0 <= wrap64 v < 2 ^ 64.
Proof. unfold wrap64. apply Z.mod_pos_bound. reflexivity. Qed.

Lemma nextTxKey_Put (v : Z) (ib : kvdb.Bucket) :
  nextTxKey (kvdb.Put numTxKey (uint64KeyToBytes (wrap64 v)) ib)
  = Ok (wrap64 v).
Proof.
  unfold nextTxKey, uint64KeyToBytes. rewrite Get_Put_same.
  apply Uint64_PutUint64, wrap64_range.
Qed.

(** C9 (as the code has it).  The unbonding pair is not optional: without
    an unbonding transaction the insertion fails, before it reaches the
    database, and leaves the database as it was.  With an unbonding
    transaction, on a store whose hash index does not hold the staking
    transaction's hash, the insertion succeeds, stores the record under
    the index the counter gave, advances the counter by one, and the
    stored record carries that index and unbonding data made of the
    serialized unbonding transaction, the unbonding time, no covenant
    signatures and no confirmation. *)
Theorem insert_needs_unbonding_tx (db : DB) (a : InsertArgs) :
  (a_unbondingTx a = None ->
     fst (Insert db a) = db
     /\ snd (Insert db a) <> None
     /\ (forall s, SerializeBtcTransaction (a_btcTx a) = Ok s ->
           snd (Insert db a)
           = Some (Wrapf "failed to create unbonding transaction data"
                    (Errorf
                       "cannot create unbonding tx data without unbonding tx"))))
  /\ (forall tb ib inb u n s su m,
         transactionBucket db = Some tb ->
         transactionIndex db = Some ib ->
         inputsDataBucket db = Some inb ->
         a_unbondingTx a = Some u ->
         SerializeBtcTransaction (a_btcTx a) = Ok s ->
         SerializeBtcTransaction u = Ok su ->
         kvdb.Get (TxHash (a_btcTx a)) ib = None ->
         nextTxKey ib = Ok n ->
         Marshal (insertedMessage a n s su) = Ok m ->
         snd (Insert db a) = None
         /\ primaryGet (fst (Insert db a)) (uint64KeyToBytes n) = Some m
         /\ proto.TrackedTransactionIdx (insertedMessage a n s su) = n
         /\ proto.UnbondingTxData_ (insertedMessage a n s su)
            = Some (proto.mkUnbondingTxData su (uint32 (a_unbondingTime a))
                      [] None)
         /\ (exists ib', transactionIndex (fst (Insert db a)) = Some ib'
                         /\ nextTxKey ib' = Ok (wrap64 (n + 1)))).
Proof.
  split.
  - intros Hu. unfold Insert, AddTransactionSentToBabylon. rewrite Hu.
    destruct (SerializeBtcTransaction (a_btcTx a)) as [s|e]; simpl.
    + split; [reflexivity|]. split; [discriminate | intros; reflexivity].
    + split; [reflexivity|]. split; [discriminate | intros; discriminate].
  - intros tb ib inb u n s su m Htb Hib Hinb Hu Hs Hsu Hget Hn Hm.
    rewrite (Insert_success db a tb ib inb u n s su m) by assumption.
    unfold insertedDB, primaryGet. simpl.
    repeat split.
    + apply Get_Put_same.
    + eexists; split; [reflexivity | apply nextTxKey_Put].
Qed.

(** ** Setting the unbonding signatures *)

Lemma setTxState_step (db : DB) (h : chainhash.Hash)
    (f : proto.TrackedTransaction -> result proto.TrackedTransaction)
    (ib tb : kvdb.Bucket) (k v : bytes) (p : proto.TrackedTransaction) :
  transactionIndex db = Some ib -> transactionBucket db = Some tb ->
  kvdb.Get h ib = Some k -> kvdb.Get k tb = Some v -> Unmarshal v = Ok p ->
  setTxState db h f
  = match f p with
    | Err e => (db, Some e)
    | Ok p' =>
        match Marshal p' with
        | Err e => (db, Some e)
        | Ok m => (mkDB (Some (kvdb.Put k m tb)) (Some ib)
                        (inputsDataBucket db), None)
        end
    end.
Proof.
  intros Hib Htb Hk Hv Hp.
  unfold setTxState, Batch, getTxByHash, chainhash.CloneBytes.
  rewrite Hib, Htb, Hk, Hv. simpl. rewrite Hp.
  destruct (f p) as [p'|e]; simpl; [|reflexivity].
  destruct (Marshal p') as [m|e]; reflexivity.
Qed.

(** C4 (as the code has it).  On a stored record without unbonding data,
    setting the unbonding signatures fails with [ErrUnbondingDataNotFound]
    and changes nothing.  On a stored record with unbonding data and no
    covenant signatures, setting a non-empty list of signatures succeeds,
    and setting any list after that, equal or different, fails with
    [ErrInvalidUnbondingDataUpdate] and changes nothing. *)
Theorem unbonding_signatures_set_once (db : DB) (ib tb : kvdb.Bucket)
    (h : chainhash.Hash) (k v : bytes) (p : proto.TrackedTransaction) :
  transactionIndex db = Some ib -> transactionBucket db = Some tb ->
  kvdb.Get h ib = Some k -> kvdb.Get k tb = Some v -> Unmarshal v = Ok p ->
  (proto.UnbondingTxData_ p = None ->
     forall s,
       SetTxUnbondingSignaturesReceived db h s
       = (db, Some (Wrapf
            "cannot set unbonding signatures received, because unbonding tx data does not exist"
            ErrUnbondingDataNotFound)))
  /\ (forall u s1 s2,
         proto.UnbondingTxData_ p = Some u ->
         proto.CovenantSignatures u = [] ->
         s1 <> [] ->
         message_roundtrips
           (proto.set_UnbondingTxData p
              (Some (proto.set_CovenantSignatures u
                       (covenantSigsToProto s1)))) ->
         let r1 := SetTxUnbondingSignaturesReceived db h s1 in
         let r2 := SetTxUnbondingSignaturesReceived (fst r1) h s2 in
         snd r1 = None
         /\ r2 = (fst r1, Some (Wrapf
              "cannot set unbonding signatures received, because unbonding signatures already exist"
              ErrInvalidUnbondingDataUpdate))).
Proof.
  intros Hib Htb Hk Hv Hp. split.
  - intros Hnone s. unfold SetTxUnbondingSignaturesReceived.
    rewrite (setTxState_step db h _ ib tb k v p) by assumption.
    unfold setUnbondingSignaturesReceived. rewrite Hnone. reflexivity.
  - intros u s1 s2 Hu Hempty Hs1 (m & Hm & Hum) r1 r2.
    assert (Hr1 : r1 = (mkDB (Some (kvdb.Put k m tb)) (Some ib)
                             (inputsDataBucket db), None)).
    { unfold r1, SetTxUnbondingSignaturesReceived.
      rewrite (setTxState_step db h _ ib tb k v p) by assumption.
      unfold setUnbondingSignaturesReceived. rewrite Hu, Hempty. simpl.
      rewrite Hm. reflexivity. }
    split; [rewrite Hr1; reflexivity|].
    unfold r2. rewrite Hr1. simpl fst.
    unfold SetTxUnbondingSignaturesReceived.
    rewrite (setTxState_step
               (mkDB (Some (kvdb.Put k m tb)) (Some ib) (inputsDataBucket db))
               h _ ib (kvdb.Put k m tb) k m _
               eq_refl eq_refl Hk (Get_Put_same k m tb) Hum).
    unfold setUnbondingSignaturesReceived. simpl.
    destruct s1 as [|c s1]; [congruence|]. reflexivity.
Qed.

(** ** The outpoint index *)

Lemma bytes_eq_dec (a b : bytes) : {a = b} + {a <> b}.
Proof. apply list_eq_dec, Z.eq_dec. Qed.

Lemma Get_fold_Put (k h : bytes) (ks : list bytes) (b : kvdb.Bucket) :
  kvdb.Get k (fold_left (fun b i => kvdb.Put i h b) ks b) <> None
  <-> In k ks \/ kvdb.Get k b <> None.
Proof.
  revert b; induction ks as [|i ks IH]; intros b; simpl.
  - tauto.
  - rewrite IH. destruct (bytes_eq_dec k i) as [->|Hne].
    + rewrite Get_Put_same. split; [intros _; left; left; reflexivity|].
      intros _. right. discriminate.
    + rewrite (Get_Put_other i k h b Hne). split.
      * intros [H|H]; [left; right; exact H | right; exact H].
      * intros [[H|H]|H];
          [congruence | left; exact H | right; exact H].
Qed.

Lemma OutpointUsed_true (db : DB) (op : wire.OutPoint) :
  OutpointUsed db op = (true, None)
  <-> exists inb, inputsDataBucket db = Some inb
                  /\ kvdb.Get (outpointKey op) inb <> None.
Proof.
  unfold OutpointUsed, outpointBytes. fold (outpointKey op).
  destruct (inputsDataBucket db) as [inb|].
  - destruct (kvdb.Get (outpointKey op) inb) as [v|] eqn:Hg.
    + split; [intros _; exists inb; split; [reflexivity|]|reflexivity].
      rewrite Hg; discriminate.
    + split; [discriminate|]. intros (inb' & [= <-] & H). congruence.
  - split; [discriminate|]. intros (inb' & H & _). discriminate.
Qed.

Lemma OutpointUsed_fst (db : DB) (op : wire.OutPoint) :
  fst (OutpointUsed db op) = true <-> OutpointUsed db op = (true, None).
Proof.
  split; [|intros ->; reflexivity].
  unfold OutpointUsed, outpointBytes.
  destruct (inputsDataBucket db) as [inb|]; simpl; [|discriminate].
  destruct (kvdb.Get _ inb); simpl; [reflexivity | discriminate].
Qed.

Lemma step_transition_inputs (db : DB) (o : Op) :
  (forall a, o <> OpInsert a) ->
  inputsDataBucket (fst (step db o)) = inputsDataBucket db.
Proof.
  intros Hno. destruct o as [a|h bh ht|h bh ht|h sigs|h bh ht]; simpl;
    [exfalso; eapply Hno; reflexivity| | | |];
    match goal with
    | |- context [fst (?op)] =>
        unfold SetTxConfirmed, SetDelegationActiveOnBabylonAndConfirmedOnBtc,
          SetTxUnbondingSignaturesReceived, SetTxUnbondingConfirmedOnBtc
    end;
    match goal with
    | |- context [setTxState db h ?f] =>
        destruct (setTxState_frame db h f) as [(_ & Hin & _) _]; exact Hin
    end.
Qed.

(** What a step does to the outpoint index: an insertion that succeeds
    adds the outpoints of its transaction, every other step adds and
    removes nothing. *)
Lemma step_inputs (db : DB) (o : Op) (inb : kvdb.Bucket) :
  inputsDataBucket db = Some inb ->
  exists inb',
    inputsDataBucket (fst (step db o)) = Some inb'
    /\ forall k,
         kvdb.Get k inb' <> None
         <-> kvdb.Get k inb <> None
             \/ exists a, o = OpInsert a /\ snd (Insert db a) = None
                          /\ In k (map outpointKey (outpointsOf (a_btcTx a))).
Proof.
  intros Hinb.
  assert (Hsame : inputsDataBucket (fst (step db o)) = Some inb ->
            snd (step db o) <> None \/ (forall a, o <> OpInsert a) ->
            exists inb',
              inputsDataBucket (fst (step db o)) = Some inb'
              /\ forall k,
                   kvdb.Get k inb' <> None
                   <-> kvdb.Get k inb <> None
                       \/ exists a, o = OpInsert a
                                    /\ snd (Insert db a) = None
                                    /\ In k (map outpointKey
                                               (outpointsOf (a_btcTx a)))).
  { intros Heq Hcase. exists inb. split; [exact Heq|].
    intros k. split; [tauto|].
    intros [H|(a & -> & Hok & _)]; [exact H|].
    destruct Hcase as [Hf|Hno]; [simpl in Hf; congruence|].
    exfalso; eapply Hno; reflexivity. }
  destruct o as [a|h bh ht|h bh ht|h sigs|h bh ht].
  2-5: apply Hsame; [rewrite step_transition_inputs by discriminate; exact Hinb
                    | right; discriminate].
  destruct (Insert_inv db a) as [[Hdb Herr]|Hok].
  - apply Hsame; [simpl; rewrite Hdb; exact Hinb | left; exact Herr].
  - destruct Hok as (tb & ib & inb0 & u & n & s & su & m & Htb & Hib & Hinb0
                     & Hu & Hs & Hsu & Hget & Hn & Hm & Hins).
    rewrite Hinb in Hinb0. injection Hinb0 as <-.
    simpl step. rewrite Hins. simpl.
    eexists; split; [reflexivity|]. intros k.
    rewrite Get_fold_Put. split.
    + intros [H|H]; [right | left; exact H].
      exists a. split; [reflexivity|].
      split; [rewrite Hins; reflexivity | exact H].
    + intros [H|(a' & [= <-] & _ & Hin)]; [right; exact H | left; exact Hin].
Qed.

Lemma run_snoc (db : DB) (ops : list Op) (o : Op) :
  run db (ops ++ [o]) = fst (step (run db ops) o).
Proof. unfold run. rewrite fold_left_app. reflexivity. Qed.

Lemma consumed_snoc (ops : list Op) (o : Op) (op : wire.OutPoint) :
  consumed_by_insert (ops ++ [o]) op
  <-> consumed_by_insert ops op
      \/ exists a, o = OpInsert a
                   /\ snd (Insert (run newStore ops) a) = None
                   /\ In op (outpointsOf (a_btcTx a)).
Proof.
  unfold consumed_by_insert. split.
  - intros (before & a & after & Heq & Hok & Hin).
    destruct (exists_last (l := OpInsert a :: after)) as (pre & x & Hlast);
      [discriminate|].
    destruct after as [|y after].
    + apply (app_inj_tail ops before o (OpInsert a)) in Heq as [-> ->].
      right. exists a. repeat split; assumption.
    + left. destruct (exists_last (l := y :: after)) as (mid & z & Hmid);
        [discriminate|].
      rewrite Hmid in Heq.
      change (before ++ OpInsert a :: mid ++ [z])
        with (before ++ (OpInsert a :: mid) ++ [z]) in Heq.
      rewrite app_assoc in Heq.
      apply app_inj_tail in Heq as [-> _].
      exists before, a, mid. repeat split; assumption.
  - intros [(before & a & after & -> & Hok & Hin)|(a & -> & Hok & Hin)].
    + exists before, a, (after ++ [o]). rewrite <- app_assoc.
      repeat split; assumption.
    + exists ops, a, []. repeat split; assumption.
Qed.

Lemma In_outpointKey (op : wire.OutPoint) (l : list wire.OutPoint) :
  wire.valid_outpoint op = true -> forallb wire.valid_outpoint l = true ->
  In (outpointKey op) (map outpointKey l) <-> In op l.
Proof.
  intros Hop Hl. split; [|apply in_map].
  intros H. apply in_map_iff in H as (x & Hx & Hin).
  rewrite forallb_forall in Hl.
  assert (x = op) as <-; [|exact Hin].
  apply outpointBytes_inj; [apply Hl; exact Hin | exact Hop|].
  unfold outpointBytes. fold (outpointKey x) (outpointKey op). congruence.
Qed.

Lemma outpoint_used_history (ops : list Op) (op : wire.OutPoint) :
  forallb op_outpoints_valid ops = true ->
  wire.valid_outpoint op = true ->
  exists inb, inputsDataBucket (run newStore ops) = Some inb
              /\ (kvdb.Get (outpointKey op) inb <> None
                  <-> consumed_by_insert ops op).
Proof.
  intros Hops Hop. induction ops as [|o ops IH] using rev_ind.
  - exists []. split; [reflexivity|]. simpl. split; [congruence|].
    intros (before & a & after & Heq & _).
    destruct before; discriminate.
  - rewrite forallb_app in Hops. apply andb_prop in Hops as [Hops Ho].
    simpl in Ho. rewrite andb_true_r in Ho.
    destruct (IH Hops) as (inb & Hinb & Hiff).
    destruct (step_inputs (run newStore ops) o inb Hinb)
      as (inb' & Hinb' & Hget).
    exists inb'. rewrite run_snoc. split; [exact Hinb'|].
    rewrite Hget, consumed_snoc, Hiff.
    split; (intros [H|(a & -> & Hok & Hin)]; [left; exact H | right]);
      exists a; (split; [reflexivity|]); (split; [exact Hok|]);
      simpl in Ho; apply (In_outpointKey op _ Hop Ho); exact Hin.
Qed.

(** C7. In the store reached from a new store by any history of
    operations, [OutpointUsed] answers true for an outpoint exactly when
    some insertion of the history succeeded with a staking transaction
    that has an input spending that outpoint.  It answers true right after
    such an insertion, and once it answers true it does so after every
    further operation, on any database. *)
Theorem outpoint_used_iff_consumed (ops : list Op) (op : wire.OutPoint) :
  forallb op_outpoints_valid ops = true ->
  wire.valid_outpoint op = true ->
  (OutpointUsed (run newStore ops) op = (true, None)
   <-> consumed_by_insert ops op)
  /\ (forall a,
         op_outpoints_valid (OpInsert a) = true ->
         In op (outpointsOf (a_btcTx a)) ->
         snd (Insert (run newStore ops) a) = None ->
         OutpointUsed (fst (Insert (run newStore ops) a)) op = (true, None))
  /\ (forall db o,
         OutpointUsed db op = (true, None) ->
         OutpointUsed (fst (step db o)) op = (true, None)).
Proof.
  intros Hops Hop. repeat split.
  - intros H. apply OutpointUsed_true in H as (inb & Hinb & Hg).
    destruct (outpoint_used_history ops op Hops Hop) as (inb' & Hinb' & Hiff).
    rewrite Hinb in Hinb'. injection Hinb' as <-. apply Hiff, Hg.
  - intros H.
    destruct (outpoint_used_history ops op Hops Hop) as (inb & Hinb & Hiff).
    apply OutpointUsed_true. exists inb. split; [exact Hinb | apply Hiff, H].
  - intros a Ha Hin Hok.
    assert (Hall : forallb op_outpoints_valid (ops ++ [OpInsert a]) = true).
    { rewrite forallb_app, Hops. cbn [forallb]. rewrite Ha. reflexivity. }
    destruct (outpoint_used_history _ op Hall Hop) as (inb & Hinb & Hiff).
    rewrite run_snoc in Hinb. simpl step in Hinb.
    apply OutpointUsed_true. exists inb. split; [exact Hinb|].
    apply Hiff, consumed_snoc. right. exists a. repeat split; assumption.
  - intros db o H. apply OutpointUsed_true in H as (inb & Hinb & Hg).
    destruct (step_inputs db o inb Hinb) as (inb' & Hinb' & Hget).
    apply OutpointUsed_true. exists inb'. split; [exact Hinb'|].
    apply Hget. left. exact Hg.
Qed.

(** ** Sequences of insertions *)

Lemma insertAll_snoc (db0 : DB) (l : list InsertArgs) (a : InsertArgs) :
  insertAll db0 (l ++ [a])
  = match insertAll db0 l with
    | Some db =>
        match Insert db a with
        | (db', None) => Some db'
        | (_, Some _) => None
        end
    | None => None
    end.
Proof.
  revert db0; induction l as [|b l IH]; intros db0; simpl.
  - destruct (Insert db0 a) as [db' [e|]]; reflexivity.
  - destruct (Insert db0 b) as [db' [e|]]; [reflexivity | apply IH].
Qed.

Lemma numbered_app {A : Type} (i : Z) (l r : list A) :
  numbered i (l ++ r)
  = numbered i l ++ numbered (i + Z.of_nat (List.length l)) r.
Proof.
  revert i; induction l as [|a l IH]; intros i; simpl List.length;
    cbn [numbered app].
  - rewrite Z.add_0_r. reflexivity.
  - rewrite IH. do 3 f_equal. lia.
Qed.

Lemma numbered_range {A : Type} (i j : Z) (a : A) (l : list A) :
  In (a, j) (numbered i l) -> i <= j < i + Z.of_nat (List.length l).
Proof.
  revert i; induction l as [|b l IH]; intros i; simpl List.length;
    cbn [numbered In]; [tauto|].
  intros [[= _ <-]|H]; [lia|]. apply IH in H. lia.
Qed.

Lemma numbered_indices {A : Type} (l : list A) (i : nat) :
  map snd (numbered (Z.of_nat i) l)
  = map Z.of_nat (seq i (List.length l)).
Proof.
  revert i; induction l as [|a l IH]; intros i; simpl; [reflexivity|].
  f_equal. rewrite <- IH. do 2 f_equal. lia.
Qed.

Lemma numbered_length {A : Type} (i : Z) (l : list A) :
  List.length (numbered i l) = List.length l.
Proof. revert i; induction l; intros i; simpl; auto. Qed.

Lemma Put_append (k v : bytes) (b : kvdb.Bucket) :
  Forall (fun kv => bytes_compare k (fst kv) = Gt) b ->
  kvdb.Put k v b = b ++ [(k, v)].
Proof.
  induction 1 as [|[k' v'] r Hk Hr IH]; simpl; [reflexivity|].
  simpl in Hk. rewrite Hk, IH. reflexivity.
Qed.

Lemma sorted_app_last (k v : bytes) (b : kvdb.Bucket) :
  kvdb.sorted b = true ->
  Forall (fun kv => bytes_compare (fst kv) k = Lt) b ->
  kvdb.sorted (b ++ [(k, v)]) = true.
Proof.
  induction b as [|[k1 v1] r IH]; intros Hs Hall; [reflexivity|].
  inversion Hall as [|? ? Hk1 Hr]; subst. simpl in Hk1.
  destruct r as [|[k2 v2] r'].
  - simpl. rewrite Hk1. reflexivity.
  - change (kvdb.sorted ((k1, v1) :: ((k2, v2) :: r') ++ [(k, v)]) = true).
    simpl in Hs. destruct (bytes_compare k1 k2) eqn:Hc; try discriminate.
    change (match bytes_compare k1 k2 with
            | Lt => kvdb.sorted (((k2, v2) :: r') ++ [(k, v)])
            | _ => false
            end = true).
    rewrite Hc. apply IH; assumption.
Qed.

Lemma Forall2_In_right {A B : Type} (R : A -> B -> Prop)
    (l1 : list A) (l2 : list B) (y : B) :
  Forall2 R l1 l2 -> In y l2 -> exists x, In x l1 /\ R x y.
Proof.
  induction 1 as [|x y' l1 l2 HR HF IH]; simpl; [tauto|].
  intros [<-|Hin].
  - exists x. split; [left; reflexivity | exact HR].
  - destruct (IH Hin) as (x' & Hx' & HR'). exists x'. split; [right|]; auto.
Qed.

Lemma nextTxKey_newStore :
  transactionBucket newStore = Some []
  /\ transactionIndex newStore = Some []
  /\ inputsDataBucket newStore = Some [].
Proof. repeat split. Qed.

(** The database after [n] insertions into a new store: the primary
    bucket holds, in key order, one pair per insertion, keyed by
    1, 2, ..., n; the counter reads n + 1. *)
Lemma insertAll_shape (l : list InsertArgs) (db : DB) :
  insertAll newStore l = Some db ->
  Z.of_nat (List.length l) < MaxUint64 ->
  exists tb ib inb,
    transactionBucket db = Some tb
    /\ transactionIndex db = Some ib
    /\ inputsDataBucket db = Some inb
    /\ Forall2 stored_as (numbered 1 l) tb
    /\ kvdb.sorted tb = true
    /\ nextTxKey ib = Ok (Z.of_nat (List.length l) + 1).
Proof.
  revert db; induction l as [|a l IH] using rev_ind; intros db Hrun Hlen.
  - injection Hrun as <-. exists [], [], []. repeat split. constructor.
  - rewrite insertAll_snoc in Hrun.
    destruct (insertAll newStore l) as [db0|] eqn:Hrun0; [|discriminate].
    rewrite length_app in Hlen. simpl List.length in Hlen.
    unfold MaxUint64 in *. change (2 ^ 64) with 18446744073709551616 in *.
    destruct (IH db0 eq_refl ltac:(lia))
      as (tb & ib & inb & Htb & Hib & Hinb & HF & Hsorted & Hnext).
    destruct (Insert_inv db0 a) as [[_ Herr]|Hok].
    { destruct (Insert db0 a) as [db' [e|]]; [discriminate|].
      simpl in Herr. congruence. }
    destruct Hok as (tb' & ib' & inb' & u & n & s & su & m & Htb' & Hib'
                     & Hinb' & Hu & Hs & Hsu & Hget & Hn & Hm & Hins).
    rewrite Htb in Htb'; injection Htb' as <-.
    rewrite Hib in Hib'; injection Hib' as <-.
    rewrite Hinb in Hinb'; injection Hinb' as <-.
    rewrite Hnext in Hn; injection Hn as <-.
    rewrite Hins in Hrun. injection Hrun as <-.
    set (n := Z.of_nat (List.length l)) in *.
    assert (Hkeys : Forall (fun kv => exists i, 1 <= i <= n
                                /\ fst kv = uint64KeyToBytes i) tb).
    { apply Forall_forall. intros kv Hin.
      destruct (Forall2_In_right _ _ _ _ HF Hin) as ([a' i] & Hin' & Hst).
      apply numbered_range in Hin'. exists i. split; [subst n; lia|].
      apply Hst. }
    assert (Happ : kvdb.Put (uint64KeyToBytes (n + 1)) m tb
                   = tb ++ [(uint64KeyToBytes (n + 1), m)]).
    { apply Put_append. eapply Forall_impl; [|exact Hkeys].
      intros kv (i & Hi & ->). unfold uint64KeyToBytes.
      rewrite PutUint64_compare
        by (change (2 ^ 64) with 18446744073709551616; lia).
      apply Z.compare_gt_iff. lia. }
    exists (tb ++ [(uint64KeyToBytes (n + 1), m)]).
    eexists. eexists. unfold insertedDB. rewrite Happ.
    split; [reflexivity|]. split; [reflexivity|]. split; [reflexivity|].
    split; [|split].
    + rewrite numbered_app. apply Forall2_app; [exact HF|].
      cbn [numbered]. constructor; [|constructor].
      fold n. replace (1 + n) with (n + 1) by lia.
      split; [reflexivity|].
      exists u, s, su. simpl. repeat split; assumption.
    + apply sorted_app_last; [exact Hsorted|].
      eapply Forall_impl; [|exact Hkeys].
      intros kv (i & Hi & ->). unfold uint64KeyToBytes.
      rewrite PutUint64_compare
        by (change (2 ^ 64) with 18446744073709551616; lia).
      apply Z.compare_lt_iff. lia.
    + rewrite length_app. simpl List.length.
      replace (Z.of_nat (List.length l + 1) + 1) with (wrap64 (n + 1 + 1)).
      * apply nextTxKey_Put.
      * unfold wrap64. rewrite Z.mod_small;
          change (2 ^ 64) with 18446744073709551616; subst n; lia.
Qed.

Lemma insertedRecord_proto (a : InsertArgs) (i : Z) (u : wire.MsgTx)
    (s su : bytes) (x : StoredTransaction) :
  a_unbondingTx a = Some u ->
  SerializeBtcTransaction (a_btcTx a) = Ok s ->
  SerializeBtcTransaction u = Ok su ->
  insertedRecord a i = Some x ->
  storedTransactionToProto x = Ok (insertedMessage a i s su)
  /\ StoredTransactionIdx x = i.
Proof.
  intros Hu Hs Hsu Hx. unfold insertedRecord in Hx. rewrite Hu in Hx.
  injection Hx as <-. split; [|reflexivity].
  unfold storedTransactionToProto, unbondingStoreDataToProto. simpl.
  rewrite Hs. simpl. rewrite Hsu. reflexivity.
Qed.

Lemma stored_decodes (ai : InsertArgs * Z) (kv : bytes * bytes)
    (x : StoredTransaction) :
  stored_as ai kv -> insertedRecord (fst ai) (snd ai) = Some x ->
  valid_record x -> decodeRecord (snd kv) = Ok x.
Proof.
  intros (_ & u & s & su & Hu & Hs & Hsu & Hm) Hx Hvalid.
  destruct (insertedRecord_proto _ _ _ _ _ _ Hu Hs Hsu Hx) as [Hp _].
  destruct (record_roundtrip x Hvalid) as [(p & Hp' & Hdec) _].
  rewrite Hp in Hp'. injection Hp' as <-.
  destruct Hvalid as (_ & _ & _ & _ & Hround).
  destruct (Hround _ Hp) as (b & Hb & Hub).
  rewrite Hm in Hb. injection Hb as <-.
  unfold decodeRecord. rewrite Hub. exact Hdec.
Qed.

Lemma stored_records (L : list (InsertArgs * Z)) (tb : kvdb.Bucket) :
  Forall2 stored_as L tb ->
  Forall (fun ai => forall x, insertedRecord (fst ai) (snd ai) = Some x ->
                              valid_record x) L ->
  exists recs,
    Forall2 (fun ai x => insertedRecord (fst ai) (snd ai) = Some x) L recs
    /\ Forall2 (fun kv x => decodeRecord (snd kv) = Ok x) tb recs.
Proof.
  induction 1 as [|ai kv L tb Hst HF IH]; intros Hvalid.
  - exists []. split; constructor.
  - inversion Hvalid as [|? ? Hv Hvs]; subst.
    destruct (IH Hvs) as (recs & Hrecs & Hdec).
    destruct Hst as (Hk & u & s & su & Hu & Hs & Hsu & Hm).
    assert (Hx : exists x, insertedRecord (fst ai) (snd ai) = Some x).
    { unfold insertedRecord. rewrite Hu. eexists; reflexivity. }
    destruct Hx as (x & Hx). exists (x :: recs). split.
    + constructor; assumption.
    + constructor; [|assumption].
      apply (stored_decodes ai kv x); [|exact Hx | apply Hv, Hx].
      split; [exact Hk|]. exists u, s, su. repeat split; assumption.
Qed.

Lemma decodeRecord_Ok (v : bytes) (x : StoredTransaction) :
  decodeRecord v = Ok x ->
  exists p, Unmarshal v = Ok p /\ protoTxToStoredTransaction p = Ok x.
Proof.
  unfold decodeRecord. destruct (Unmarshal v) as [p|e]; simpl;
    [|discriminate].
  intros H. exists p. split; [reflexivity | exact H].
Qed.

Lemma scan_decoded {S : Type} (db : DB) (tb : kvdb.Bucket)
    (recs : list StoredTransaction)
    (f : S -> StoredTransaction -> S * option error) (s : S) :
  transactionBucket db = Some tb ->
  Forall2 (fun kv x => decodeRecord (snd kv) = Ok x) tb recs ->
  ScanTrackedTransactions db f s = visitAll f recs s.
Proof.
  intros Htb HF. unfold ScanTrackedTransactions. rewrite Htb. clear Htb.
  revert s. induction HF as [|[k v] x tb recs Hd HF IH]; intros s; simpl.
  - reflexivity.
  - apply decodeRecord_Ok in Hd as (p & Hu & Hp). simpl in Hu.
    rewrite Hu, Hp. destruct (f s x) as [s' [e|]]; [reflexivity | apply IH].
Qed.

Lemma Forall2_keys (L : list (InsertArgs * Z)) (tb : kvdb.Bucket) :
  Forall2 stored_as L tb ->
  kvdb.keys tb = map uint64KeyToBytes (map snd L).
Proof.
  induction 1 as [|ai kv L tb (Hk & _) HF IH]; simpl; [reflexivity|].
  rewrite Hk, <- IH. reflexivity.
Qed.

Lemma Forall2_indices (L : list (InsertArgs * Z))
    (recs : list StoredTransaction) :
  Forall2 (fun ai x => insertedRecord (fst ai) (snd ai) = Some x) L recs ->
  map StoredTransactionIdx recs = map snd L.
Proof.
  induction 1 as [|ai x L recs Hx HF IH]; simpl; [reflexivity|].
  rewrite IH. f_equal. unfold insertedRecord in Hx.
  destruct (a_unbondingTx (fst ai)); [|discriminate].
  injection Hx as <-. reflexivity.
Qed.

Lemma keys_NoDup (n : nat) :
  Z.of_nat n < MaxUint64 ->
  NoDup (map uint64KeyToBytes (map Z.of_nat (seq 1 n))).
Proof.
  intros Hn. rewrite map_map.
  apply NoDup_map_NoDup_ForallPairs; [|apply seq_NoDup].
  intros x y Hx Hy Heq. apply in_seq in Hx, Hy.
  unfold MaxUint64 in Hn. change (2 ^ 64) with 18446744073709551616 in Hn.
  apply Nat2Z.inj.
  apply PutUint64_inj;
    [change (2 ^ 64) with 18446744073709551616; lia ..| exact Heq].
Qed.

(** C2. After N successful insertions into a new store (N + 1 within 64
    bits), the primary bucket holds exactly N records, keyed by the
    big-endian indices 1, 2, ..., N, all different, each record carrying
    the index of its key; the stored counter reads N + 1; and, the
    inserted records being valid ones, a full scan hands exactly these N
    records, indices 1 to N in ascending order, to its visitor. *)
Theorem sequential_inserts_contiguous (l : list InsertArgs) (db : DB) :
  insertAll newStore l = Some db ->
  Z.of_nat (List.length l) < MaxUint64 ->
  let N := List.length l in
  exists tb ib,
    transactionBucket db = Some tb
    /\ transactionIndex db = Some ib
    /\ kvdb.keys tb = map uint64KeyToBytes (map Z.of_nat (seq 1 N))
    /\ NoDup (kvdb.keys tb)
    /\ Forall2 stored_as (numbered 1 l) tb
    /\ nextTxKey ib = Ok (Z.of_nat N + 1)
    /\ (records_valid l ->
        exists recs,
          List.length recs = N
          /\ map StoredTransactionIdx recs = map Z.of_nat (seq 1 N)
          /\ Forall2 (fun ai x => insertedRecord (fst ai) (snd ai) = Some x)
               (numbered 1 l) recs
          /\ forall (S : Type) f (s : S),
               ScanTrackedTransactions db f s = visitAll f recs s).
Proof.
  intros Hrun Hlen N.
  destruct (insertAll_shape l db Hrun Hlen)
    as (tb & ib & inb & Htb & Hib & _ & HF & _ & Hnext).
  assert (Hkeys : kvdb.keys tb
                  = map uint64KeyToBytes (map Z.of_nat (seq 1 N))).
  { rewrite (Forall2_keys _ _ HF).
    change 1 with (Z.of_nat 1). rewrite numbered_indices. reflexivity. }
  exists tb, ib. repeat (split; [assumption|]).
  split; [rewrite Hkeys; apply keys_NoDup; exact Hlen|].
  repeat (split; [assumption|]).
  intros Hvalid.
  destruct (stored_records _ _ HF Hvalid) as (recs & Hrecs & Hdec).
  exists recs. split; [|split; [|split; [exact Hrecs|]]].
  - rewrite <- (Forall2_length Hrecs). apply numbered_length.
  - rewrite (Forall2_indices _ _ Hrecs).
    change 1 with (Z.of_nat 1). apply numbered_indices.
  - intros S f s. apply (scan_decoded db tb); assumption.
Qed.

(** ** The in-place reversal *)

Lemma list_set_length {A : Type} (i : nat) (x : A) (l : list A) :
  List.length (list_set i x l) = List.length l.
Proof.
  revert i; induction l as [|y l IH]; intros [|i]; simpl; auto.
Qed.

Lemma nth_error_list_set {A : Type} (i j : nat) (x : A) (l : list A) :
  (i < List.length l)%nat ->
  nth_error (list_set i x l) j
  = if Nat.eqb j i then Some x else nth_error l j.
Proof.
  revert i j; induction l as [|y l IH]; intros i j Hi; simpl in Hi; [lia|].
  destruct i as [|i], j as [|j]; simpl; try reflexivity.
  apply IH. lia.
Qed.

Lemma swap_length {A : Type} (i j : nat) (l : list A) :
  List.length (swap i j l) = List.length l.
Proof.
  unfold swap. destruct (nth_error l i), (nth_error l j);
    rewrite ?list_set_length; reflexivity.
Qed.

Lemma nth_error_swap {A : Type} (i j k : nat) (l : list A) :
  (i < List.length l)%nat -> (j < List.length l)%nat ->
  nth_error (swap i j l) k
  = if Nat.eqb k j then nth_error l i
    else if Nat.eqb k i then nth_error l j
    else nth_error l k.
Proof.
  intros Hi Hj. unfold swap.
  destruct (nth_error l i) as [a|] eqn:Ha;
    [|apply nth_error_None in Ha; lia].
  destruct (nth_error l j) as [b|] eqn:Hb;
    [|apply nth_error_None in Hb; lia].
  rewrite nth_error_list_set by (rewrite list_set_length; exact Hj).
  destruct (Nat.eqb k j); [reflexivity|].
  apply nth_error_list_set. exact Hi.
Qed.

(** After the first [k] rounds of the loop the outer [k] positions on
    either side are exchanged and the middle is untouched. *)
Lemma reverse_rounds {A : Type} (l : list A) (k : nat) :
  (2 * k <= List.length l)%nat ->
  let n := List.length l in
  let lk := fold_left (fun l i => swap i (n - i - 1)%nat l) (seq 0 k) l in
  List.length lk = n
  /\ forall j, (j < n)%nat ->
       nth_error lk j
       = if (Nat.ltb j k || Nat.leb (n - k) j)%bool
         then nth_error l (n - 1 - j) else nth_error l j.
Proof.
  intros Hk n. induction k as [|k IH].
  - simpl. split; [reflexivity|]. intros j Hj.
    replace (Nat.leb (n - 0) j) with false; [reflexivity|].
    symmetry; apply Nat.leb_gt. lia.
  - destruct IH as [Hlen Hnth]; [lia|].
    rewrite seq_S, fold_left_app. simpl fold_left. cbv zeta.
    set (lk := fold_left (fun l i => swap i (n - i - 1)%nat l) (seq 0 k) l)
      in *.
    split; [rewrite swap_length; exact Hlen|].
    intros j Hj. simpl (0 + k)%nat.
    rewrite nth_error_swap by (rewrite Hlen; subst n; lia).
    destruct (Nat.eqb_spec j (n - k - 1)) as [->|Hne1].
    + rewrite Hnth by (subst n; lia).
      replace (Nat.ltb k k) with false by (symmetry; apply Nat.ltb_irrefl).
      replace (Nat.leb (n - k) k) with false
        by (symmetry; apply Nat.leb_gt; subst n; lia).
      replace (Nat.leb (n - S k) (n - k - 1)) with true
        by (symmetry; apply Nat.leb_le; lia).
      rewrite orb_true_r. simpl. f_equal. subst n; lia.
    + destruct (Nat.eqb_spec j k) as [->|Hne2].
      * rewrite Hnth by (subst n; lia).
        replace (Nat.ltb (n - k - 1) k) with false
          by (symmetry; apply Nat.ltb_ge; subst n; lia).
        replace (Nat.leb (n - k) (n - k - 1)) with false
          by (symmetry; apply Nat.leb_gt; subst n; lia).
        replace (Nat.ltb k (S k)) with true
          by (symmetry; apply Nat.ltb_lt; lia).
        simpl. f_equal. lia.
      * rewrite Hnth by exact Hj.
        replace (Nat.ltb j (S k)) with (Nat.ltb j k).
        2:{ destruct (Nat.ltb_spec j k), (Nat.ltb_spec j (S k));
              try reflexivity; lia. }
        replace (Nat.leb (n - S k) j) with (Nat.leb (n - k) j).
        2:{ destruct (Nat.leb_spec (n - k) j), (Nat.leb_spec (n - S k) j);
              try reflexivity; lia. }
        reflexivity.
Qed.

Lemma reverseInPlace_rev {A : Type} (l : list A) : reverseInPlace l = rev l.
Proof.
  unfold reverseInPlace.
  pose proof (Nat.div_mod_eq (List.length l) 2) as Hdiv.
  pose proof (Nat.mod_upper_bound (List.length l) 2 ltac:(lia)) as Hmod.
  destruct (reverse_rounds l (Nat.div (List.length l) 2) ltac:(lia))
    as [Hlen Hnth].
  set (lk := fold_left _ _ l) in *.
  set (h := Nat.div (List.length l) 2) in *.
  apply nth_error_ext. intros j.
  rewrite nth_error_rev.
  destruct (Nat.ltb_spec j (List.length l)) as [Hj|Hj].
  - rewrite Hnth by exact Hj.
    replace (List.length l - S j)%nat with (List.length l - 1 - j)%nat by lia.
    destruct (Nat.ltb_spec j h); cbn [orb]; [reflexivity|].
    destruct (Nat.leb_spec (List.length l - h) j); [reflexivity|].
    f_equal. lia.
  - apply nth_error_None. rewrite Hlen. exact Hj.
Qed.

(** ** Pages of the query *)

Section Sortedness.

Context {A : Type} (R : A -> A -> Prop).

Lemma StronglySorted_snoc (l : list A) (a : A) :
  StronglySorted R l -> Forall (fun x => R x a) l ->
  StronglySorted R (l ++ [a]).
Proof.
  induction 1 as [|x l Hl IH Hx]; intros Hall; simpl.
  - constructor; constructor.
  - inversion Hall as [|? ? Hxa Hla]; subst.
    constructor; [apply IH; exact Hla|].
    apply Forall_app; split; [exact Hx | constructor; [exact Hxa|constructor]].
Qed.

Lemma StronglySorted_rev (l : list A) :
  StronglySorted R l -> StronglySorted (fun a b => R b a) (rev l).
Proof.
  induction 1 as [|x l Hl IH Hx]; simpl; [constructor|].
  clear Hl. revert IH. generalize (rev_involutive l).
  intros _ IH.
  assert (Hrev : Forall (fun y => R x y) (rev l)) by (apply Forall_rev, Hx).
  revert IH Hrev. generalize (rev l) as r. clear.
  induction r as [|y r IHr]; intros Hs Hall; simpl.
  - constructor; constructor.
  - inversion Hs as [|? ? Hr Hy]; subst.
    inversion Hall as [|? ? Hxy Hxr]; subst.
    constructor; [apply IHr; assumption|].
    apply Forall_app; split; [exact Hy | constructor; [exact Hxy|constructor]].
Qed.

Lemma StronglySorted_skipn (n : nat) (l : list A) :
  StronglySorted R l -> StronglySorted R (skipn n l).
Proof.
  revert l; induction n as [|n IH]; intros l Hl; [exact Hl|].
  destruct l as [|x l]; [constructor|]. simpl. apply IH.
  inversion Hl; assumption.
Qed.

End Sortedness.

Lemma In_skipn_in {A : Type} (n : nat) (x : A) (l : list A) :
  In x (skipn n l) -> In x l.
Proof.
  intros H. rewrite <- (firstn_skipn n l). apply in_or_app. right. exact H.
Qed.

Lemma sorted_StronglySorted (b : kvdb.Bucket) :
  kvdb.sorted b = true ->
  StronglySorted (fun x y => bytes_compare (fst x) (fst y) = Lt) b.
Proof.
  induction b as [|[k v] r IH]; intros Hs; [constructor|].
  destruct r as [|[k' v'] r'].
  - constructor; constructor.
  - simpl in Hs. destruct (bytes_compare k k') eqn:Hc; try discriminate.
    specialize (IH Hs). constructor; [exact IH|].
    constructor; [exact Hc|].
    inversion IH as [|? ? _ Hall]; subst.
    eapply Forall_impl; [|exact Hall].
    intros [k2 v2] H2. simpl in *. eapply bytes_compare_lt_trans; eassumption.
Qed.

Lemma protoTx_idx (p : proto.TrackedTransaction) (t : StoredTransaction) :
  protoTxToStoredTransaction p = Ok t ->
  StoredTransactionIdx t = proto.TrackedTransactionIdx p.
Proof.
  unfold protoTxToStoredTransaction, bind.
  destruct (Deserialize _); [|discriminate].
  destruct (proto.UnbondingTxData_ p);
    [destruct (protoUnbondingDataToUnbondingStoreData _); [|discriminate]|];
    (destruct (protoBtcConfirmationInfoToBtcConfirmationInfo _);
     [|discriminate]);
    (destruct (_ >? _); [discriminate|]);
    intros [= <-]; reflexivity.
Qed.

Lemma bytes_eqb_eq (a b : bytes) : bytes_eqb a b = true -> a = b.
Proof.
  unfold bytes_eqb. destruct (bytes_compare a b) eqn:Hc; try discriminate.
  intros _. apply bytes_compare_eq_iff, Hc.
Qed.

(** Walking pairs with descending keys, the accepted records come out
    with descending indices. *)
Lemma loop_descending (q : StoredTransactionQuery) (total : Z)
    (items : list (bytes * bytes)) :
  StronglySorted (fun x y => bytes_compare (fst y) (fst x) = Lt) items ->
  forallb entry_consistent items = true ->
  forall acc s s',
    paginator_loop (accumulateTransactions q) total items acc s = (s', None) ->
    exists l,
      s' = s ++ l
      /\ StronglySorted (fun a b => b < a) (map StoredTransactionIdx l)
      /\ Forall (fun t => is_uint64 (StoredTransactionIdx t) = true
                          /\ In (uint64KeyToBytes (StoredTransactionIdx t))
                                (map fst items)) l.
Proof.
  induction 1 as [|[k v] r Hr IH Hk]; intros Hcons acc s s' Hloop.
  - injection Hloop as <-. exists []. rewrite app_nil_r.
    repeat split; constructor.
  - simpl in Hcons. apply andb_prop in Hcons as [Hkv Hcons].
    specialize (IH Hcons).
    assert (Hweaken : forall l,
               Forall (fun t => is_uint64 (StoredTransactionIdx t) = true
                          /\ In (uint64KeyToBytes (StoredTransactionIdx t))
                                (map fst r)) l ->
               Forall (fun t => is_uint64 (StoredTransactionIdx t) = true
                          /\ In (uint64KeyToBytes (StoredTransactionIdx t))
                                (map fst ((k, v) :: r))) l).
    { intros l. apply Forall_impl. intros t [H1 H2].
      split; [exact H1 | right; exact H2]. }
    simpl in Hloop. destruct (acc =? total).
    { injection Hloop as <-. exists []. rewrite app_nil_r.
      repeat split; constructor. }
    unfold accumulateTransactions in Hloop at 1.
    unfold entry_consistent in Hkv. simpl in Hkv.
    destruct (Unmarshal v) as [p|e]; [|discriminate].
    destruct (protoTxToStoredTransaction p) as [t|e] eqn:Ht; [|discriminate].
    apply andb_prop in Hkv as [Hkey Hrange].
    apply bytes_eqb_eq in Hkey.
    rewrite <- (protoTx_idx p t Ht) in Hkey, Hrange.
    assert (Haccept : forall s',
               paginator_loop (accumulateTransactions q) total r (acc + 1)
                 (s ++ [t]) = (s', None) ->
               exists l,
                 s' = s ++ l
                 /\ StronglySorted (fun a b => b < a)
                      (map StoredTransactionIdx l)
                 /\ Forall
                      (fun t => is_uint64 (StoredTransactionIdx t) = true
                          /\ In (uint64KeyToBytes (StoredTransactionIdx t))
                                (map fst ((k, v) :: r))) l).
    { intros s0 H0. destruct (IH _ _ _ H0) as (l & -> & Hsorted & Hall).
      exists (t :: l). rewrite <- app_assoc. split; [reflexivity|].
      split.
      - simpl. constructor; [exact Hsorted|].
        apply Forall_map. eapply Forall_impl; [|exact Hall].
        intros t' [Hr' Hin']. simpl.
        apply in_map_iff in Hin' as ([k' v'] & Hk' & Hin').
        simpl in Hk'.
        rewrite Forall_forall in Hk. specialize (Hk _ Hin'). simpl in Hk.
        rewrite Hk', Hkey in Hk. unfold uint64KeyToBytes in Hk.
        rewrite PutUint64_compare in Hk
          by (apply is_uint64_range; assumption).
        apply Z.compare_lt_iff in Hk. exact Hk.
      - constructor; [|apply Hweaken, Hall].
        split; [exact Hrange | left; simpl; exact Hkey]. }
    destruct (withdrawableTransactionsFilter q) as [f|].
    + destruct (withdrawable f t).
      * apply Haccept, Hloop.
      * destruct (IH _ _ _ Hloop) as (l & -> & Hsorted & Hall).
        exists l. repeat split; [exact Hsorted | apply Hweaken, Hall].
    + apply Haccept, Hloop.
Qed.

(** Without a filter every pair that decodes is accepted: the walk collects
    the first [total - accepted] records. *)
Lemma loop_all_accepted (q : StoredTransactionQuery) (total : Z)
    (items : list (bytes * bytes)) (recs : list StoredTransaction) :
  withdrawableTransactionsFilter q = None ->
  Forall2 (fun kv x => decodeRecord (snd kv) = Ok x) items recs ->
  forall acc s,
    0 <= acc <= total ->
    paginator_loop (accumulateTransactions q) total items acc s
    = (s ++ firstn (Z.to_nat (total - acc)) recs, None).
Proof.
  intros Hq HF. induction HF as [|[k v] x items recs Hd HF IH];
    intros acc s Hacc.
  - simpl. rewrite firstn_nil, app_nil_r. reflexivity.
  - simpl paginator_loop. destruct (Z.eqb_spec acc total) as [->|Hne].
    + rewrite Z.sub_diag. simpl. rewrite app_nil_r. reflexivity.
    + apply decodeRecord_Ok in Hd as (p & Hu & Hp). simpl in Hu.
      unfold accumulateTransactions at 1. rewrite Hu, Hp, Hq.
      rewrite IH by lia. rewrite <- app_assoc. simpl app.
      replace (Z.to_nat (total - acc))
        with (S (Z.to_nat (total - (acc + 1)))) by lia.
      reflexivity.
Qed.

Lemma Forall2_skipn {A B : Type} (R : A -> B -> Prop) (n : nat)
    (l : list A) (l' : list B) :
  Forall2 R l l' -> Forall2 R (skipn n l) (skipn n l').
Proof.
  intros H; revert n; induction H as [|x y l l' Hxy H IH]; intros [|n];
    simpl; try constructor; auto.
Qed.

Lemma Forall2_rev {A B : Type} (R : A -> B -> Prop)
    (l : list A) (l' : list B) :
  Forall2 R l l' -> Forall2 R (rev l) (rev l').
Proof.
  induction 1 as [|x y l l' Hxy H IH]; simpl; [constructor|].
  apply Forall2_app; [exact IH | constructor; [exact Hxy | constructor]].
Qed.

(** The unfiltered query on a store whose records all decode. *)
Lemma query_unfiltered (db : DB) (tb ib : kvdb.Bucket)
    (recs : list StoredTransaction) (n : Z) (q : StoredTransactionQuery) :
  transactionBucket db = Some tb ->
  transactionIndex db = Some ib ->
  getNumTx ib = Ok n -> n <> 0 ->
  Forall2 (fun kv x => decodeRecord (snd kv) = Ok x) tb recs ->
  withdrawableTransactionsFilter q = None ->
  0 <= NumMaxTransactions q ->
  QueryStoredTransactions db q
  = (mkStoredTransactionQueryResult
       (if Reversed q
        then rev (firstn (Z.to_nat (NumMaxTransactions q))
                    (skipn (Z.to_nat (IndexOffset q)) (rev recs)))
        else firstn (Z.to_nat (NumMaxTransactions q))
               (skipn (Z.to_nat (IndexOffset q)) recs))
       n, None).
Proof.
  intros Htb Hib Hn Hn0 HF Hq HL.
  unfold QueryStoredTransactions. rewrite Htb, Hib, Hn.
  destruct (Z.eqb_spec n 0) as [->|_]; [congruence|].
  unfold paginator_query, paginator_walk, newPaginator. simpl.
  destruct (Reversed q).
  - rewrite (loop_all_accepted q _ _
               (skipn (Z.to_nat (IndexOffset q)) (rev recs)) Hq)
      by (try lia; apply Forall2_skipn, Forall2_rev, HF).
    rewrite Z.sub_0_r, reverseInPlace_rev. reflexivity.
  - rewrite (loop_all_accepted q _ _
               (skipn (Z.to_nat (IndexOffset q)) recs) Hq)
      by (try lia; apply Forall2_skipn, HF).
    rewrite Z.sub_0_r. reflexivity.
Qed.

Lemma query_reversed_ascending (db : DB) (q : StoredTransactionQuery) :
  consistent db = true -> Reversed q = true ->
  snd (QueryStoredTransactions db q) = None ->
  StronglySorted Z.lt (pageIndices (fst (QueryStoredTransactions db q))).
Proof.
  intros Hcons Hrev. unfold QueryStoredTransactions, consistent in *.
  destruct (transactionBucket db) as [tb|]; [|discriminate].
  destruct (transactionIndex db) as [ib|]; [|discriminate].
  destruct (getNumTx ib) as [n|e]; [|discriminate].
  destruct (n =? 0); [intros _; constructor|].
  apply andb_prop in Hcons as [Hsorted Hentries].
  unfold paginator_query, paginator_walk, newPaginator. simpl.
  rewrite Hrev.
  destruct (paginator_loop _ _ _ _ _) as [txs [e|]] eqn:Hloop;
    [discriminate|]. intros _. simpl.
  apply loop_descending in Hloop as (l & -> & Hdesc & _).
  - simpl. unfold pageIndices. simpl.
    rewrite reverseInPlace_rev, map_rev.
    apply (StronglySorted_rev (fun a b => b < a)), Hdesc.
  - apply StronglySorted_skipn.
    apply (StronglySorted_rev
             (fun x y => bytes_compare (fst x) (fst y) = Lt)).
    apply sorted_StronglySorted, Hsorted.
  - apply forallb_forall. intros kv Hin.
    apply In_skipn_in, in_rev in Hin.
    rewrite forallb_forall in Hentries. apply Hentries, Hin.
Qed.

Lemma getNumTx_of_next (ib : kvdb.Bucket) (n : Z) :
  0 <= n < 2 ^ 64 -> nextTxKey ib = Ok (n + 1) -> getNumTx ib = Ok n.
Proof.
  intros Hn Hnext. unfold getNumTx. rewrite Hnext. simpl.
  unfold wrap64. rewrite Z.add_simpl_r, Z.mod_small by exact Hn.
  reflexivity.
Qed.

(** ** Consistency of the stores that the operations reach *)

Lemma Put_sorted (k v : bytes) (b : kvdb.Bucket) :
  kvdb.sorted b = true -> kvdb.sorted (kvdb.Put k v b) = true.
Proof.
  induction b as [|[k1 v1] r IH]; intros Hs; [reflexivity|].
  cbn [kvdb.Put]. destruct (bytes_compare k k1) eqn:Hc.
  - apply bytes_compare_eq_iff in Hc. subst k1.
    destruct r as [|[k2 v2] r']; [reflexivity | exact Hs].
  - cbn [kvdb.sorted]. rewrite Hc. exact Hs.
  - assert (Hlt : bytes_compare k1 k = Lt).
    { rewrite bytes_compare_antisym, Hc. reflexivity. }
    destruct r as [|[k2 v2] r'].
    + cbn [kvdb.Put kvdb.sorted]. rewrite Hlt. reflexivity.
    + cbn [kvdb.sorted] in Hs.
      destruct (bytes_compare k1 k2) eqn:H12; try discriminate.
      specialize (IH Hs). cbn [kvdb.Put] in IH |- *.
      destruct (bytes_compare k k2) eqn:Hk2.
      * cbn [kvdb.sorted] in IH |- *. rewrite Hlt. exact IH.
      * cbn [kvdb.sorted] in IH |- *. rewrite Hlt. exact IH.
      * change (kvdb.sorted ((k1, v1) :: (k2, v2) :: kvdb.Put k v r') = true).
        cbn [kvdb.sorted]. rewrite H12. exact IH.
Qed.

Lemma forallb_Put (P : bytes * bytes -> bool) (k v : bytes)
    (b : kvdb.Bucket) :
  forallb P b = true -> P (k, v) = true ->
  forallb P (kvdb.Put k v b) = true.
Proof.
  intros Hb Hkv. induction b as [|[k1 v1] r IH]; simpl.
  - rewrite Hkv. reflexivity.
  - simpl in Hb. apply andb_prop in Hb as [H1 Hr].
    destruct (bytes_compare k k1); simpl.
    + rewrite Hkv, Hr. reflexivity.
    + rewrite Hkv, H1, Hr. reflexivity.
    + rewrite H1, (IH Hr). reflexivity.
Qed.

Lemma step_cases (o : Op) :
  (exists a, o = OpInsert a)
  \/ (exists h f,
        (forall db, step db o = setTxState db h f)
        /\ forall p p', f p = Ok p' ->
             proto.TrackedTransactionIdx p' = proto.TrackedTransactionIdx p).
Proof.
  destruct o as [a|x bh ht|x bh ht|x sigs|x bh ht].
  - left. exists a. reflexivity.
  - right. exists x. eexists. split; [intros db; reflexivity|].
    intros q q' [= <-]. reflexivity.
  - right. exists x. eexists. split; [intros db; reflexivity|].
    intros q q' [= <-]. reflexivity.
  - right. exists x. eexists. split; [intros db; reflexivity|].
    intros q q'. unfold setUnbondingSignaturesReceived.
    destruct (proto.UnbondingTxData_ q); [|discriminate].
    destruct (Nat.ltb _ _); [discriminate|]. intros [= <-]. reflexivity.
  - right. exists x. eexists. split; [intros db; reflexivity|].
    intros q q'. unfold setUnbondingConfirmedOnBtc.
    destruct (proto.UnbondingTxData_ q); [|discriminate].
    intros [= <-]. reflexivity.
Qed.

Lemma consistent_entry (db : DB) (tb : kvdb.Bucket) (k v : bytes)
    (p : proto.TrackedTransaction) :
  consistent db = true -> transactionBucket db = Some tb ->
  kvdb.Get k tb = Some v -> Unmarshal v = Ok p ->
  k = uint64KeyToBytes (proto.TrackedTransactionIdx p)
  /\ is_uint64 (proto.TrackedTransactionIdx p) = true.
Proof.
  unfold consistent. intros Hc Htb Hget Hp. rewrite Htb in Hc.
  apply andb_prop in Hc as [_ Hall]. rewrite forallb_forall in Hall.
  specialize (Hall _ (Get_Some_In _ _ _ Hget)).
  unfold entry_consistent in Hall. simpl in Hall. rewrite Hp in Hall.
  apply andb_prop in Hall as [Hk Hr]. split; [apply bytes_eqb_eq, Hk | exact Hr].
Qed.

Lemma bytes_eqb_refl (a : bytes) : bytes_eqb a a = true.
Proof. unfold bytes_eqb. rewrite bytes_compare_refl. reflexivity. Qed.

Lemma setTxState_consistent (db : DB) (h : chainhash.Hash)
    (f : proto.TrackedTransaction -> result proto.TrackedTransaction) :
  marshal_keeps_index ->
  (forall p p', f p = Ok p' ->
     proto.TrackedTransactionIdx p' = proto.TrackedTransactionIdx p) ->
  consistent db = true ->
  consistent (fst (setTxState db h f)) = true.
Proof.
  intros Hlaw Hf Hc.
  destruct (transactionIndex db) as [ib|] eqn:Hib.
  2:{ unfold setTxState, Batch. rewrite Hib. exact Hc. }
  destruct (transactionBucket db) as [tb|] eqn:Htb.
  2:{ unfold setTxState, Batch. rewrite Hib, Htb. exact Hc. }
  destruct (kvdb.Get h ib) as [k|] eqn:Hk.
  2:{ unfold setTxState, Batch, getTxByHash, chainhash.CloneBytes.
      rewrite Hib, Htb, Hk. exact Hc. }
  destruct (kvdb.Get k tb) as [v|] eqn:Hv.
  2:{ unfold setTxState, Batch, getTxByHash, chainhash.CloneBytes.
      rewrite Hib, Htb, Hk, Hv. exact Hc. }
  destruct (Unmarshal v) as [p|e] eqn:Hp.
  2:{ unfold setTxState, Batch, getTxByHash, chainhash.CloneBytes.
      rewrite Hib, Htb, Hk, Hv. simpl. rewrite Hp. exact Hc. }
  rewrite (setTxState_step db h f ib tb k v p Hib Htb Hk Hv Hp).
  destruct (f p) as [p'|e] eqn:Hfp; [|exact Hc].
  destruct (Marshal p') as [m|e] eqn:Hm; [|exact Hc].
  destruct (consistent_entry db tb k v p Hc Htb Hv Hp) as [Hkey Hrange].
  unfold consistent in Hc |- *. rewrite Htb in Hc. simpl.
  apply andb_prop in Hc as [Hsorted Hall].
  rewrite (Put_sorted _ _ _ Hsorted). simpl.
  apply forallb_Put; [exact Hall|].
  unfold entry_consistent. cbn [fst snd].
  destruct (Unmarshal m) as [p''|e] eqn:Hp''; [|reflexivity].
  pose proof (Hf _ _ Hfp) as Hidx.
  rewrite <- Hidx in Hrange, Hkey.
  rewrite (Hlaw p' m p'' Hrange Hm Hp''), Hrange, Hkey, bytes_eqb_refl.
  reflexivity.
Qed.

Lemma step_invariant (db : DB) (o : Op) :
  marshal_keeps_index ->
  consistent db = true /\ counter_ok db ->
  consistent (fst (step db o)) = true /\ counter_ok (fst (step db o)).
Proof.
  intros Hlaw [Hc (ib & n & Hib & Hn & Hrange)].
  destruct (step_cases o) as [(a & ->)|(h & f & Hstep & Hf)].
  2:{ rewrite Hstep. split.
      - apply setTxState_consistent; assumption.
      - exists ib, n. split; [|split; assumption].
        destruct (setTxState_frame db h f) as [(Hidx & _) _].
        rewrite Hidx. exact Hib. }
  simpl step.
  destruct (Insert_inv db a) as [[Hdb _]|Hok].
  { rewrite Hdb. split; [exact Hc | exists ib, n; auto]. }
  destruct Hok as (tb & ib' & inb & u & n' & s & su & m & Htb & Hib' & Hinb
                   & Hu & Hs & Hsu & Hget & Hn' & Hm & Hins).
  rewrite Hib in Hib'. injection Hib' as <-.
  rewrite Hn in Hn'. injection Hn' as <-.
  rewrite Hins. simpl fst. split.
  - unfold consistent, insertedDB in *. simpl. rewrite Htb in Hc.
    apply andb_prop in Hc as [Hsorted Hall].
    rewrite (Put_sorted _ _ _ Hsorted). simpl.
    apply forallb_Put; [exact Hall|].
    unfold entry_consistent. cbn [fst snd].
    destruct (Unmarshal m) as [p'|e] eqn:Hp'; [|reflexivity].
    assert (Hr : is_uint64 n = true).
    { unfold is_uint64, MaxUint64.
      change (2 ^ 64) with 18446744073709551616 in *.
      apply andb_true_intro; split; [apply Z.leb_le | apply Z.leb_le]; lia. }
    rewrite (Hlaw (insertedMessage a n s su) m p' Hr Hm Hp').
    change (proto.TrackedTransactionIdx (insertedMessage a n s su)) with n.
    rewrite Hr, bytes_eqb_refl. reflexivity.
  - unfold insertedDB. eexists. exists (wrap64 (n + 1)).
    split; [reflexivity|]. split; [apply nextTxKey_Put | apply wrap64_range].
Qed.

(** Every store reached from a new store is consistent. *)
Lemma run_consistent (ops : list Op) :
  marshal_keeps_index -> consistent (run newStore ops) = true.
Proof.
  intros Hlaw.
  assert (H : consistent (run newStore ops) = true
              /\ counter_ok (run newStore ops)); [|apply H].
  induction ops as [|o ops IH] using rev_ind.
  - split; [reflexivity|]. exists [], 1. repeat split; try reflexivity.
    lia.
  - rewrite run_snoc. apply step_invariant; assumption.
Qed.

(** C6.  On a store holding the four records of four insertions, the
    forward queries with limit 2 at offsets 0 and 2 return the records
    with indices 1, 2 and 3, 4, each page in ascending order, and the
    reversed query with limit 4 returns all four in ascending order.  On
    every consistent store, and so on every store that a history of
    operations reaches from a new store, the page of every reversed query
    that succeeds is in strictly ascending index order. *)
Theorem query_pages_ascending (l : list InsertArgs) (db : DB) :
  insertAll newStore l = Some db ->
  List.length l = 4%nat ->
  records_valid l ->
  (exists recs,
      Forall2 (fun ai x => insertedRecord (fst ai) (snd ai) = Some x)
        (numbered 1 l) recs
      /\ QueryStoredTransactions db (mkStoredTransactionQuery 0 2 false None)
         = (mkStoredTransactionQueryResult (firstn 2 recs) 4, None)
      /\ QueryStoredTransactions db (mkStoredTransactionQuery 2 2 false None)
         = (mkStoredTransactionQueryResult (skipn 2 recs) 4, None)
      /\ QueryStoredTransactions db (mkStoredTransactionQuery 0 4 true None)
         = (mkStoredTransactionQueryResult recs 4, None)
      /\ map StoredTransactionIdx (firstn 2 recs) = [1; 2]
      /\ map StoredTransactionIdx (skipn 2 recs) = [3; 4])
  /\ (forall (db' : DB) (q : StoredTransactionQuery),
         consistent db' = true -> Reversed q = true ->
         snd (QueryStoredTransactions db' q) = None ->
         StronglySorted Z.lt
           (pageIndices (fst (QueryStoredTransactions db' q))))
  /\ (forall (ops : list Op) (q : StoredTransactionQuery),
         marshal_keeps_index -> Reversed q = true ->
         snd (QueryStoredTransactions (run newStore ops) q) = None ->
         StronglySorted Z.lt
           (pageIndices
              (fst (QueryStoredTransactions (run newStore ops) q)))).
Proof.
  intros Hrun Hlen Hvalid.
  split; [|split; [exact query_reversed_ascending|]].
  2:{ intros ops q Hlaw. apply query_reversed_ascending.
      apply run_consistent, Hlaw. }
  assert (Hmax : Z.of_nat (List.length l) < MaxUint64)
    by (rewrite Hlen; reflexivity).
  destruct (insertAll_shape l db Hrun Hmax)
    as (tb & ib & inb & Htb & Hib & _ & HF & _ & Hnext).
  destruct (stored_records _ _ HF Hvalid) as (recs & Hrecs & Hdec).
  assert (Hidx : map StoredTransactionIdx recs = [1; 2; 3; 4]).
  { rewrite (Forall2_indices _ _ Hrecs).
    change 1 with (Z.of_nat 1). rewrite numbered_indices, Hlen.
    reflexivity. }
  assert (Hnum : getNumTx ib = Ok 4).
  { apply getNumTx_of_next; [split; [lia | reflexivity]|].
    rewrite Hlen in Hnext. exact Hnext. }
  exists recs. split; [exact Hrecs|].
  destruct recs as [|r1 [|r2 [|r3 [|r4 [|r5 recs]]]]]; try discriminate.
  injection Hidx as H1 H2 H3 H4.
  repeat split.
  - exact (query_unfiltered db tb ib [r1; r2; r3; r4] 4
             (mkStoredTransactionQuery 0 2 false None)
             Htb Hib Hnum ltac:(lia) Hdec eq_refl ltac:(simpl; lia)).
  - exact (query_unfiltered db tb ib [r1; r2; r3; r4] 4
             (mkStoredTransactionQuery 2 2 false None)
             Htb Hib Hnum ltac:(lia) Hdec eq_refl ltac:(simpl; lia)).
  - exact (query_unfiltered db tb ib [r1; r2; r3; r4] 4
             (mkStoredTransactionQuery 0 4 true None)
             Htb Hib Hnum ltac:(lia) Hdec eq_refl ltac:(simpl; lia)).
  - simpl. congruence.
  - simpl. congruence.
Qed.

End StoreProperties.

(** * The properties on the sample instance *)

Import Sample.

Ltac compute_eq := vm_compute; reflexivity.

Ltac solve_tx_roundtrips :=
  match goal with
  | |- tx_roundtrips ?t =>
      exists (put_tx t); split; [reflexivity | vm_compute; reflexivity]
  end.

Ltac solve_message_roundtrips :=
  let p := fresh "p" in
  let Hp := fresh "Hp" in
  intros p Hp; vm_compute in Hp; injection Hp as <-;
  match goal with
  | |- message_roundtrips ?m =>
      exists (put_tracked m); split; [reflexivity | vm_compute; reflexivity]
  end.

(** C4, counterexample to the claim as stated: the record of [store1] has
    unbonding data and no covenant signatures; setting the empty list of
    signatures succeeds, and setting a list after that succeeds too instead
    of failing with [ErrInvalidUnbondingDataUpdate]. *)
Lemma set_signatures_twice_counterexample :
  let h := TxHash (stakingTxOf 1) in
  let r1 := SetTxUnbondingSignaturesReceived store1 h [] in
  let r2 := SetTxUnbondingSignaturesReceived (fst r1) h [pairOf 1] in
  (GetTransaction store1 h = Ok record1
   /\ UnbondingTxData record1 = Some unbondingRecord1
   /\ CovenantSignatures unbondingRecord1 = [])
  /\ snd r1 = None
  /\ snd r2 = None
  /\ ~ (exists e, snd r2 = Some e
                  /\ errors_Is e ErrInvalidUnbondingDataUpdate = true).
Proof.
  cbv zeta. split; [|split; [|split]].
  - split; [vm_compute; reflexivity|]. split; reflexivity.
  - vm_compute; reflexivity.
  - vm_compute; reflexivity.
  - intros (e & He & _). vm_compute in He. discriminate.
Qed.

(** C9, counterexample to the claim as stated: inserting into a new store
    without the unbonding transaction does not succeed; it fails and stores
    nothing. *)
Lemma insert_without_unbonding_counterexample :
  Insert newStore (argsWithoutUnbonding 1)
  = (newStore,
     Some (Wrapf "failed to create unbonding transaction data"
             (Errorf "cannot create unbonding tx data without unbonding tx")))
  /\ snd (Insert newStore (argsWithoutUnbonding 1)) <> None
  /\ primaryOf (fst (Insert newStore (argsWithoutUnbonding 1))) = [].
Proof.
  split; [vm_compute; reflexivity|].
  split; [vm_compute; discriminate | vm_compute; reflexivity].
Qed.

(** C1 on the sample store: the first transaction is inserted again. *)
Lemma insert_duplicate_rejected_witness :
  transactionIndex store1 = Some (indexOf store1)
  /\ kvdb.Get (TxHash (stakingTxOf 1)) (indexOf store1) <> None
  /\ Insert store1 (argsOf 1) = (store1, Some ErrDuplicateTransaction).
Proof.
  assert (H1 : transactionIndex store1 = Some (indexOf store1))
    by (vm_compute; reflexivity).
  assert (H2 : kvdb.Get (TxHash (stakingTxOf 1)) (indexOf store1) <> None)
    by (vm_compute; discriminate).
  split; [exact H1|]. split; [exact H2|].
  destruct (insert_duplicate_rejected store1 (indexOf store1) (stakingTxOf 1)
              H1 H2) as [_ Hpublic].
  apply (Hpublic 0 1000 (btcutil.mkAddress "bcrt1staker") (unbondingTxOf 1) 100
           "delegation"%string (put_tx (stakingTxOf 1))
           (put_tx (unbondingTxOf 1)));
    reflexivity.
Defined.

(** C8 on the sample store: the indexed hash is found and decoded. *)
Lemma get_transaction_outcomes_witness :
  transactionIndex store1 = Some (indexOf store1)
  /\ transactionBucket store1 = Some (primaryOf store1)
  /\ GetTransaction store1 (TxHash (stakingTxOf 2)) = Err ErrTransactionNotFound
  /\ GetTransaction store1 (TxHash (stakingTxOf 1)) = Ok record1.
Proof.
  assert (H1 : transactionIndex store1 = Some (indexOf store1))
    by (vm_compute; reflexivity).
  assert (H2 : transactionBucket store1 = Some (primaryOf store1))
    by (vm_compute; reflexivity).
  split; [exact H1|]. split; [exact H2|].
  split.
  - destruct (get_transaction_outcomes store1 (indexOf store1)
                (primaryOf store1) (TxHash (stakingTxOf 2)) H1 H2)
      as [Hmissing _].
    apply Hmissing. vm_compute; reflexivity.
  - destruct (get_transaction_outcomes store1 (indexOf store1)
                (primaryOf store1) (TxHash (stakingTxOf 1)) H1 H2)
      as (_ & _ & Hfound).
    apply (Hfound (uint64KeyToBytes 1) (put_tracked message1) message1);
      vm_compute; reflexivity.
Defined.

(** C5 on a record confirmed at height 100 with staking time 10. *)
Lemma withdrawable_filter_exact_witness :
  in_range confirmedRecord = true
  /\ is_uint32 108 = true
  /\ withdrawable (mkWithdrawableTransactionsFilter 108) confirmedRecord
     = false
  /\ withdrawable (mkWithdrawableTransactionsFilter 109) confirmedRecord
     = true.
Proof.
  split; [reflexivity|]. split; [reflexivity|]. split.
  - destruct (withdrawable_filter_exact confirmedRecord 108 eq_refl eq_refl)
      as (_ & Hstaking & _).
    rewrite (Hstaking (mkBtcConfirmationInfo 100 (hashOf 9)) eq_refl eq_refl).
    reflexivity.
  - destruct (withdrawable_filter_exact confirmedRecord 109 eq_refl eq_refl)
      as (_ & Hstaking & _).
    rewrite (Hstaking (mkBtcConfirmationInfo 100 (hashOf 9)) eq_refl eq_refl).
    reflexivity.
Defined.

Lemma fullRecord_valid : valid_record fullRecord.
Proof.
  split; [solve_tx_roundtrips|]. split; [reflexivity|].
  split; [reflexivity|]. split.
  - split; [solve_tx_roundtrips|]. split; [reflexivity|].
    split; [repeat constructor | reflexivity].
  - solve_message_roundtrips.
Defined.

(** C3 on a record with every optional part present. *)
Lemma decode_encode_roundtrip_witness :
  valid_record fullRecord
  /\ exists b, encodeRecord fullRecord = Ok b /\ decodeRecord b = Ok fullRecord.
Proof.
  split; [exact fullRecord_valid|].
  exact (proj2 (decode_encode_roundtrip fullRecord fullRecord_valid)).
Defined.

Ltac solve_inserted_valid :=
  let x := fresh "x" in
  let Hx := fresh "Hx" in
  intros x Hx; vm_compute in Hx; injection Hx as <-;
  split; [solve_tx_roundtrips|]; split; [reflexivity|];
  split; [exact I|]; split;
  [ split; [solve_tx_roundtrips|]; split; [reflexivity|];
    split; [constructor | exact I]
  | solve_message_roundtrips ].

Lemma three_records_valid : records_valid [argsOf 1; argsOf 2; argsOf 3].
Proof.
  unfold records_valid. cbn [numbered].
  repeat (constructor; [cbn [fst snd]; solve_inserted_valid|]).
  constructor.
Defined.

Lemma four_records_valid :
  records_valid [argsOf 1; argsOf 2; argsOf 3; argsOf 4].
Proof.
  unfold records_valid. cbn [numbered].
  repeat (constructor; [cbn [fst snd]; solve_inserted_valid|]).
  constructor.
Defined.

(** C2 on three insertions into a new store. *)
Lemma sequential_inserts_contiguous_witness :
  insertAll newStore [argsOf 1; argsOf 2; argsOf 3] = Some store3
  /\ Z.of_nat 3 < MaxUint64
  /\ records_valid [argsOf 1; argsOf 2; argsOf 3]
  /\ kvdb.keys (primaryOf store3)
     = [uint64KeyToBytes 1; uint64KeyToBytes 2; uint64KeyToBytes 3]
  /\ nextTxKey (indexOf store3) = Ok 4
  /\ ScanTrackedTransactions store3
       (fun (seen : list Z) t => (seen ++ [StoredTransactionIdx t], None)) []
     = ([1; 2; 3], None).
Proof.
  assert (Hrun : insertAll newStore [argsOf 1; argsOf 2; argsOf 3]
                 = Some store3) by (vm_compute; reflexivity).
  assert (Hlen : Z.of_nat (List.length [argsOf 1; argsOf 2; argsOf 3])
                 < MaxUint64) by reflexivity.
  split; [exact Hrun|]. split; [reflexivity|].
  split; [exact three_records_valid|].
  destruct (sequential_inserts_contiguous _ _ Hrun Hlen)
    as (tb & ib & Htb & Hib & Hkeys & _ & _ & Hnext & Hscan).
  destruct (Hscan three_records_valid) as (recs & Hn & Hidx & _ & Hvisit).
  unfold primaryOf, indexOf. rewrite Htb, Hib.
  split; [exact Hkeys|]. split; [exact Hnext|].
  rewrite Hvisit. clear Hvisit.
  destruct recs as [|r1 [|r2 [|r3 [|r4 recs]]]];
    try (simpl in Hn; exfalso; lia).
  cbn [map seq List.length] in Hidx. injection Hidx as H1 H2 H3.
  cbn [visitAll app]. rewrite H1, H2, H3. reflexivity.
Defined.

Lemma Uint64_PutUint64_app (v : Z) (rest : bytes) :
  0 <= v < 2 ^ 64 -> binary.Uint64 (binary.PutUint64 v ++ rest) = Ok v.
Proof. intros Hv. rewrite <- (Uint64_PutUint64 v Hv). reflexivity. Qed.

(** The sample codec keeps the index of a message. *)
Lemma sample_marshal_keeps_index : marshal_keeps_index.
Proof.
  intros p b p' Hr Hm Hu. apply is_uint64_range in Hr.
  injection Hm as <-. revert Hu.
  unfold Unmarshal, externals, whole, get_tracked, put_tracked.
  unfold get_u64 at 1, put_u64 at 1.
  rewrite (Uint64_PutUint64_app _ _ Hr). cbn [bind].
  repeat match goal with
         | |- context [bind ?x _] =>
             lazymatch x with
             | bind _ _ => fail
             | _ => destruct x as [[? ?]|?]; cbn [bind]; [|discriminate]
             end
         end.
  match goal with
  | |- match ?r with [] => _ | _ :: _ => _ end = _ -> _ =>
      destruct r; [|discriminate]
  end.
  intros [= <-]. reflexivity.
Qed.

(** C6 on four insertions into a new store, and on the reversed query of
    the store they give. *)
Lemma query_pages_ascending_witness :
  insertAll newStore [argsOf 1; argsOf 2; argsOf 3; argsOf 4] = Some store4
  /\ records_valid [argsOf 1; argsOf 2; argsOf 3; argsOf 4]
  /\ pageIndices
       (fst (QueryStoredTransactions store4
               (mkStoredTransactionQuery 0 2 false None))) = [1; 2]
  /\ pageIndices
       (fst (QueryStoredTransactions store4
               (mkStoredTransactionQuery 2 2 false None))) = [3; 4]
  /\ consistent store4 = true
  /\ StronglySorted Z.lt
       (pageIndices
          (fst (QueryStoredTransactions store4
                  (mkStoredTransactionQuery 1 2 true None))))
  /\ marshal_keeps_index
  /\ StronglySorted Z.lt
       (pageIndices
          (fst (QueryStoredTransactions
                  (run newStore [OpInsert (argsOf 1); OpInsert (argsOf 2)])
                  (mkStoredTransactionQuery 0 5 true None)))).
Proof.
  assert (Hrun : insertAll newStore [argsOf 1; argsOf 2; argsOf 3; argsOf 4]
                 = Some store4) by (vm_compute; reflexivity).
  split; [exact Hrun|]. split; [exact four_records_valid|].
  destruct (query_pages_ascending _ _ Hrun eq_refl four_records_valid)
    as ((recs & _ & Hp1 & Hp2 & _ & Hi1 & Hi2) & Hrev & Hreach).
  unfold pageIndices. rewrite Hp1, Hp2. cbn [fst Transactions].
  split; [exact Hi1|]. split; [exact Hi2|].
  assert (Hcons : consistent store4 = true) by (vm_compute; reflexivity).
  split; [exact Hcons|].
  split.
  { apply (Hrev store4 (mkStoredTransactionQuery 1 2 true None) Hcons eq_refl).
    vm_compute; reflexivity. }
  split; [exact sample_marshal_keeps_index|].
  apply (Hreach [OpInsert (argsOf 1); OpInsert (argsOf 2)]
           (mkStoredTransactionQuery 0 5 true None)
           sample_marshal_keeps_index eq_refl).
  vm_compute; reflexivity.
Defined.

(** C7 on a history with two insertions and a confirmation. *)
Lemma outpoint_used_iff_consumed_witness :
  let ops := [OpInsert (argsOf 1);
              OpSetTxConfirmed (TxHash (stakingTxOf 1)) (hashOf 9) 100;
              OpInsert (argsOf 2)] in
  let op := wire.mkOutPoint (hashOf 1) 0 in
  forallb op_outpoints_valid ops = true
  /\ wire.valid_outpoint op = true
  /\ OutpointUsed (run newStore ops) op = (true, None).
Proof.
  cbv zeta. split; [reflexivity|]. split; [reflexivity|].
  destruct (outpoint_used_iff_consumed
              [OpInsert (argsOf 1);
               OpSetTxConfirmed (TxHash (stakingTxOf 1)) (hashOf 9) 100;
               OpInsert (argsOf 2)]
              (wire.mkOutPoint (hashOf 1) 0) eq_refl eq_refl) as [Hiff _].
  apply Hiff.
  exists [], (argsOf 1),
    [OpSetTxConfirmed (TxHash (stakingTxOf 1)) (hashOf 9) 100;
     OpInsert (argsOf 2)].
  split; [reflexivity|]. split; [vm_compute; reflexivity|].
  left. reflexivity.
Defined.

(** C9 (as the code has it) on a new store: without the unbonding
    transaction the insertion fails, with it the record is stored under
    index 1 with its unbonding data. *)
Lemma insert_needs_unbonding_tx_witness :
  snd (Insert newStore (argsWithoutUnbonding 1)) <> None
  /\ snd (Insert newStore (argsOf 1)) = None
  /\ primaryGet (fst (Insert newStore (argsOf 1))) (uint64KeyToBytes 1)
     = Some (put_tracked message1)
  /\ proto.UnbondingTxData_ message1 = Some unbonding1.
Proof.
  split.
  - apply (insert_needs_unbonding_tx newStore (argsWithoutUnbonding 1)).
    reflexivity.
  - destruct (insert_needs_unbonding_tx newStore (argsOf 1)) as [_ Hwith].
    destruct (Hwith [] [] [] (unbondingTxOf 1) 1 (put_tx (stakingTxOf 1))
                (put_tx (unbondingTxOf 1)) (put_tracked message1)
                eq_refl eq_refl eq_refl eq_refl eq_refl eq_refl eq_refl
                eq_refl eq_refl)
      as (Hok & Hget & _ & Hunb & _).
    split; [exact Hok|]. split; [exact Hget|]. exact Hunb.
Defined.

(** C4 (as the code has it) on the sample store: a non-empty list of
    signatures is set once, and a second call is refused. *)
Lemma unbonding_signatures_set_once_witness :
  let h := TxHash (stakingTxOf 1) in
  let r1 := SetTxUnbondingSignaturesReceived store1 h [pairOf 1] in
  let r2 := SetTxUnbondingSignaturesReceived (fst r1) h [pairOf 1] in
  kvdb.Get h (indexOf store1) = Some (uint64KeyToBytes 1)
  /\ kvdb.Get (uint64KeyToBytes 1) (primaryOf store1)
     = Some (put_tracked message1)
  /\ Unmarshal (put_tracked message1) = Ok message1
  /\ snd r1 = None
  /\ r2 = (fst r1, Some (Wrapf
        "cannot set unbonding signatures received, because unbonding signatures already exist"
        ErrInvalidUnbondingDataUpdate)).
Proof.
  cbv zeta.
  assert (Hk : kvdb.Get (TxHash (stakingTxOf 1)) (indexOf store1)
               = Some (uint64KeyToBytes 1)) by (vm_compute; reflexivity).
  assert (Hv : kvdb.Get (uint64KeyToBytes 1) (primaryOf store1)
               = Some (put_tracked message1)) by (vm_compute; reflexivity).
  assert (Hp : Unmarshal (put_tracked message1) = Ok message1)
    by (vm_compute; reflexivity).
  split; [exact Hk|]. split; [exact Hv|]. split; [exact Hp|].
  destruct (unbonding_signatures_set_once store1 (indexOf store1)
              (primaryOf store1) (TxHash (stakingTxOf 1))
              (uint64KeyToBytes 1) (put_tracked message1) message1
              eq_refl eq_refl Hk Hv Hp) as [_ Hset].
  apply (Hset unbonding1 [pairOf 1] [pairOf 1] eq_refl eq_refl).
  - discriminate.
  - match goal with
    | |- message_roundtrips ?m =>
        exists (put_tracked m); split; [reflexivity | vm_compute; reflexivity]
    end.
Defined.

(** * Further properties of the store and the service *)

Section MoreProperties.

Context `{E : Externals}.

(** ** Index keys *)

(** X1. The key of a 64-bit index is 8 bytes long, reads back as the
    index, and keys compare byte-wise as their indices compare as
    numbers: a cursor walks the primary bucket in index order. *)
Theorem index_key_order (a b : Z) :
  is_uint64 a = true -> is_uint64 b = true ->
  List.length (uint64KeyToBytes a) = 8%nat
  /\ binary.Uint64 (uint64KeyToBytes a) = Ok a
  /\ bytes_compare (uint64KeyToBytes a) (uint64KeyToBytes b) = (a ?= b)
  /\ (uint64KeyToBytes a = uint64KeyToBytes b -> a = b).
Proof.
  intros Ha Hb. apply is_uint64_range in Ha, Hb. unfold uint64KeyToBytes.
  split; [reflexivity|]. split; [apply Uint64_PutUint64, Ha|].
  split; [apply PutUint64_compare; assumption|].
  apply PutUint64_inj; assumption.
Qed.

(** ** Outpoint keys *)

(** X2. The key of a well-formed outpoint is 36 bytes long, and two
    well-formed outpoints with the same key are the same outpoint. *)
Theorem outpoint_key_injective (a b : wire.OutPoint) :
  wire.valid_outpoint a = true -> wire.valid_outpoint b = true ->
  (exists k, outpointBytes a = Ok k /\ List.length k = 36%nat)
  /\ (outpointBytes a = outpointBytes b -> a = b).
Proof.
  intros Ha Hb. split; [|apply outpointBytes_inj; assumption].
  eexists. split; [reflexivity|].
  unfold wire.valid_outpoint, chainhash.valid in Ha.
  apply andb_prop in Ha as [Hlen _]. apply Nat.eqb_eq in Hlen.
  rewrite length_app. unfold chainhash.CloneBytes. rewrite Hlen.
  reflexivity.
Qed.

(** ** Opening a store *)

(** X3. Opening a store creates the buckets that are missing and touches
    none that exists: on a database whose three buckets exist it returns
    the database as it is, and in general every existing bucket is kept
    with its content and the store it returns has all three. *)
Theorem open_keeps_buckets (db : DB) :
  exists store,
    NewTrackedTransactionStore db = Ok store
    /\ buckets_open store
    /\ (forall b, transactionBucket db = Some b ->
                  transactionBucket store = Some b)
    /\ (forall b, transactionIndex db = Some b ->
                  transactionIndex store = Some b)
    /\ (forall b, inputsDataBucket db = Some b ->
                  inputsDataBucket store = Some b)
    /\ (buckets_open db -> store = db).
Proof.
  eexists. split; [reflexivity|]. simpl.
  split; [|split; [|split; [|split]]].
  - unfold buckets_open; simpl.
    destruct (transactionBucket db), (transactionIndex db),
      (inputsDataBucket db); repeat split; discriminate.
  - intros b ->. reflexivity.
  - intros b ->. reflexivity.
  - intros b ->. reflexivity.
  - intros (H1 & H2 & H3). destruct db as [[tb|] [ib|] [inb|]];
      simpl in *; congruence.
Qed.

(** ** Atomicity and repetition of insertions *)

(** X4. An insertion is all or nothing: whatever makes it fail (a
    transaction that does not serialise, a missing unbonding transaction,
    a missing bucket, a duplicate hash, an unreadable counter, a message
    that does not marshal), the database after it is the database
    before it. *)
Theorem insert_failure_changes_nothing (db : DB) (a : InsertArgs) :
  snd (Insert db a) <> None -> fst (Insert db a) = db.
Proof.
  intros Herr. destruct (Insert_inv db a) as [[Hdb _]|Hok]; [exact Hdb|].
  destruct Hok as (tb & ib & inb & u & n & s & su & m & _ & _ & _ & _ & _
                   & _ & _ & _ & _ & Hins).
  rewrite Hins in Herr. simpl in Herr. congruence.
Qed.

Lemma Get_Put_present (k k' v : bytes) (b : kvdb.Bucket) :
  kvdb.Get k b <> None -> kvdb.Get k (kvdb.Put k' v b) <> None.
Proof.
  intros H. destruct (bytes_eq_dec k k') as [->|Hne].
  - rewrite Get_Put_same. discriminate.
  - rewrite Get_Put_other by exact Hne. exact H.
Qed.

Lemma Get_fold_Put_present (k h : bytes) (ks : list bytes)
    (b : kvdb.Bucket) :
  kvdb.Get k b <> None ->
  kvdb.Get k (fold_left (fun b i => kvdb.Put i h b) ks b) <> None.
Proof. intros H. apply Get_fold_Put. right. exact H. Qed.

(** X5. A transaction is inserted at most once: right after an insertion
    that succeeded, the same insertion is refused with
    [ErrDuplicateTransaction] and changes nothing. *)
Theorem insert_twice_refused (db : DB) (a : InsertArgs) :
  snd (Insert db a) = None ->
  Insert (fst (Insert db a)) a
  = (fst (Insert db a), Some ErrDuplicateTransaction).
Proof.
  intros Hok. destruct (Insert_inv db a) as [[_ Herr]|Hsucc];
    [congruence|].
  destruct Hsucc as (tb & ib & inb & u & n & s & su & m & Htb & Hib & Hinb
                     & Hu & Hs & Hsu & Hget & Hn & Hm & Hins).
  rewrite Hins. simpl fst.
  unfold Insert, AddTransactionSentToBabylon.
  rewrite Hs, Hu, (newInitialUnbondingTxData_Some _ _ _ Hsu),
    getInputData_eq.
  unfold addTransactionInternal, Batch.
  unfold insertedDB at 1. cbn [transactionIndex].
  destruct (kvdb.Get (TxHash (a_btcTx a))
              (kvdb.Put numTxKey (uint64KeyToBytes (wrap64 (n + 1)))
                 (kvdb.Put (TxHash (a_btcTx a)) (uint64KeyToBytes n) ib)))
    eqn:Hpresent; [reflexivity|].
  exfalso. revert Hpresent. apply Get_Put_present.
  rewrite Get_Put_same. discriminate.
Qed.

(** ** Transitions on hashes that are not stored *)

Lemma setTxState_errors (db : DB) (ib tb : kvdb.Bucket)
    (h : chainhash.Hash)
    (f : proto.TrackedTransaction -> result proto.TrackedTransaction) :
  transactionIndex db = Some ib -> transactionBucket db = Some tb ->
  (kvdb.Get h ib = None ->
     setTxState db h f = (db, Some ErrTransactionNotFound))
  /\ (forall k, kvdb.Get h ib = Some k -> kvdb.Get k tb = None ->
        setTxState db h f = (db, Some ErrCorruptedTransactionsDB))
  /\ (forall k v e, kvdb.Get h ib = Some k -> kvdb.Get k tb = Some v ->
        Unmarshal v = Err e ->
        setTxState db h f = (db, Some ErrCorruptedTransactionsDB)).
Proof.
  intros Hib Htb.
  unfold setTxState, Batch, getTxByHash, chainhash.CloneBytes.
  rewrite Hib, Htb. repeat split.
  - intros ->. reflexivity.
  - intros k -> ->. reflexivity.
  - intros k v e -> -> Hu. simpl. rewrite Hu. reflexivity.
Qed.

(** X6. On a store with its buckets, each of the four transitions on a
    hash that the hash index does not hold fails with
    [ErrTransactionNotFound]; on a hash whose index entry names a key
    without record, or a record that does not unmarshal, it fails with
    [ErrCorruptedTransactionsDB]; and the database is unchanged. *)
Theorem transition_on_missing_record (db : DB) (ib tb : kvdb.Bucket)
    (h blockHash : chainhash.Hash) (blockHeight : Z)
    (sigs : list PubKeySigPair) :
  transactionIndex db = Some ib -> transactionBucket db = Some tb ->
  let all_return (r : DB * option error) :=
    SetTxConfirmed db h blockHash blockHeight = r
    /\ SetDelegationActiveOnBabylonAndConfirmedOnBtc db h blockHash
         blockHeight = r
    /\ SetTxUnbondingSignaturesReceived db h sigs = r
    /\ SetTxUnbondingConfirmedOnBtc db h blockHash blockHeight = r in
  (kvdb.Get h ib = None -> all_return (db, Some ErrTransactionNotFound))
  /\ (forall k, kvdb.Get h ib = Some k ->
        kvdb.Get k tb = None
        \/ (exists v e, kvdb.Get k tb = Some v /\ Unmarshal v = Err e) ->
        all_return (db, Some ErrCorruptedTransactionsDB)).
Proof.
  intros Hib Htb all_return. unfold all_return.
  unfold SetTxConfirmed, SetDelegationActiveOnBabylonAndConfirmedOnBtc,
    SetTxUnbondingSignaturesReceived, SetTxUnbondingConfirmedOnBtc.
  split.
  - intros Hnone.
    repeat split;
      apply (proj1 (setTxState_errors db ib tb h _ Hib Htb) Hnone).
  - intros k Hk [Hv|(v & e & Hv & Hu)].
    + repeat split;
        apply (proj1 (proj2 (setTxState_errors db ib tb h _ Hib Htb))
                 k Hk Hv).
    + repeat split;
        apply (proj2 (proj2 (setTxState_errors db ib tb h _ Hib Htb))
                 k v e Hk Hv Hu).
Qed.

(** ** Nothing is ever deleted *)

Lemma present_Put (b : kvdb.Bucket) (k k' v : bytes) :
  present (Some b) k -> present (Some (kvdb.Put k' v b)) k.
Proof.
  intros (b' & [= <-] & H). eexists. split; [reflexivity|].
  apply Get_Put_present, H.
Qed.

(** X7. No operation deletes a key: a key present in the primary bucket,
    the hash index or the outpoint index before an insertion or a
    transition, successful or not, is present after it. *)
Theorem step_deletes_nothing (db : DB) (o : Op) (k : bytes) :
  (present (transactionBucket db) k ->
     present (transactionBucket (fst (step db o))) k)
  /\ (present (transactionIndex db) k ->
        present (transactionIndex (fst (step db o))) k)
  /\ (present (inputsDataBucket db) k ->
        present (inputsDataBucket (fst (step db o))) k).
Proof.
  destruct (step_cases o) as [(a & ->)|(h & f & Hstep & _)].
  - simpl step. destruct (Insert_inv db a) as [[Hdb _]|Hok].
    + rewrite Hdb. tauto.
    + destruct Hok as (tb & ib & inb & u & n & s & su & m & Htb & Hib
                       & Hinb & _ & _ & _ & _ & _ & _ & Hins).
      rewrite Hins, Htb, Hib, Hinb. unfold insertedDB. simpl.
      repeat split.
      * apply present_Put.
      * intros H. apply present_Put, present_Put, H.
      * intros (b' & [= <-] & H). eexists. split; [reflexivity|].
        apply Get_fold_Put_present, H.
  - rewrite Hstep.
    destruct (setTxState_frame db h f) as [(Hidx & Hin & _) _].
    rewrite Hidx, Hin. split; [|tauto].
    intros (tb & Htb & Hpresent).
    destruct (transactionIndex db) as [ib|] eqn:Hib.
    2:{ unfold setTxState, Batch. rewrite Hib. exists tb. auto. }
    destruct (kvdb.Get h ib) as [key|] eqn:Hk.
    2:{ rewrite (proj1 (setTxState_errors db ib tb h f Hib Htb) Hk).
        exists tb. auto. }
    destruct (kvdb.Get key tb) as [v|] eqn:Hv.
    2:{ rewrite (proj1 (proj2 (setTxState_errors db ib tb h f Hib Htb))
                   key Hk Hv).
        exists tb. auto. }
    destruct (Unmarshal v) as [p|e] eqn:Hu.
    2:{ rewrite (proj2 (proj2 (setTxState_errors db ib tb h f Hib Htb))
                   key v e Hk Hv Hu).
        exists tb. auto. }
    rewrite (setTxState_step db h f ib tb key v p Hib Htb Hk Hv Hu).
    destruct (f p) as [p'|e]; [|exists tb; auto].
    destruct (Marshal p') as [m|e]; [|exists tb; auto].
    simpl. eexists. split; [reflexivity|]. apply Get_Put_present, Hpresent.
Qed.

(** ** Reading back what was inserted *)

Lemma hash_not_counter_key (h : chainhash.Hash) :
  chainhash.valid h = true -> h <> numTxKey.
Proof.
  unfold chainhash.valid. intros Hlen ->. discriminate.
Qed.

(** After a run of insertions into a new store, the hash index leads from
    the hash of each inserted transaction to the key of its index, and
    the primary bucket holds its pair there. *)
Lemma insertAll_lookup (l : list InsertArgs) (db : DB) :
  insertAll newStore l = Some db ->
  Z.of_nat (List.length l) < MaxUint64 ->
  Forall (fun a => chainhash.valid (TxHash (a_btcTx a)) = true) l ->
  exists tb ib,
    transactionBucket db = Some tb
    /\ transactionIndex db = Some ib
    /\ forall a i,
         In (a, i) (numbered 1 l) ->
         exists v,
           kvdb.Get (TxHash (a_btcTx a)) ib = Some (uint64KeyToBytes i)
           /\ kvdb.Get (uint64KeyToBytes i) tb = Some v
           /\ stored_as (a, i) (uint64KeyToBytes i, v).
Proof.
  revert db; induction l as [|a l IH] using rev_ind;
    intros db Hrun Hlen Hhash.
  - injection Hrun as <-. exists [], []. repeat split. intros a i [].
  - rewrite insertAll_snoc in Hrun.
    destruct (insertAll newStore l) as [db0|] eqn:Hrun0; [|discriminate].
    rewrite length_app in Hlen. simpl List.length in Hlen.
    apply Forall_app in Hhash as [Hhl Hha].
    inversion Hha as [|? ? Hvalid _]; subst.
    assert (Hlen0 : Z.of_nat (List.length l) < MaxUint64) by lia.
    destruct (IH db0 eq_refl Hlen0 Hhl) as (tb & ib & Htb & Hib & Hlook).
    destruct (insertAll_shape l db0 Hrun0 Hlen0)
      as (tb0 & ib0 & inb & Htb0 & Hib0 & Hinb & _ & _ & Hnext).
    rewrite Htb in Htb0; injection Htb0 as <-.
    rewrite Hib in Hib0; injection Hib0 as <-.
    destruct (Insert_inv db0 a) as [[_ Herr]|Hok].
    { destruct (Insert db0 a) as [db' [e|]]; [discriminate|].
      simpl in Herr. congruence. }
    destruct Hok as (tb' & ib' & inb' & u & n & s & su & m & Htb' & Hib'
                     & Hinb' & Hu & Hs & Hsu & Hget & Hn & Hm & Hins).
    rewrite Htb in Htb'; injection Htb' as <-.
    rewrite Hib in Hib'; injection Hib' as <-.
    rewrite Hnext in Hn; injection Hn as <-.
    rewrite Hins in Hrun. injection Hrun as <-.
    unfold insertedDB. eexists. eexists.
    split; [reflexivity|]. split; [reflexivity|].
    intros a' i Hin. rewrite numbered_app in Hin.
    apply in_app_or in Hin as [Hin|Hin].
    + destruct (Hlook a' i Hin) as (v & Hh & Hv & Hst).
      pose proof (numbered_range _ _ _ _ Hin) as Hi.
      assert (Hvalid' : chainhash.valid (TxHash (a_btcTx a')) = true).
      { rewrite Forall_forall in Hhl. apply Hhl.
        clear - Hin. revert Hin. generalize 1.
        induction l as [|b l IHl]; intros z; cbn [numbered In]; [tauto|].
        intros [[= -> _]|H]; [left; reflexivity | right; eapply IHl, H]. }
      exists v. split; [|split; [|exact Hst]].
      * rewrite Get_Put_other by (apply hash_not_counter_key, Hvalid').
        rewrite Get_Put_other; [exact Hh|]. intros Heq.
        rewrite Heq in Hh. congruence.
      * rewrite Get_Put_other; [exact Hv|]. intros Heq.
        unfold uint64KeyToBytes, MaxUint64 in *.
        change (2 ^ 64) with 18446744073709551616 in *.
        apply PutUint64_inj in Heq;
          change (2 ^ 64) with 18446744073709551616; lia.
    + replace (1 + Z.of_nat (List.length l))
        with (Z.of_nat (List.length l) + 1) in Hin by lia.
      cbn [numbered In] in Hin. destruct Hin as [[= <- <-]|[]].
      exists m. split; [|split].
      * rewrite Get_Put_other by (apply hash_not_counter_key, Hvalid).
        apply Get_Put_same.
      * apply Get_Put_same.
      * split; [reflexivity|]. exists u, s, su. repeat split; assumption.
Qed.

(** X8. After N successful insertions into a new store (N + 1 within 64
    bits, hashes of 32 bytes, valid records), [GetTransaction] on the
    hash of the i-th inserted staking transaction returns the record of
    that insertion, with index i, whatever was inserted after it. *)
Theorem inserted_records_read_back (l : list InsertArgs) (db : DB) :
  insertAll newStore l = Some db ->
  Z.of_nat (List.length l) < MaxUint64 ->
  Forall (fun a => chainhash.valid (TxHash (a_btcTx a)) = true) l ->
  records_valid l ->
  forall a i x,
    In (a, i) (numbered 1 l) ->
    insertedRecord a i = Some x ->
    GetTransaction db (TxHash (a_btcTx a)) = Ok x
    /\ StoredTransactionIdx x = i.
Proof.
  intros Hrun Hlen Hhash Hvalid a i x Hin Hx.
  destruct (insertAll_lookup l db Hrun Hlen Hhash)
    as (tb & ib & Htb & Hib & Hlook).
  destruct (Hlook a i Hin) as (v & Hh & Hv & Hst).
  unfold records_valid in Hvalid. rewrite Forall_forall in Hvalid.
  pose proof (stored_decodes (a, i) (uint64KeyToBytes i, v) x Hst Hx
                (Hvalid (a, i) Hin x Hx)) as Hdec.
  apply decodeRecord_Ok in Hdec as (p & Hu & Hp). simpl in Hu.
  split.
  - unfold GetTransaction, getTxByHash, chainhash.CloneBytes.
    rewrite Hib, Htb, Hh, Hv. simpl. rewrite Hu. exact Hp.
  - unfold insertedRecord in Hx. destruct (a_unbondingTx a); [|discriminate].
    injection Hx as <-. reflexivity.
Qed.

(** ** Reading back what a transition wrote *)

Lemma protoTx_inv (p : proto.TrackedTransaction) (x : StoredTransaction) :
  protoTxToStoredTransaction p = Ok x ->
  exists tx utd ci,
    Deserialize (proto.StakingTransaction p) = Ok tx
    /\ match proto.UnbondingTxData_ p with
       | Some ud =>
           exists u, protoUnbondingDataToUnbondingStoreData ud = Ok u
                     /\ utd = Some u
       | None => utd = None
       end
    /\ protoBtcConfirmationInfoToBtcConfirmationInfo
         (proto.StakingTxBtcConfirmationInfo p) = Ok ci
    /\ (proto.StakingTime p >? MaxUint16) = false
    /\ x = mkStoredTransaction (proto.TrackedTransactionIdx p) tx
             (proto.StakingOutputIdx p) ci (uint16 (proto.StakingTime p))
             (proto.StakerAddress p) utd
             (proto.BabylonBTCDelegationTxHash p).
Proof.
  unfold protoTxToStoredTransaction, bind.
  destruct (Deserialize _) as [tx|]; [|discriminate].
  destruct (proto.UnbondingTxData_ p) as [ud|].
  - destruct (protoUnbondingDataToUnbondingStoreData ud) as [u|];
      [|discriminate].
    destruct (protoBtcConfirmationInfoToBtcConfirmationInfo _) as [ci|];
      [|discriminate].
    destruct (_ >? _) eqn:Ht; [discriminate|]. intros [= <-].
    exists tx, (Some u), ci. repeat split. exists u. split; reflexivity.
  - destruct (protoBtcConfirmationInfoToBtcConfirmationInfo _) as [ci|];
      [|discriminate].
    destruct (_ >? _) eqn:Ht; [discriminate|]. intros [= <-].
    exists tx, None, ci. repeat split.
Qed.

Lemma protoUnbonding_inv (ud : proto.UnbondingTxData)
    (u : UnbondingStoreData) :
  protoUnbondingDataToUnbondingStoreData ud = Ok u ->
  exists tx sigs ci,
    Deserialize (proto.UnbondingTransaction ud) = Ok tx
    /\ (proto.UnbondingTime ud >? MaxUint16) = false
    /\ covenantSigsFromProto (proto.CovenantSignatures ud) [] = Ok sigs
    /\ protoBtcConfirmationInfoToBtcConfirmationInfo
         (proto.UnbondingTxBtcConfirmationInfo ud) = Ok ci
    /\ u = mkUnbondingStoreData tx (uint16 (proto.UnbondingTime ud)) sigs ci.
Proof.
  unfold protoUnbondingDataToUnbondingStoreData, bind.
  destruct (Deserialize _) as [tx|]; [|discriminate].
  destruct (_ >? _) eqn:Ht; [discriminate|].
  destruct (covenantSigsFromProto _ _) as [sigs|]; [|discriminate].
  destruct (protoBtcConfirmationInfoToBtcConfirmationInfo _) as [ci|];
    [|discriminate].
  intros [= <-]. exists tx, sigs, ci. repeat split.
Qed.

Lemma confirmation_decodes (bh : chainhash.Hash) (ht : Z) :
  chainhash.valid bh = true ->
  protoBtcConfirmationInfoToBtcConfirmationInfo (Some (confirmationOf bh ht))
  = Ok (Some (mkBtcConfirmationInfo ht bh)).
Proof.
  intros Hv. unfold protoBtcConfirmationInfoToBtcConfirmationInfo,
    confirmationOf, chainhash.NewHash, chainhash.CloneBytes. simpl.
  unfold chainhash.valid in Hv. rewrite Hv. reflexivity.
Qed.

Ltac proto_cbn :=
  cbn [bind proto.TrackedTransactionIdx proto.StakingTransaction
       proto.StakingOutputIdx proto.StakingTxBtcConfirmationInfo
       proto.StakingTime proto.StakerAddress proto.UnbondingTxData_
       proto.BabylonBTCDelegationTxHash proto.UnbondingTransaction
       proto.UnbondingTime proto.CovenantSignatures
       proto.UnbondingTxBtcConfirmationInfo
       proto.set_StakingTxBtcConfirmationInfo proto.set_UnbondingTxData
       proto.set_CovenantSignatures
       proto.set_UnbondingTxBtcConfirmationInfo
       proto.set_TrackedTransactionIdx].

(** A transition that succeeds on the stored message is committed, and
    the record read back afterwards is the decoded new message. *)
Lemma transition_then_get (db : DB) (h : chainhash.Hash)
    (f : proto.TrackedTransaction -> result proto.TrackedTransaction)
    (p p' : proto.TrackedTransaction) :
  stored_message db h p -> f p = Ok p' -> message_roundtrips p' ->
  snd (setTxState db h f) = None
  /\ stored_message (fst (setTxState db h f)) h p'
  /\ GetTransaction (fst (setTxState db h f)) h
     = protoTxToStoredTransaction p'.
Proof.
  intros (ib & tb & k & v & Hib & Htb & Hk & Hv & Hu) Hf (m & Hm & Hum).
  rewrite (setTxState_step db h f ib tb k v p Hib Htb Hk Hv Hu), Hf, Hm.
  simpl. split; [reflexivity|]. split.
  - exists ib, (kvdb.Put k m tb), k, m. simpl.
    repeat split; try assumption. apply Get_Put_same.
  - unfold GetTransaction, getTxByHash, chainhash.CloneBytes. simpl.
    rewrite Hk, Get_Put_same. simpl. rewrite Hum. reflexivity.
Qed.

Lemma transition_fails (db : DB) (h : chainhash.Hash)
    (f : proto.TrackedTransaction -> result proto.TrackedTransaction)
    (p : proto.TrackedTransaction) (e : error) :
  stored_message db h p -> f p = Err e ->
  setTxState db h f = (db, Some e).
Proof.
  intros (ib & tb & k & v & Hib & Htb & Hk & Hv & Hu) Hf.
  rewrite (setTxState_step db h f ib tb k v p Hib Htb Hk Hv Hu), Hf.
  reflexivity.
Qed.

(** X9. Confirming the staking transaction of a stored record succeeds
    whatever the record's state, and the record read back afterwards is
    the record as it was with the staking confirmation replaced by the
    given height and block hash (the last write wins);
    [SetDelegationActiveOnBabylonAndConfirmedOnBtc] is the same
    operation. *)
Theorem staking_confirmation_read_back (db : DB)
    (h blockHash : chainhash.Hash) (blockHeight : Z)
    (p : proto.TrackedTransaction) (x : StoredTransaction) :
  stored_message db h p ->
  protoTxToStoredTransaction p = Ok x ->
  chainhash.valid blockHash = true ->
  message_roundtrips
    (proto.set_StakingTxBtcConfirmationInfo p
       (Some (confirmationOf blockHash blockHeight))) ->
  let r := SetTxConfirmed db h blockHash blockHeight in
  snd r = None
  /\ GetTransaction (fst r) h
     = Ok (withStakingConfirmation x
             (Some (mkBtcConfirmationInfo blockHeight blockHash)))
  /\ SetDelegationActiveOnBabylonAndConfirmedOnBtc db h blockHash
       blockHeight = r.
Proof.
  intros Hst Hx Hvalid Hround r.
  destruct (transition_then_get db h (setTxConfirmed blockHash blockHeight)
              p _ Hst eq_refl Hround) as (Hok & _ & Hget).
  split; [exact Hok|]. split; [|reflexivity].
  unfold r, SetTxConfirmed. rewrite Hget.
  destruct (protoTx_inv p x Hx) as (tx & utd & ci & Htx & Hutd & _ & Ht & ->).
  unfold protoTxToStoredTransaction. proto_cbn.
  rewrite Htx. proto_cbn.
  destruct (proto.UnbondingTxData_ p) as [ud|].
  - destruct Hutd as (u & Hu & ->). rewrite Hu. proto_cbn.
    change (proto.mkBTCConfirmationInfo blockHeight
              (chainhash.CloneBytes blockHash))
      with (confirmationOf blockHash blockHeight).
    rewrite (confirmation_decodes _ _ Hvalid). proto_cbn. rewrite Ht.
    reflexivity.
  - subst utd. proto_cbn.
    change (proto.mkBTCConfirmationInfo blockHeight
              (chainhash.CloneBytes blockHash))
      with (confirmationOf blockHash blockHeight).
    rewrite (confirmation_decodes _ _ Hvalid). proto_cbn. rewrite Ht.
    reflexivity.
Qed.

(** X10. Confirming the unbonding transaction of a stored record without
    unbonding data fails with [ErrUnbondingDataNotFound] and changes
    nothing; with unbonding data it succeeds, and the record read back is
    the record as it was with the unbonding confirmation replaced by the
    given height and block hash. *)
Theorem unbonding_confirmation_read_back (db : DB)
    (h blockHash : chainhash.Hash) (blockHeight : Z)
    (p : proto.TrackedTransaction) (x : StoredTransaction) :
  stored_message db h p ->
  protoTxToStoredTransaction p = Ok x ->
  (UnbondingTxData x = None ->
     SetTxUnbondingConfirmedOnBtc db h blockHash blockHeight
     = (db, Some (Wrapf
          "cannot set unbonding confirmed on btc, because unbonding tx data does not exist"
          ErrUnbondingDataNotFound)))
  /\ (forall ud u,
        proto.UnbondingTxData_ p = Some ud ->
        UnbondingTxData x = Some u ->
        chainhash.valid blockHash = true ->
        message_roundtrips
          (proto.set_UnbondingTxData p
             (Some (proto.set_UnbondingTxBtcConfirmationInfo ud
                      (Some (confirmationOf blockHash blockHeight))))) ->
        let r := SetTxUnbondingConfirmedOnBtc db h blockHash blockHeight in
        snd r = None
        /\ GetTransaction (fst r) h
           = Ok (withUnbondingData x
                   (Some (withUnbondingConfirmation u
                            (Some (mkBtcConfirmationInfo blockHeight
                                     blockHash)))))).
Proof.
  intros Hst Hx.
  destruct (protoTx_inv p x Hx) as (tx & utd & ci & Htx & Hutd & Hci & Ht & ->).
  split.
  - simpl. intros ->.
    destruct (proto.UnbondingTxData_ p) as [ud|] eqn:Hud.
    { destruct Hutd as (u & _ & [=]). }
    apply (transition_fails db h _ p); [exact Hst|].
    unfold setUnbondingConfirmedOnBtc. rewrite Hud. reflexivity.
  - intros ud u Hud Hxu Hvalid Hround. cbv zeta.
    cbn [UnbondingTxData] in Hxu. subst utd.
    rewrite Hud in Hutd. destruct Hutd as (u' & Hu & [= <-]).
    assert (Hf : setUnbondingConfirmedOnBtc blockHash blockHeight p
                 = Ok (proto.set_UnbondingTxData p
                         (Some (proto.set_UnbondingTxBtcConfirmationInfo ud
                                  (Some (confirmationOf blockHash
                                           blockHeight)))))).
    { unfold setUnbondingConfirmedOnBtc. rewrite Hud. reflexivity. }
    destruct (transition_then_get db h _ p _ Hst Hf Hround)
      as (Hok & _ & Hget).
    split; [exact Hok|].
    unfold SetTxUnbondingConfirmedOnBtc. rewrite Hget.
    destruct (protoUnbonding_inv ud u Hu)
      as (utx & sigs & uci & Hutx & Hut & Hsigs & _ & ->).
    unfold protoTxToStoredTransaction. proto_cbn. rewrite Htx. proto_cbn.
    unfold protoUnbondingDataToUnbondingStoreData. proto_cbn.
    rewrite Hutx. proto_cbn. rewrite Hut, Hsigs. proto_cbn.
    change (proto.mkBTCConfirmationInfo blockHeight
              (chainhash.CloneBytes blockHash))
      with (confirmationOf blockHash blockHeight).
    rewrite (confirmation_decodes _ _ Hvalid). proto_cbn.
    rewrite Hci. proto_cbn. rewrite Ht. reflexivity.
Qed.

(** X11. Setting the covenant signatures of a stored record whose
    unbonding data has none succeeds, and the record read back carries
    exactly the given signatures, in the given order, everything else as
    it was. *)
Theorem unbonding_signatures_read_back (db : DB) (h : chainhash.Hash)
    (sigs : list PubKeySigPair)
    (p : proto.TrackedTransaction) (x : StoredTransaction)
    (ud : proto.UnbondingTxData) (u : UnbondingStoreData) :
  stored_message db h p ->
  protoTxToStoredTransaction p = Ok x ->
  proto.UnbondingTxData_ p = Some ud ->
  proto.CovenantSignatures ud = [] ->
  UnbondingTxData x = Some u ->
  Forall sig_roundtrips sigs ->
  message_roundtrips
    (proto.set_UnbondingTxData p
       (Some (proto.set_CovenantSignatures ud (covenantSigsToProto sigs)))) ->
  let r := SetTxUnbondingSignaturesReceived db h sigs in
  snd r = None
  /\ GetTransaction (fst r) h
     = Ok (withUnbondingData x (Some (withCovenantSignatures u sigs))).
Proof.
  intros Hst Hx Hud Hempty Hu Hsigs Hround r.
  destruct (protoTx_inv p x Hx) as (tx & utd & ci & Htx & Hutd & Hci & Ht & ->).
  simpl in Hu. subst utd. rewrite Hud in Hutd.
  destruct Hutd as (u' & Hdec & [= <-]).
  assert (Hf : setUnbondingSignaturesReceived sigs p
               = Ok (proto.set_UnbondingTxData p
                       (Some (proto.set_CovenantSignatures ud
                                (covenantSigsToProto sigs))))).
  { unfold setUnbondingSignaturesReceived. rewrite Hud, Hempty.
    reflexivity. }
  destruct (transition_then_get db h _ p _ Hst Hf Hround)
    as (Hok & _ & Hget).
  split; [exact Hok|].
  unfold r, SetTxUnbondingSignaturesReceived. rewrite Hget.
  destruct (protoUnbonding_inv ud u Hdec)
    as (utx & sigs0 & uci & Hutx & Hut & _ & Huci & ->).
  unfold protoTxToStoredTransaction. proto_cbn. rewrite Htx. proto_cbn.
  unfold protoUnbondingDataToUnbondingStoreData. proto_cbn.
  rewrite Hutx. proto_cbn. rewrite Hut.
  rewrite (covenantSigsFromProto_roundtrip sigs [] Hsigs). proto_cbn.
  rewrite Huci. proto_cbn. rewrite Hci. proto_cbn. rewrite Ht. reflexivity.
Qed.

(** ** What decoding accepts and what it returns *)

Lemma confirmation_decoded (c : option proto.BTCConfirmationInfo)
    (ci : option BtcConfirmationInfo) :
  protoBtcConfirmationInfoToBtcConfirmationInfo c = Ok ci ->
  conf_valid ci
  /\ match c, ci with
     | Some pc, Some d =>
         Height d = proto.BlockHeight pc
         /\ BlockHash d = proto.BlockHash pc
         /\ List.length (proto.BlockHash pc) = 32%nat
     | None, None => True
     | _, _ => False
     end.
Proof.
  destruct c as [pc|]; simpl.
  - unfold chainhash.NewHash.
    destruct (Nat.eqb _ _) eqn:Hlen; [|discriminate].
    simpl. intros [= <-]. simpl. unfold chainhash.valid.
    split; [exact Hlen|]. repeat split. apply Nat.eqb_eq, Hlen.
  - intros [= <-]. simpl. split; exact I.
Qed.

Lemma covenantSigs_decoded (l : list proto.CovenantSig)
    (acc sigs : list PubKeySigPair) :
  covenantSigsFromProto l acc = Ok sigs ->
  List.length sigs = (List.length acc + List.length l)%nat
  /\ forall c, In c l -> exists s, covenantSigFromProto c = Ok s.
Proof.
  revert acc; induction l as [|c l IH]; intros acc; simpl.
  - intros [= <-]. split; [lia | tauto].
  - destruct (covenantSigFromProto c) as [s|e] eqn:Hc; [|discriminate].
    simpl. intros H. destruct (IH _ H) as [Hlen Hall].
    rewrite length_app in Hlen. simpl in Hlen. split; [lia|].
    intros c' [<-|Hin]; [exists s; exact Hc | apply Hall, Hin].
Qed.

Lemma uint16_small (v : Z) :
  0 <= v -> (v >? MaxUint16) = false -> uint16 v = v /\ is_uint16 v = true.
Proof.
  intros H0 Hle. rewrite Z.gtb_ltb in Hle. apply Z.ltb_ge in Hle.
  unfold MaxUint16 in Hle. split.
  - unfold uint16. apply Z.mod_small.
    change (2 ^ 16) with 65536. lia.
  - unfold is_uint16, MaxUint16. apply andb_true_intro.
    split; apply Z.leb_le; lia.
Qed.

(** X12. Decoding never truncates and never invents: a record that
    [protoTxToStoredTransaction] returns has the index, output index,
    address and delegation reference of the message, its staking time
    equal to the message's and within 16 bits, block hashes of 32 bytes
    with the heights of the message, and unbonding data exactly when the
    message has it, with the message's unbonding time and as many
    signatures as the message holds. *)
Theorem decoded_record_faithful (p : proto.TrackedTransaction)
    (x : StoredTransaction) :
  protoTxToStoredTransaction p = Ok x ->
  0 <= proto.StakingTime p ->
  (forall ud, proto.UnbondingTxData_ p = Some ud ->
              0 <= proto.UnbondingTime ud) ->
  StoredTransactionIdx x = proto.TrackedTransactionIdx p
  /\ StakingOutputIndex x = proto.StakingOutputIdx p
  /\ StakerAddress x = proto.StakerAddress p
  /\ BabylonBTCDelegationTxHash x = proto.BabylonBTCDelegationTxHash p
  /\ StakingTime x = proto.StakingTime p
  /\ is_uint16 (StakingTime x) = true
  /\ conf_valid (StakingTxConfirmationInfo x)
  /\ match proto.StakingTxBtcConfirmationInfo p,
           StakingTxConfirmationInfo x with
     | Some pc, Some d =>
         Height d = proto.BlockHeight pc /\ BlockHash d = proto.BlockHash pc
     | None, None => True
     | _, _ => False
     end
  /\ match proto.UnbondingTxData_ p, UnbondingTxData x with
     | Some ud, Some u =>
         UnbondingTime u = proto.UnbondingTime ud
         /\ is_uint16 (UnbondingTime u) = true
         /\ conf_valid (UnbondingTxConfirmationInfo u)
         /\ List.length (CovenantSignatures u)
            = List.length (proto.CovenantSignatures ud)
     | None, None => True
     | _, _ => False
     end.
Proof.
  intros Hx Hst Hut.
  destruct (protoTx_inv p x Hx) as (tx & utd & ci & _ & Hutd & Hci & Ht & ->).
  destruct (uint16_small _ Hst Ht) as [Heq Hr].
  destruct (confirmation_decoded _ _ Hci) as [Hvalid Hmatch].
  cbn [StoredTransactionIdx StakingOutputIndex StakerAddress
       BabylonBTCDelegationTxHash StakingTime StakingTxConfirmationInfo
       UnbondingTxData].
  rewrite Heq. repeat (split; [reflexivity || assumption|]).
  split.
  - destruct (proto.StakingTxBtcConfirmationInfo p), ci; try tauto.
  - destruct (proto.UnbondingTxData_ p) as [ud|] eqn:Hud.
    + destruct Hutd as (u & Hu & ->).
      destruct (protoUnbonding_inv ud u Hu)
        as (utx & sigs & uci & _ & Hle & Hsigs & Huci & ->).
      destruct (uint16_small _ (Hut ud eq_refl) Hle) as [Hueq Hur].
      destruct (confirmation_decoded _ _ Huci) as [Huvalid _].
      destruct (covenantSigs_decoded _ _ _ Hsigs) as [Hlen _].
      simpl. rewrite Hueq. repeat split; assumption.
    + subst utd. exact I.
Qed.

(** X13. Decoding fails closed: a message whose staking or unbonding time
    exceeds 65535, one of whose block hashes is not 32 bytes long, or one
    of whose covenant signatures or keys does not parse, is not decoded
    into a record. *)
Theorem malformed_message_rejected (p : proto.TrackedTransaction) :
  proto.StakingTime p > MaxUint16
  \/ (exists pc, proto.StakingTxBtcConfirmationInfo p = Some pc
                 /\ List.length (proto.BlockHash pc) <> 32%nat)
  \/ (exists ud,
        proto.UnbondingTxData_ p = Some ud
        /\ (proto.UnbondingTime ud > MaxUint16
            \/ (exists pc, proto.UnbondingTxBtcConfirmationInfo ud = Some pc
                           /\ List.length (proto.BlockHash pc) <> 32%nat)
            \/ (exists c e, In c (proto.CovenantSignatures ud)
                            /\ covenantSigFromProto c = Err e))) ->
  exists e, protoTxToStoredTransaction p = Err e.
Proof.
  intros Hbad.
  destruct (protoTxToStoredTransaction p) as [x|e] eqn:Hx;
    [exfalso | exists e; reflexivity].
  destruct (protoTx_inv p x Hx) as (tx & utd & ci & _ & Hutd & Hci & Ht & _).
  rewrite Z.gtb_ltb in Ht. apply Z.ltb_ge in Ht.
  destruct Hbad as [Hbig|[(pc & Hpc & Hlen)|(ud & Hud & Hbad)]].
  - lia.
  - rewrite Hpc in Hci. destruct (confirmation_decoded _ _ Hci) as [_ Hm].
    destruct ci; [|exact Hm]. destruct Hm as (_ & _ & Hl). congruence.
  - rewrite Hud in Hutd. destruct Hutd as (u & Hu & _).
    destruct (protoUnbonding_inv ud u Hu)
      as (utx & sigs & uci & _ & Hle & Hsigs & Huci & _).
    rewrite Z.gtb_ltb in Hle. apply Z.ltb_ge in Hle.
    destruct Hbad as [Hbig|[(pc & Hpc & Hlen)|(c & e & Hin & Hc)]].
    + lia.
    + rewrite Hpc in Huci.
      destruct (confirmation_decoded _ _ Huci) as [_ Hm].
      destruct uci; [|exact Hm]. destruct Hm as (_ & _ & Hl). congruence.
    + destruct (covenantSigs_decoded _ _ _ Hsigs) as [_ Hall].
      destruct (Hall c Hin) as (s & Hs). congruence.
Qed.

(** ** The time lock over time *)

Lemma withdrawable_reference_exact (t : StoredTransaction) (best : Z) :
  in_range t = true -> is_uint32 best = true ->
  withdrawable (mkWithdrawableTransactionsFilter best) t
  = match withdrawableReference t with
    | Some (height, lock) => best + 1 - height - lock >=? 0
    | None => false
    end.
Proof.
  intros Hr Hb. unfold withdrawable. cbn [currentBestBlockHeight].
  destruct (withdrawableReference t) as [[height lock]|] eqn:Href;
    [|reflexivity].
  unfold in_range in Hr.
  apply andb_prop in Hr as [Hr Hu]. apply andb_prop in Hr as [Hst Hsc].
  unfold withdrawableReference, StakingTxConfirmedOnBtc,
    UnbondingTxConfirmedOnBtc in Href.
  destruct (StakingTxConfirmationInfo t) as [ci|]; [|discriminate].
  destruct (UnbondingTxData t) as [u|].
  - apply andb_prop in Hu as [Hut Huc].
    destruct (UnbondingTxConfirmationInfo u) as [uci|]; simpl in Href;
      injection Href as <- <-; apply isTimeLockExpired_exact; assumption.
  - simpl in Href. injection Href as <- <-.
    apply isTimeLockExpired_exact; assumption.
Qed.

(** X14. Expiry is permanent: a record that the withdrawable filter
    accepts at one best height is accepted at every later best height. *)
Theorem withdrawable_monotone (t : StoredTransaction) (best best' : Z) :
  in_range t = true -> is_uint32 best = true -> is_uint32 best' = true ->
  best <= best' ->
  withdrawable (mkWithdrawableTransactionsFilter best) t = true ->
  withdrawable (mkWithdrawableTransactionsFilter best') t = true.
Proof.
  intros Hr Hb Hb' Hle.
  rewrite !withdrawable_reference_exact by assumption.
  destruct (withdrawableReference t) as [[height lock]|]; [|discriminate].
  rewrite !Z.geb_leb. intros H. apply Z.leb_le in H. apply Z.leb_le. lia.
Qed.

(** ** A record that is not stored yet *)

(** X15. [CreateTrackedTransaction] of a transaction that the wire codec
    reproduces, with a staking time within 16 bits, returns the record
    with index 0, that transaction, the given output index, staking time
    and encoded address, no confirmation, no unbonding data and an empty
    delegation reference; it fails when the transaction does not
    serialise. *)
Theorem created_record (btcTx : wire.MsgTx) (outIdx stakingTime : Z)
    (addr : btcutil.Address) :
  (tx_roundtrips btcTx -> is_uint16 stakingTime = true ->
     CreateTrackedTransaction btcTx outIdx stakingTime addr
     = Ok (mkStoredTransaction 0 btcTx outIdx None stakingTime
             (btcutil.EncodeAddress addr) None EmptyString))
  /\ (forall e, SerializeBtcTransaction btcTx = Err e ->
        CreateTrackedTransaction btcTx outIdx stakingTime addr = Err e).
Proof.
  split.
  - intros (s & Hs & Hd) Ht. unfold CreateTrackedTransaction.
    rewrite Hs. cbn [bind]. unfold protoTxToStoredTransaction. proto_cbn.
    rewrite Hd. proto_cbn. cbn [protoBtcConfirmationInfoToBtcConfirmationInfo].
    proto_cbn. rewrite (uint32_small_le _ Ht), (uint16_uint32 _ Ht).
    reflexivity.
  - intros e He. unfold CreateTrackedTransaction. rewrite He. reflexivity.
Qed.

(** ** The page parameters *)

(** X16. [getPageParams] fails exactly when the limit or the offset is
    given and negative (the limit is looked at first); otherwise the
    offset is the given one or 0, and the limit is the given one or 50,
    capped at 100. *)
Theorem page_params_bounds (offsetPtr limitPtr : option Z) :
  opt_int64 offsetPtr = true -> opt_int64 limitPtr = true ->
  let negative (v : option Z) :=
    match v with Some x => x <? 0 | None => false end in
  match stakerservice.getPageParams offsetPtr limitPtr with
  | Ok pp =>
      negative limitPtr = false /\ negative offsetPtr = false
      /\ stakerservice.Offset pp
         = match offsetPtr with Some o => o | None => 0 end
      /\ stakerservice.Limit pp
         = match limitPtr with Some l => Z.min l 100 | None => 50 end
      /\ 0 <= stakerservice.Limit pp <= 100
  | Err e =>
      (negative limitPtr = true /\ e = Errorf "limit cannot be negative")
      \/ (negative limitPtr = false /\ negative offsetPtr = true
          /\ e = Errorf "offset cannot be negative")
  end.
Proof.
  intros Ho Hl negative. unfold stakerservice.getPageParams, negative.
  assert (Hwrap : forall v, is_int64 v = true -> 0 <= v -> wrap64 v = v).
  { intros v Hv H0. unfold is_int64 in Hv. apply andb_prop in Hv as [_ Hv].
    apply Z.ltb_lt in Hv. unfold wrap64. apply Z.mod_small.
    change (2 ^ 63) with 9223372036854775808 in Hv.
    change (2 ^ 64) with 18446744073709551616. lia. }
  destruct limitPtr as [l|]; simpl in Hl.
  - destruct (Z.ltb_spec l 0) as [Hneg|Hpos]; cbn [bind].
    + left. split; reflexivity.
    + rewrite (Hwrap l Hl Hpos).
      destruct offsetPtr as [o|]; simpl in Ho.
      * destruct (Z.geb_spec o 0) as [Hopos|Honeg]; cbn [bind].
        -- rewrite (Hwrap o Ho Hopos). cbn [stakerservice.Offset
             stakerservice.Limit]. unfold stakerservice.maxLimit.
           destruct (Z.ltb_spec o 0); [lia|].
           destruct (Z.gtb_spec l 100); repeat split; lia.
        -- right. destruct (Z.ltb_spec o 0); [|lia].
           repeat split.
      * cbn [bind stakerservice.Offset stakerservice.Limit].
        unfold stakerservice.maxLimit, stakerservice.defaultOffset.
        destruct (Z.gtb_spec l 100); repeat split; lia.
  - cbn [bind]. unfold stakerservice.defaultLimit, stakerservice.maxLimit.
    destruct offsetPtr as [o|]; simpl in Ho.
    + destruct (Z.geb_spec o 0) as [Hopos|Honeg]; cbn [bind].
      * rewrite (Hwrap o Ho Hopos). destruct (Z.ltb_spec o 0); [lia|].
        simpl. repeat split; lia.
      * right. destruct (Z.ltb_spec o 0); [|lia]. repeat split.
    + simpl. repeat split; lia.
Qed.

(** ** Indices over whole histories *)

Lemma Put_present_keys (k v : bytes) (b : kvdb.Bucket) :
  kvdb.sorted b = true -> kvdb.Get k b <> None ->
  kvdb.keys (kvdb.Put k v b) = kvdb.keys b.
Proof.
  intros Hs. pose proof (sorted_StronglySorted b Hs) as Hss. clear Hs.
  induction Hss as [|[k1 v1] r Hr IH Hall]; simpl; [congruence|].
  destruct (bytes_compare k k1) eqn:Hc; simpl.
  - apply bytes_compare_eq_iff in Hc. subst. reflexivity.
  - intros Hget. exfalso.
    destruct (kvdb.Get k r) as [v'|] eqn:Hg; [|congruence].
    apply Get_Some_In in Hg. rewrite Forall_forall in Hall.
    specialize (Hall _ Hg). simpl in Hall.
    pose proof (bytes_compare_lt_trans _ _ _ Hc Hall) as Hkk.
    rewrite bytes_compare_refl in Hkk. discriminate.
  - intros Hget. rewrite IH by exact Hget. reflexivity.
Qed.

Lemma insertions_snoc (db : DB) (ops : list Op) (o : Op) :
  insertions db (ops ++ [o])
  = (insertions db ops
     + match o with
       | OpInsert a =>
           match snd (Insert (run db ops) a) with
           | None => 1
           | Some _ => 0
           end
       | _ => 0
       end)%nat.
Proof.
  revert db; induction ops as [|o' ops IH]; intros db.
  - simpl. lia.
  - cbn [app insertions]. rewrite IH. unfold run. simpl fold_left. lia.
Qed.

Lemma insertions_le (db : DB) (ops : list Op) :
  (insertions db ops <= List.length ops)%nat.
Proof.
  revert db; induction ops as [|o ops IH]; intros db; simpl; [lia|].
  specialize (IH (fst (step db o))).
  destruct o as [a| | | |]; try lia.
  destruct (snd (Insert db a)); lia.
Qed.

Lemma keys_in_range (tb : kvdb.Bucket) (n : nat) :
  kvdb.keys tb = map uint64KeyToBytes (map Z.of_nat (seq 1 n)) ->
  Forall (fun kv => exists i, 1 <= i <= Z.of_nat n
                              /\ fst kv = uint64KeyToBytes i) tb.
Proof.
  intros Hkeys. apply Forall_forall. intros kv Hin.
  assert (Hk : In (fst kv) (kvdb.keys tb)) by (apply in_map, Hin).
  rewrite Hkeys, map_map in Hk. apply in_map_iff in Hk as (i & Hi & Hin').
  apply in_seq in Hin'. exists (Z.of_nat i). split; [lia | auto].
Qed.

Lemma holds_indices_setTxState (db : DB) (h : chainhash.Hash)
    (f : proto.TrackedTransaction -> result proto.TrackedTransaction)
    (n : nat) :
  holds_indices db n -> holds_indices (fst (setTxState db h f)) n.
Proof.
  intros (tb & ib & Htb & Hib & Hinb & Hkeys & Hsorted & Hnext).
  assert (Hsame : forall db', db' = db -> holds_indices db' n).
  { intros db' ->. exists tb, ib. auto 10. }
  destruct (kvdb.Get h ib) as [key|] eqn:Hk.
  2:{ apply Hsame.
      rewrite (proj1 (setTxState_errors db ib tb h f Hib Htb) Hk).
      reflexivity. }
  destruct (kvdb.Get key tb) as [v|] eqn:Hv.
  2:{ apply Hsame.
      rewrite (proj1 (proj2 (setTxState_errors db ib tb h f Hib Htb))
                 key Hk Hv). reflexivity. }
  destruct (Unmarshal v) as [p|e] eqn:Hu.
  2:{ apply Hsame.
      rewrite (proj2 (proj2 (setTxState_errors db ib tb h f Hib Htb))
                 key v e Hk Hv Hu). reflexivity. }
  rewrite (setTxState_step db h f ib tb key v p Hib Htb Hk Hv Hu).
  destruct (f p) as [p'|e]; [|apply Hsame; reflexivity].
  destruct (Marshal p') as [m|e]; [|apply Hsame; reflexivity].
  cbn [fst]. eexists. eexists.
  split; [reflexivity|]. split; [reflexivity|]. split; [exact Hinb|].
  split; [|split; [apply Put_sorted, Hsorted | exact Hnext]].
  rewrite Put_present_keys; [exact Hkeys | exact Hsorted|].
  rewrite Hv. discriminate.
Qed.

Lemma holds_indices_step (db : DB) (o : Op) (n : nat) :
  Z.of_nat n + 1 < MaxUint64 ->
  holds_indices db n ->
  holds_indices (fst (step db o))
    (n + match o with
         | OpInsert a =>
             match snd (Insert db a) with None => 1 | Some _ => 0 end
         | _ => 0
         end).
Proof.
  intros Hn Hdb.
  destruct o as [a|x bh ht|x bh ht|x sigs|x bh ht].
  2-5: rewrite Nat.add_0_r; apply holds_indices_setTxState; exact Hdb.
  destruct Hdb as (tb & ib & Htb & Hib & Hinb & Hkeys & Hsorted & Hnext).
  unfold MaxUint64 in Hn. change (2 ^ 64) with 18446744073709551616 in Hn.
  simpl step. destruct (Insert_inv db a) as [[Hdb Herr]|Hok].
  - destruct (snd (Insert db a)); [|congruence].
    rewrite Hdb, Nat.add_0_r. exists tb, ib. auto 10.
  - destruct Hok as (tb' & ib' & inb & u & n' & s & su & m & Htb' & Hib'
                     & Hinb' & _ & _ & _ & _ & Hn' & _ & Hins).
    rewrite Htb in Htb'; injection Htb' as <-.
    rewrite Hib in Hib'; injection Hib' as <-.
    rewrite Hnext in Hn'; injection Hn' as <-.
    rewrite Hins. cbn [fst snd]. unfold insertedDB.
    pose proof (keys_in_range tb n Hkeys) as Hrange.
    assert (Happ : kvdb.Put (uint64KeyToBytes (Z.of_nat n + 1)) m tb
                   = tb ++ [(uint64KeyToBytes (Z.of_nat n + 1), m)]).
    { apply Put_append. eapply Forall_impl; [|exact Hrange].
      intros kv (i & Hi & ->). unfold uint64KeyToBytes.
      rewrite PutUint64_compare
        by (change (2 ^ 64) with 18446744073709551616; lia).
      apply Z.compare_gt_iff. lia. }
    rewrite Happ. eexists. eexists.
    split; [reflexivity|]. split; [reflexivity|].
    split; [discriminate|]. split; [|split].
    + unfold kvdb.keys in *. rewrite map_app, Hkeys.
      rewrite Nat.add_1_r, seq_S, !map_app. cbn [map fst].
      do 3 f_equal. lia.
    + apply sorted_app_last; [exact Hsorted|].
      eapply Forall_impl; [|exact Hrange].
      intros kv (i & Hi & ->). unfold uint64KeyToBytes.
      rewrite PutUint64_compare
        by (change (2 ^ 64) with 18446744073709551616; lia).
      apply Z.compare_lt_iff. lia.
    + replace (Z.of_nat (n + 1) + 1)
        with (wrap64 (Z.of_nat n + 1 + 1)); [apply nextTxKey_Put|].
      unfold wrap64. rewrite Z.mod_small;
        change (2 ^ 64) with 18446744073709551616; lia.
Qed.

Lemma history_holds_indices (ops : list Op) :
  Z.of_nat (List.length ops) < MaxUint64 ->
  holds_indices (run newStore ops) (insertions newStore ops).
Proof.
  induction ops as [|o ops IH] using rev_ind; intros Hlen.
  - exists [], []. repeat split; try reflexivity. discriminate.
  - rewrite length_app in Hlen. simpl List.length in Hlen.
    rewrite run_snoc, insertions_snoc.
    pose proof (insertions_le newStore ops) as Hle.
    apply holds_indices_step; [lia | apply IH; lia].
Qed.

(** X17. Indices stay contiguous over every history: in the store that
    any sequence of insertions and transitions (of fewer than 2^64 - 1
    operations) reaches from a new store, the primary bucket holds
    exactly the keys of the indices 1..n in ascending order, n being the
    number of insertions that succeeded, and the counter reads n + 1;
    failed operations and transitions neither add nor remove an index. *)
Theorem history_indices_contiguous (ops : list Op) :
  Z.of_nat (List.length ops) < MaxUint64 ->
  let n := insertions newStore ops in
  exists tb ib,
    transactionBucket (run newStore ops) = Some tb
    /\ transactionIndex (run newStore ops) = Some ib
    /\ kvdb.keys tb = map uint64KeyToBytes (map Z.of_nat (seq 1 n))
    /\ nextTxKey ib = Ok (Z.of_nat n + 1)
    /\ getNumTx ib = Ok (Z.of_nat n).
Proof.
  intros Hlen n.
  destruct (history_holds_indices ops Hlen)
    as (tb & ib & Htb & Hib & _ & Hkeys & _ & Hnext).
  exists tb, ib. repeat (split; [assumption|]).
  apply getNumTx_of_next; [|exact Hnext].
  pose proof (insertions_le newStore ops).
  unfold MaxUint64 in Hlen. change (2 ^ 64) with 18446744073709551616 in *.
  fold n in H. lia.
Qed.

(** X18. The total that a query reports is the number of stored records,
    whatever the offset, the limit, the direction and the filter, and
    whether or not the page could be read: after any history with n
    successful insertions it is n; and on a store without records every
    query returns the empty page and no error. *)
Theorem query_total (ops : list Op) (q : StoredTransactionQuery) :
  Z.of_nat (List.length ops) < MaxUint64 ->
  let n := insertions newStore ops in
  Total (fst (QueryStoredTransactions (run newStore ops) q)) = Z.of_nat n
  /\ (n = 0%nat ->
      QueryStoredTransactions (run newStore ops) q = (emptyResult, None)).
Proof.
  intros Hlen n.
  destruct (history_holds_indices ops Hlen)
    as (tb & ib & Htb & Hib & _ & _ & _ & Hnext).
  pose proof (insertions_le newStore ops) as Hle. fold n in Hnext, Hle.
  assert (Hnum : getNumTx ib = Ok (Z.of_nat n)).
  { apply getNumTx_of_next; [|exact Hnext].
    unfold MaxUint64 in Hlen.
    change (2 ^ 64) with 18446744073709551616 in *. lia. }
  unfold QueryStoredTransactions. rewrite Htb, Hib, Hnum.
  destruct (Z.eqb_spec (Z.of_nat n) 0) as [H0|Hpos].
  - split; [simpl; lia | reflexivity].
  - split; [|lia].
    destruct (paginator_query _ _ _) as [txs [e|]]; reflexivity.
Qed.

(** ** Where a scan stops *)

(** X19. A scan visits the records in key order and stops at the first
    failure: if the records before a pair decode and the visitor accepts
    them, then a value that does not unmarshal ends the scan with
    [ErrCorruptedTransactionsDB], a message that does not decode ends it
    with the decoding error, and an error of the visitor on the decoded
    record ends it with that error; in each case the pairs after it are
    not looked at. *)
Theorem scan_stops_at_first_error {S : Type} (db : DB)
    (pre post : kvdb.Bucket) (k v : bytes)
    (recs : list StoredTransaction)
    (f : S -> StoredTransaction -> S * option error) (s s' : S) :
  transactionBucket db = Some (pre ++ (k, v) :: post) ->
  Forall2 (fun kv x => decodeRecord (snd kv) = Ok x) pre recs ->
  visitAll f recs s = (s', None) ->
  (forall e, Unmarshal v = Err e ->
     ScanTrackedTransactions db f s = (s', Some ErrCorruptedTransactionsDB))
  /\ (forall p e, Unmarshal v = Ok p ->
        protoTxToStoredTransaction p = Err e ->
        ScanTrackedTransactions db f s = (s', Some e))
  /\ (forall x s'' e, decodeRecord v = Ok x -> f s' x = (s'', Some e) ->
        ScanTrackedTransactions db f s = (s'', Some e)).
Proof.
  intros Htb HF. unfold ScanTrackedTransactions. rewrite Htb. clear Htb.
  revert s. induction HF as [|[k0 v0] x0 pre recs Hd HF IH]; intros s Hvisit.
  - simpl in Hvisit. injection Hvisit as <-. simpl. repeat split.
    + intros e ->. reflexivity.
    + intros p e -> ->. reflexivity.
    + intros x s'' e Hx Hf.
      apply decodeRecord_Ok in Hx as (p & -> & ->). rewrite Hf.
      reflexivity.
  - simpl in Hvisit. destruct (f s x0) as [s1 [e1|]] eqn:Hf0;
      [discriminate|].
    apply decodeRecord_Ok in Hd as (p0 & Hu0 & Hp0). simpl in Hu0.
    simpl. rewrite Hu0, Hp0, Hf0. apply IH, Hvisit.
Qed.

(** ** When an insertion succeeds *)

(** X20. An insertion succeeds exactly when the three buckets exist, the
    unbonding transaction is given, both transactions serialise, the hash
    of the staking transaction is not in the hash index, the counter is
    readable and the message marshals; it then commits the record, the
    hash entry, the outpoints and the advanced counter together.  The
    outpoint index is written but never consulted: its content does not
    change the outcome, so a transaction that spends an outpoint already
    marked as used is accepted. *)
Theorem insert_succeeds_iff (db : DB) (a : InsertArgs) :
  (snd (Insert db a) = None
   <-> exists tb ib inb u n s su m,
         transactionBucket db = Some tb
         /\ transactionIndex db = Some ib
         /\ inputsDataBucket db = Some inb
         /\ a_unbondingTx a = Some u
         /\ SerializeBtcTransaction (a_btcTx a) = Ok s
         /\ SerializeBtcTransaction u = Ok su
         /\ kvdb.Get (TxHash (a_btcTx a)) ib = None
         /\ nextTxKey ib = Ok n
         /\ Marshal (insertedMessage a n s su) = Ok m
         /\ fst (Insert db a) = insertedDB a n m tb ib inb)
  /\ (forall inb inb',
        inputsDataBucket db = Some inb ->
        snd (Insert (mkDB (transactionBucket db) (transactionIndex db)
                       (Some inb')) a)
        = snd (Insert db a)).
Proof.
  split.
  - split.
    + intros Hok. destruct (Insert_inv db a) as [[_ Herr]|Hsucc];
        [congruence|].
      destruct Hsucc as (tb & ib & inb & u & n & s & su & m & H).
      exists tb, ib, inb, u, n, s, su, m.
      destruct H as (H1 & H2 & H3 & H4 & H5 & H6 & H7 & H8 & H9 & Hins).
      rewrite Hins. auto 12.
    + intros (tb & ib & inb & u & n & s & su & m & H1 & H2 & H3 & H4 & H5
              & H6 & H7 & H8 & H9 & _).
      rewrite (Insert_success db a tb ib inb u n s su m) by assumption.
      reflexivity.
  - intros inb inb' Hinb.
    unfold Insert, AddTransactionSentToBabylon.
    destruct (SerializeBtcTransaction (a_btcTx a)) as [s|e]; [|reflexivity].
    destruct (newInitialUnbondingTxData _ _) as [upd|e]; [|reflexivity].
    rewrite getInputData_eq.
    unfold addTransactionInternal, Batch. cbn [transactionIndex
      transactionBucket inputsDataBucket].
    destruct (transactionIndex db) as [ib|]; [|reflexivity].
    destruct (kvdb.Get (TxHash (a_btcTx a)) ib); [reflexivity|].
    destruct (transactionBucket db) as [tb|]; [|reflexivity].
    unfold saveTrackedTransaction.
    destruct (nextTxKey ib) as [n|e]; [|reflexivity]. cbn [bind].
    destruct (Marshal _) as [m|e]; [|reflexivity]. cbn [bind].
    cbn [inputsDataBucket]. rewrite Hinb. reflexivity.
Qed.

End MoreProperties.

(** * The further properties on the sample instance *)

Lemma index_key_order_witness :
  is_uint64 1 = true /\ is_uint64 2 = true
  /\ bytes_compare (uint64KeyToBytes 1) (uint64KeyToBytes 2) = Lt.
Proof.
  split; [reflexivity|]. split; [reflexivity|].
  destruct (index_key_order 1 2 eq_refl eq_refl) as (_ & _ & Hcmp & _).
  exact Hcmp.
Defined.

Lemma outpoint_key_injective_witness :
  wire.valid_outpoint (wire.mkOutPoint (hashOf 1) 0) = true
  /\ wire.valid_outpoint (wire.mkOutPoint (hashOf 1) 1) = true
  /\ exists k, outpointBytes (wire.mkOutPoint (hashOf 1) 0) = Ok k
               /\ List.length k = 36%nat.
Proof.
  split; [reflexivity|]. split; [reflexivity|].
  exact (proj1 (outpoint_key_injective (wire.mkOutPoint (hashOf 1) 0)
                  (wire.mkOutPoint (hashOf 1) 1) eq_refl eq_refl)).
Defined.

Lemma insert_failure_changes_nothing_witness :
  snd (Insert store1 (argsOf 1)) <> None
  /\ fst (Insert store1 (argsOf 1)) = store1.
Proof.
  assert (H : snd (Insert store1 (argsOf 1)) <> None)
    by (vm_compute; discriminate).
  split; [exact H|].
  exact (insert_failure_changes_nothing store1 (argsOf 1) H).
Defined.

Lemma insert_twice_refused_witness :
  snd (Insert newStore (argsOf 1)) = None
  /\ Insert store1 (argsOf 1) = (store1, Some ErrDuplicateTransaction).
Proof.
  assert (H : snd (Insert newStore (argsOf 1)) = None)
    by (vm_compute; reflexivity).
  split; [exact H|].
  exact (insert_twice_refused newStore (argsOf 1) H).
Defined.

Lemma transition_on_missing_record_witness :
  transactionIndex store1 = Some (indexOf store1)
  /\ transactionBucket store1 = Some (primaryOf store1)
  /\ kvdb.Get (TxHash (stakingTxOf 2)) (indexOf store1) = None
  /\ SetTxConfirmed store1 (TxHash (stakingTxOf 2)) (hashOf 9) 100
     = (store1, Some ErrTransactionNotFound).
Proof.
  assert (H1 : transactionIndex store1 = Some (indexOf store1))
    by (vm_compute; reflexivity).
  assert (H2 : transactionBucket store1 = Some (primaryOf store1))
    by (vm_compute; reflexivity).
  assert (H3 : kvdb.Get (TxHash (stakingTxOf 2)) (indexOf store1) = None)
    by (vm_compute; reflexivity).
  split; [exact H1|]. split; [exact H2|]. split; [exact H3|].
  destruct (transition_on_missing_record store1 (indexOf store1)
              (primaryOf store1) (TxHash (stakingTxOf 2)) (hashOf 9) 100 []
              H1 H2) as [Hmissing _].
  exact (proj1 (Hmissing H3)).
Defined.

Lemma inserted_records_read_back_witness :
  insertAll newStore [argsOf 1; argsOf 2; argsOf 3] = Some store3
  /\ Forall (fun a => chainhash.valid (TxHash (a_btcTx a)) = true)
       [argsOf 1; argsOf 2; argsOf 3]
  /\ GetTransaction store3 (TxHash (stakingTxOf 1)) = Ok record1.
Proof.
  assert (Hrun : insertAll newStore [argsOf 1; argsOf 2; argsOf 3]
                 = Some store3) by (vm_compute; reflexivity).
  assert (Hhash : Forall (fun a => chainhash.valid (TxHash (a_btcTx a)) = true)
                    [argsOf 1; argsOf 2; argsOf 3])
    by (repeat constructor).
  split; [exact Hrun|]. split; [exact Hhash|].
  refine (proj1 (inserted_records_read_back _ store3 Hrun _ Hhash
                   three_records_valid (argsOf 1) 1 record1 _ eq_refl)).
  - reflexivity.
  - left. reflexivity.
Defined.

Lemma store1_message : stored_message store1 (TxHash (stakingTxOf 1)) message1.
Proof.
  exists (indexOf store1), (primaryOf store1), (uint64KeyToBytes 1),
    (put_tracked message1).
  repeat split; vm_compute; reflexivity.
Defined.

Ltac solve_message_roundtrips_here :=
  match goal with
  | |- message_roundtrips ?m =>
      exists (put_tracked m); split; [reflexivity | vm_compute; reflexivity]
  end.

Lemma staking_confirmation_read_back_witness :
  stored_message store1 (TxHash (stakingTxOf 1)) message1
  /\ protoTxToStoredTransaction message1 = Ok record1
  /\ chainhash.valid (hashOf 9) = true
  /\ GetTransaction
       (fst (SetTxConfirmed store1 (TxHash (stakingTxOf 1)) (hashOf 9) 100))
       (TxHash (stakingTxOf 1))
     = Ok (withStakingConfirmation record1
             (Some (mkBtcConfirmationInfo 100 (hashOf 9)))).
Proof.
  assert (Hx : protoTxToStoredTransaction message1 = Ok record1)
    by (vm_compute; reflexivity).
  split; [exact store1_message|]. split; [exact Hx|].
  split; [reflexivity|].
  refine (proj1 (proj2 (staking_confirmation_read_back store1
                          (TxHash (stakingTxOf 1)) (hashOf 9) 100 message1
                          record1 store1_message Hx eq_refl _))).
  solve_message_roundtrips_here.
Defined.

Lemma unbonding_confirmation_read_back_witness :
  stored_message store1 (TxHash (stakingTxOf 1)) message1
  /\ protoTxToStoredTransaction message1 = Ok record1
  /\ GetTransaction
       (fst (SetTxUnbondingConfirmedOnBtc store1 (TxHash (stakingTxOf 1))
               (hashOf 8) 120))
       (TxHash (stakingTxOf 1))
     = Ok (withUnbondingData record1
             (Some (withUnbondingConfirmation unbondingRecord1
                      (Some (mkBtcConfirmationInfo 120 (hashOf 8)))))).
Proof.
  assert (Hx : protoTxToStoredTransaction message1 = Ok record1)
    by (vm_compute; reflexivity).
  split; [exact store1_message|]. split; [exact Hx|].
  destruct (unbonding_confirmation_read_back store1 (TxHash (stakingTxOf 1))
              (hashOf 8) 120 message1 record1 store1_message Hx)
    as [_ Hset].
  refine (proj2 (Hset unbonding1 unbondingRecord1 eq_refl eq_refl eq_refl _)).
  solve_message_roundtrips_here.
Defined.

Lemma unbonding_signatures_read_back_witness :
  stored_message store1 (TxHash (stakingTxOf 1)) message1
  /\ Forall sig_roundtrips [pairOf 1; pairOf 2]
  /\ GetTransaction
       (fst (SetTxUnbondingSignaturesReceived store1 (TxHash (stakingTxOf 1))
               [pairOf 1; pairOf 2]))
       (TxHash (stakingTxOf 1))
     = Ok (withUnbondingData record1
             (Some (withCovenantSignatures unbondingRecord1
                      [pairOf 1; pairOf 2]))).
Proof.
  assert (Hx : protoTxToStoredTransaction message1 = Ok record1)
    by (vm_compute; reflexivity).
  assert (Hsigs : Forall sig_roundtrips [pairOf 1; pairOf 2])
    by (repeat constructor; vm_compute; reflexivity).
  split; [exact store1_message|]. split; [exact Hsigs|].
  refine (proj2 (unbonding_signatures_read_back store1
                   (TxHash (stakingTxOf 1)) [pairOf 1; pairOf 2] message1
                   record1 unbonding1 unbondingRecord1 store1_message Hx
                   eq_refl eq_refl eq_refl Hsigs _)).
  solve_message_roundtrips_here.
Defined.

Lemma decoded_record_faithful_witness :
  protoTxToStoredTransaction message1 = Ok record1
  /\ StakingTime record1 = proto.StakingTime message1
  /\ is_uint16 (StakingTime record1) = true.
Proof.
  assert (Hx : protoTxToStoredTransaction message1 = Ok record1)
    by (vm_compute; reflexivity).
  split; [exact Hx|].
  assert (H0 : 0 <= proto.StakingTime message1) by (vm_compute; discriminate).
  assert (Hu : forall ud, proto.UnbondingTxData_ message1 = Some ud ->
                          0 <= proto.UnbondingTime ud).
  { intros ud [= <-]. vm_compute. discriminate. }
  destruct (decoded_record_faithful message1 record1 Hx H0 Hu)
    as (_ & _ & _ & _ & Ht & Hr & _).
  split; [exact Ht | exact Hr].
Defined.

Lemma malformed_message_rejected_witness :
  exists e,
    protoTxToStoredTransaction
      (proto.mkTrackedTransaction 1 (put_tx (stakingTxOf 1)) 0 None 70000
         "bcrt1staker" None "delegation")
    = Err e.
Proof.
  apply malformed_message_rejected. left. reflexivity.
Defined.

Lemma withdrawable_monotone_witness :
  in_range confirmedRecord = true
  /\ withdrawable (mkWithdrawableTransactionsFilter 109) confirmedRecord = true
  /\ withdrawable (mkWithdrawableTransactionsFilter 200) confirmedRecord = true.
Proof.
  assert (H : withdrawable (mkWithdrawableTransactionsFilter 109)
                confirmedRecord = true) by reflexivity.
  split; [reflexivity|]. split; [exact H|].
  apply (withdrawable_monotone confirmedRecord 109 200 eq_refl eq_refl eq_refl);
    [lia | exact H].
Defined.

Lemma created_record_witness :
  tx_roundtrips (stakingTxOf 1)
  /\ CreateTrackedTransaction (stakingTxOf 1) 0 1000
       (btcutil.mkAddress "bcrt1staker")
     = Ok (mkStoredTransaction 0 (stakingTxOf 1) 0 None 1000 "bcrt1staker"
             None EmptyString).
Proof.
  assert (H : tx_roundtrips (stakingTxOf 1)) by solve_tx_roundtrips.
  split; [exact H|].
  exact (proj1 (created_record (stakingTxOf 1) 0 1000
                  (btcutil.mkAddress "bcrt1staker")) H eq_refl).
Defined.

Lemma page_params_bounds_witness :
  opt_int64 (Some 5) = true /\ opt_int64 (Some 500) = true
  /\ stakerservice.getPageParams (Some 5) (Some 500)
     = Ok (stakerservice.mkPageParams 5 100)
  /\ stakerservice.getPageParams (Some 5) (Some (-1))
     = Err (Errorf "limit cannot be negative").
Proof.
  split; [reflexivity|]. split; [reflexivity|]. split.
  - pose proof (page_params_bounds (Some 5) (Some 500) eq_refl eq_refl) as H.
    cbv zeta in H.
    destruct (stakerservice.getPageParams (Some 5) (Some 500)) as [[o l]|e].
    + destruct H as (_ & _ & Ho & Hl & _). simpl in Ho, Hl. subst.
      reflexivity.
    + destruct H as [[H _]|(_ & H & _)]; discriminate.
  - pose proof (page_params_bounds (Some 5) (Some (-1)) eq_refl eq_refl) as H.
    cbv zeta in H.
    destruct (stakerservice.getPageParams (Some 5) (Some (-1))) as [pp|e].
    + destruct H as (H & _). discriminate.
    + destruct H as [[_ ->]|(H & _)]; [reflexivity | discriminate].
Defined.

Lemma history_indices_contiguous_witness :
  let ops := [OpInsert (argsOf 1); OpInsert (argsOf 1);
              OpSetTxConfirmed (TxHash (stakingTxOf 1)) (hashOf 9) 100;
              OpInsert (argsOf 2)] in
  Z.of_nat (List.length ops) < MaxUint64
  /\ insertions newStore ops = 2%nat
  /\ exists tb ib,
       transactionBucket (run newStore ops) = Some tb
       /\ transactionIndex (run newStore ops) = Some ib
       /\ kvdb.keys tb = [uint64KeyToBytes 1; uint64KeyToBytes 2]
       /\ nextTxKey ib = Ok 3.
Proof.
  cbv zeta.
  assert (Hn : insertions newStore
                 [OpInsert (argsOf 1); OpInsert (argsOf 1);
                  OpSetTxConfirmed (TxHash (stakingTxOf 1)) (hashOf 9) 100;
                  OpInsert (argsOf 2)] = 2%nat) by (vm_compute; reflexivity).
  split; [reflexivity|]. split; [exact Hn|].
  destruct (history_indices_contiguous
              [OpInsert (argsOf 1); OpInsert (argsOf 1);
               OpSetTxConfirmed (TxHash (stakingTxOf 1)) (hashOf 9) 100;
               OpInsert (argsOf 2)] eq_refl)
    as (tb & ib & Htb & Hib & Hkeys & Hnext & _).
  rewrite Hn in Hkeys, Hnext.
  exists tb, ib. repeat split; assumption.
Defined.

Lemma query_total_witness :
  let ops := [OpInsert (argsOf 1); OpInsert (argsOf 1); OpInsert (argsOf 2)] in
  Z.of_nat (List.length ops) < MaxUint64
  /\ Total (fst (QueryStoredTransactions (run newStore ops)
                   (mkStoredTransactionQuery 7 1 true
                      (Some (mkWithdrawableTransactionsFilter 500)))))
     = 2.
Proof.
  cbv zeta. split; [reflexivity|].
  rewrite (proj1 (query_total
                    [OpInsert (argsOf 1); OpInsert (argsOf 1);
                     OpInsert (argsOf 2)]
                    (mkStoredTransactionQuery 7 1 true
                       (Some (mkWithdrawableTransactionsFilter 500)))
                    eq_refl)).
  vm_compute. reflexivity.
Defined.

Lemma scan_stops_at_first_error_witness :
  transactionBucket store2
  = Some ([] ++ (uint64KeyToBytes 1, put_tracked message1)
             :: skipn 1 (primaryOf store2))
  /\ decodeRecord (put_tracked message1) = Ok record1
  /\ ScanTrackedTransactions store2
       (fun (seen : nat) (_ : StoredTransaction) =>
          (Datatypes.S seen, Some (Errorf "stop"))) 0%nat
     = (1%nat, Some (Errorf "stop")).
Proof.
  assert (Htb : transactionBucket store2
                = Some ([] ++ (uint64KeyToBytes 1, put_tracked message1)
                           :: skipn 1 (primaryOf store2)))
    by (vm_compute; reflexivity).
  assert (Hd : decodeRecord (put_tracked message1) = Ok record1)
    by (vm_compute; reflexivity).
  split; [exact Htb|]. split; [exact Hd|].
  destruct (scan_stops_at_first_error store2 [] (skipn 1 (primaryOf store2))
              (uint64KeyToBytes 1) (put_tracked message1) []
              (fun (seen : nat) (_ : StoredTransaction) =>
                 (Datatypes.S seen, Some (Errorf "stop"))) 0%nat 0%nat
              Htb (Forall2_nil _) eq_refl) as (_ & _ & Hvisitor).
  exact (Hvisitor record1 1%nat (Errorf "stop") Hd eq_refl).
Defined.

Lemma open_keeps_buckets_witness :
  exists store,
    NewTrackedTransactionStore (mkDB None (Some (indexOf store1)) None)
    = Ok store
    /\ buckets_open store
    /\ transactionIndex store = Some (indexOf store1)
    /\ NewTrackedTransactionStore store1 = Ok store1.
Proof.
  destruct (open_keeps_buckets (mkDB None (Some (indexOf store1)) None))
    as (store & Hopen & Hall & _ & Hib & _).
  exists store. split; [exact Hopen|]. split; [exact Hall|].
  split; [exact (Hib _ eq_refl)|].
  destruct (open_keeps_buckets store1) as (store' & Hopen' & _ & _ & _ & _ & Hsame).
  rewrite Hopen'. f_equal. apply Hsame.
  repeat split; vm_compute; discriminate.
Defined.

Lemma step_deletes_nothing_witness :
  present (transactionBucket store1) (uint64KeyToBytes 1)
  /\ present (transactionBucket (fst (step store1 (OpInsert (argsOf 2)))))
       (uint64KeyToBytes 1).
Proof.
  assert (H : present (transactionBucket store1) (uint64KeyToBytes 1)).
  { exists (primaryOf store1). split; vm_compute; [reflexivity | discriminate]. }
  split; [exact H|].
  exact (proj1 (step_deletes_nothing store1 (OpInsert (argsOf 2))
                  (uint64KeyToBytes 1)) H).
Defined.

Lemma insert_succeeds_iff_witness :
  snd (Insert newStore (argsOf 1)) = None
  /\ snd (Insert (mkDB (transactionBucket store1) (transactionIndex store1)
                    (Some [])) (argsOf 2))
     = None.
Proof.
  assert (H : snd (Insert newStore (argsOf 1)) = None)
    by (vm_compute; reflexivity).
  split; [exact H|].
  assert (Hs : snd (Insert store1 (argsOf 2)) = None)
    by (vm_compute; reflexivity).
  assert (Hb : inputsDataBucket store1
               = Some (match inputsDataBucket store1 with
                       | Some b => b
                       | None => []
                       end)) by (vm_compute; reflexivity).
  exact (eq_trans
           (proj2 (insert_succeeds_iff store1 (argsOf 2)) _ [] Hb) Hs).
Defined.
